(** * media-batch-manager: classification, de-duplication and batching

    A shallow embedding of the two sorters of the repository,
    [sort_image.py] (class [FileSorter]) and [sort_document.py] (class
    [DocumentSorter]), together with the properties of their duplicate
    grouping, batch allocation, categorisation and clean-up code.

    Conventions of the embedding:
    - a [pathlib.Path] is the list of its parts; [str(path)] and
      [Path(str)] are inverse to each other on such paths, so a path
      string is represented by the path itself;
    - a Python [str] is a [string], a [bytes] value a [list byte];
    - Python dictionaries keep insertion order, which the image sorter
      relies on when it scans [hash_dict]; they are association lists
      updated in place ([PyDict]);
    - Python sets of paths are [gset]s;
    - what the interpreter and the third-party packages provide (PIL and
      imagehash, hashlib, chardet, PyPDF2, BeautifulSoup, the codecs, the
      Unicode tables behind [str.lower] and [str.split], and the content
      of the files on disk) is collected in the class [Env]. *)

From Stdlib Require Import ZArith List Bool Lia.
From Stdlib.Strings Require Import String Ascii Byte.
From Stdlib.Numbers Require Import DecimalString DecimalN.
From stdpp Require Import gmap strings list fin_maps.

(** ** Paths *)

Definition Path : Type := list string.

(** [path / part] *)
Definition path_join (p : Path) (part : string) : Path := p ++ [part].

(** [path.name] *)
Definition name (p : Path) : string := List.last p "".

(** [str.rfind('.')] *)
Fixpoint rfind_dot (s : string) : option nat :=
  match s with
  | EmptyString => None
  | String c s' =>
      match rfind_dot s' with
      | Some i => Some (S i)
      | None => if Ascii.eqb c "."%char then Some 0 else None
      end
  end.

(** [path.suffix], as pathlib computes it: the part of the name from its
    last dot on, unless that dot is the first or the last character. *)
Definition suffix (p : Path) : string :=
  let n := name p in
  match rfind_dot n with
  | Some i =>
      if (0 <? i) && (i <? String.length n - 1)
      then substring i (String.length n - i) n
      else ""
  | None => ""
  end.

(** [needle in haystack] on strings *)
Fixpoint str_contains (needle haystack : string) : bool :=
  String.prefix needle haystack
  || match haystack with
     | EmptyString => false
     | String _ rest => str_contains needle rest
     end.

(** ** Python dictionaries (insertion ordered) *)

Module PyDict.
Section Dict.
Context {V : Type}.

Definition t : Type := list (string * V).

(** [d.get(k)] *)
Fixpoint get (k : string) (d : t) : option V :=
  match d with
  | [] => None
  | (k', v) :: d' => if String.eqb k k' then Some v else get k d'
  end.

(** [k in d] *)
Definition mem (k : string) (d : t) : bool :=
  match get k d with Some _ => true | None => false end.

(** [d[k] = v]: an existing key keeps its position *)
Fixpoint set (k : string) (v : V) (d : t) : t :=
  match d with
  | [] => [(k, v)]
  | (k', v') :: d' =>
      if String.eqb k k' then (k', v) :: d' else (k', v') :: set k v d'
  end.

(** [list(d)]: the keys in iteration order *)
Definition keys (d : t) : list string := map fst d.

(** [d.values()] *)
Definition values (d : t) : list V := map snd d.
End Dict.

(** [d.setdefault(k, []).append(x)] *)
Definition setdefault_append {A : Type} (k : string) (x : A)
    (d : @t (list A)) : @t (list A) :=
  match get k d with
  | Some l => set k (l ++ [x]) d
  | None => set k [x] d
  end.
End PyDict.

(** ** Bytes and numbers as text *)

(** [str(n)] for a natural number *)
Definition str_of_nat (n : nat) : string :=
  NilEmpty.string_of_uint (Nat.to_uint n).

(** [s.encode()] for ASCII text *)
Definition ascii_encode (s : string) : list byte := list_byte_of_string s.

Definition hex_digit (n : N) : ascii :=
  match n with
  | 0 => "0" | 1 => "1" | 2 => "2" | 3 => "3" | 4 => "4" | 5 => "5"
  | 6 => "6" | 7 => "7" | 8 => "8" | 9 => "9" | 10 => "a" | 11 => "b"
  | 12 => "c" | 13 => "d" | 14 => "e" | _ => "f"
  end%N%char.

(** [bytes.hex()] *)
Fixpoint bytes_hex (bs : list byte) : string :=
  match bs with
  | [] => ""
  | b :: bs' =>
      let n := Byte.to_N b in
      String (hex_digit (n / 16)) (String (hex_digit (n mod 16)) (bytes_hex bs'))
  end.

(** [f"{n:03d}"]: decimal, zero-padded to a width of three; the sign of a
    negative number counts towards the width. *)
Definition zero_pad (width : nat) (digits : string) : string :=
  string_of_list_ascii (repeat "0"%char (width - String.length digits)) +:+ digits.

Definition str_of_pos_Z (n : Z) : string :=
  NilEmpty.string_of_uint (N.to_uint (Z.to_N n)).

Definition format_03d (n : Z) : string :=
  if (n <? 0)%Z then "-" +:+ zero_pad 2 (str_of_pos_Z (- n))
  else zero_pad 3 (str_of_pos_Z n).

(** [f"batch_{n:03d}"] *)
Definition batch_name (n : Z) : string := "batch_" +:+ format_03d n.

(** Reads a number back from its decimal digits, with or without sign and
    leading zeros. *)
Definition parse_decimal (s : string) : option Z :=
  match s with
  | EmptyString => None
  | String c s' =>
      if Ascii.eqb c "-"%char
      then (fun d => (- Z.of_N (N.of_uint d))%Z) <$> NilEmpty.uint_of_string s'
      else (fun d => Z.of_N (N.of_uint d)) <$> NilEmpty.uint_of_string s
  end.

(** ** Perceptual hashes as bit vectors

    [str(imagehash.average_hash(img))] writes the bits of the hash as
    lower-case hexadecimal digits, four bits to a digit. *)

Definition is_hex_char (c : ascii) : bool :=
  let n := nat_of_ascii c in
  ((48 <=? n) && (n <=? 57)) || ((97 <=? n) && (n <=? 102)).

Definition is_hex (s : string) : bool :=
  forallb is_hex_char (list_ascii_of_string s).

(** The value of a hexadecimal digit. *)
Definition hex_value (c : ascii) : nat :=
  let n := nat_of_ascii c in
  if (48 <=? n) && (n <=? 57) then n - 48
  else if (97 <=? n) && (n <=? 102) then n - 87
  else 0.

(** The four bits of a hexadecimal digit, the most significant first. *)
Definition nibble_bits (c : ascii) : list bool :=
  let v := hex_value c in
  [Nat.testbit v 3; Nat.testbit v 2; Nat.testbit v 1; Nat.testbit v 0].

(** The bits of a hash given by its hexadecimal digits. *)
Fixpoint hash_bits (s : string) : list bool :=
  match s with
  | EmptyString => []
  | String c s' => nibble_bits c ++ hash_bits s'
  end.

(** The number of positions at which two bit vectors differ. *)
Fixpoint hamming (xs ys : list bool) : nat :=
  match xs, ys with
  | x :: xs', y :: ys' => (if Bool.eqb x y then 0 else 1) + hamming xs' ys'
  | _, _ => 0
  end.

(** The Hamming distance between the hashes two digit strings denote. *)
Definition hamming_distance (a b : string) : nat :=
  hamming (hash_bits a) (hash_bits b).

(** Every character, for checks that run over all of them. *)
Definition all_ascii : list ascii := map ascii_of_nat (seq 0 256).

(** ** The environment *)

(** Result of opening a file in text mode with a given codec and reading it. *)
Inductive DecodeResult :=
  | Decoded (text : string)
  | UnicodeDecodeError
  | OtherError.

(** Result of moving or copying one file: done; raised with the target
    untouched; raised after the target had been written (the copy went
    through and a later step, removing the source or copying its metadata,
    failed). *)
Inductive Outcome :=
  | Done
  | Failed
  | FailedAfterCopy.

Class Env := {
  (** content of the file at a path; [None] when it cannot be opened or read *)
  fs : Path -> option (list byte);
  (** [str.lower] *)
  str_lower : string -> string;
  (** the characters [str.split()] treats as separators *)
  char_isspace : ascii -> bool;
  (** [hashlib.md5(data).hexdigest()] *)
  md5_hexdigest : list byte -> string;
  (** [hashlib.sha256(data).hexdigest()] *)
  sha256_hexdigest : list byte -> string;
  (** [str.encode('utf-8')]; [None] when it raises *)
  utf8_encode : string -> option (list byte);
  (** [Image.open], conversion to RGB and [str(imagehash.average_hash(img))];
      [None] when any of them raises *)
  average_hash_str : list byte -> option string;
  (** [chardet.detect(raw)['encoding']] *)
  chardet_detect : list byte -> option string;
  (** reading a file in text mode with the named codec *)
  decode_with : string -> list byte -> DecodeResult;
  (** reading with [encoding='utf-8', errors='ignore']; [None] when it raises *)
  decode_utf8_ignore : list byte -> option string;
  (** [len(PdfReader(f).pages)]; [None] when PyPDF2 raises *)
  pdf_num_pages : list byte -> option nat;
  (** a parsed document of BeautifulSoup *)
  Soup : Type;
  (** [BeautifulSoup(content, 'xml')]; [None] when it raises *)
  soup_xml : string -> option Soup;
  (** [BeautifulSoup(content, 'lxml')]; [None] when it raises *)
  soup_lxml : string -> option Soup;
  (** [soup.find('title')] and its [.text]; [None] when it raises *)
  soup_title_text : Soup -> option (option string);
  (** [re.search(r'bookmarks?', text, re.I)] *)
  re_search_bookmarks : string -> bool;
  (** [soup.find_all('a', {attr: True})] is non-empty; [None] when it raises *)
  soup_has_anchor_with : string -> Soup -> option bool;
  (** [int(text)]; [None] when it raises [ValueError] *)
  py_int : string -> option Z;
  (** what [shutil.move] or [shutil.copy2] does for a source and a target *)
  transfer : Path -> Path -> Outcome;
  (** whether [os.remove] of a file succeeds *)
  remove_ok : Path -> bool;
  (** whether [os.rmdir] of an empty directory succeeds *)
  rmdir_ok : Path -> bool;
}.

(** ** The image sorter ([sort_image.py]) *)

Module Image.
Section FileSorter.
Context {E : Env}.

Definition image_extensions : list string :=
  [".jpg"; ".jpeg"; ".png"; ".gif"; ".bmp"; ".webp"; ".svg"; ".tiff";
   ".tif"; ".heic"].

(** [file_path.suffix.lower() in self.image_extensions] *)
Definition is_image (file_path : Path) : bool :=
  bool_decide (str_lower (suffix file_path) ∈ image_extensions).

Definition chunk_size : nat := 1024 * 1024.

(** The bytes fed to MD5 for a file that is not an image: the decimal
    size, then the whole content, or the first and the last chunk of a
    file larger than two chunks. *)
Definition sampled_content (content : list byte) : list byte :=
  let file_size := length content in
  ascii_encode (str_of_nat file_size)
  ++ (if chunk_size * 2 <? file_size
      then firstn chunk_size content
           ++ firstn chunk_size (skipn (file_size - chunk_size) content)
      else content).

(** [FileSorter.compute_file_hash] *)
Definition compute_file_hash (file_path : Path) : Path * option string :=
  if is_image file_path then
    (file_path,
     match fs file_path with
     | Some content => average_hash_str content
     | None => None
     end)
  else
    (file_path,
     match fs file_path with
     | Some content => Some (md5_hexdigest (sampled_content content))
     | None => None
     end).

(** [sum(c1 != c2 for c1, c2 in zip(a, b))] *)
Fixpoint char_diff (a b : string) : nat :=
  match a, b with
  | String c1 a', String c2 b' =>
      (if Ascii.eqb c1 c2 then 0 else 1) + char_diff a' b'
  | _, _ => 0
  end.

(** The scan of [hash_dict] for a similar image hash: the first key, in
    insertion order, of the same length and within the threshold. *)
Definition find_similar (hash_dict : @PyDict.t Path) (file_hash : string)
    (hash_threshold : Z) : option string :=
  List.find
    (fun existing_hash =>
       (String.length existing_hash =? String.length file_hash)
       && (Z.of_nat (char_diff file_hash existing_hash) <=? hash_threshold)%Z)
    (PyDict.keys hash_dict).

(** The two dictionaries of [find_duplicates]. *)
Record DupState := {
  hash_dict : @PyDict.t Path;
  duplicates : @PyDict.t (list Path);
}.

Definition dup_init : DupState := {| hash_dict := []; duplicates := [] |}.

(** One iteration of the loop over [files]. *)
Definition dup_step (hash_threshold : Z) (st : DupState) (file_path : Path)
    : DupState :=
  let '(path_str, file_hash) := compute_file_hash file_path in
  match file_hash with
  | None => st
  | Some file_hash =>
      if is_image file_path then
        match find_similar (hash_dict st) file_hash hash_threshold with
        | Some existing_hash =>
            {| hash_dict := hash_dict st;
               duplicates :=
                 PyDict.setdefault_append existing_hash path_str (duplicates st) |}
        | None =>
            {| hash_dict := PyDict.set file_hash path_str (hash_dict st);
               duplicates := duplicates st |}
        end
      else if PyDict.mem file_hash (hash_dict st) then
        {| hash_dict := hash_dict st;
           duplicates :=
             PyDict.setdefault_append file_hash path_str (duplicates st) |}
      else
        {| hash_dict := PyDict.set file_hash path_str (hash_dict st);
           duplicates := duplicates st |}
  end.

Definition dup_run (files : list Path) (hash_threshold : Z) : DupState :=
  fold_left (dup_step hash_threshold) files dup_init.

(** [FileSorter.find_duplicates] *)
Definition find_duplicates (files : list Path) (hash_threshold : Z)
    : @PyDict.t (list Path) :=
  duplicates (dup_run files hash_threshold).

(** The members of the duplicate group of a signature: the first-seen
    path recorded in [hash_dict], then the paths recorded in
    [duplicates]. *)
Definition group_of (st : DupState) (h : string) : list Path :=
  match PyDict.get h (hash_dict st) with
  | Some first_seen =>
      first_seen :: default [] (PyDict.get h (duplicates st))
  | None => []
  end.

(** [x] is recorded under the signature [h]: as its first-seen path or in
    its list of duplicates. *)
Definition member (st : DupState) (h : string) (x : Path) : Prop :=
  PyDict.get h (hash_dict st) = Some x
  ∨ ∃ l, PyDict.get h (duplicates st) = Some l ∧ x ∈ l.

(** The signature under which [dup_step] records a file. *)
Definition recorded_under (t : Z) (st : DupState) (z : Path) (h : string)
    : Prop :=
  ∃ hz, snd (compute_file_hash z) = Some hz ∧
    if is_image z
    then find_similar (hash_dict st) hz t = Some h
         ∨ (find_similar (hash_dict st) hz t = None ∧ h = hz)
    else h = hz.

(** What the run at a threshold and the run at a greater one have in
    common after the first file [f0] with signature [h0]: both keep that
    signature as first key, its group in the first run is contained in
    its group in the second, and the first file is recorded under no
    other signature. *)
Definition coupled (f0 : Path) (h0 : string) (st st' : DupState) : Prop :=
  (∃ v d, hash_dict st = (h0, v) :: d)
  ∧ (∃ v' d', hash_dict st' = (h0, v') :: d')
  ∧ (∀ x, member st h0 x -> member st' h0 x)
  ∧ (∀ h, member st h f0 -> h = h0).

(** A path is treated as a duplicate when some list of [duplicates]
    holds it. *)
Definition treated_as_duplicate (dups : @PyDict.t (list Path)) (x : Path)
    : Prop :=
  ∃ h l, PyDict.get h dups = Some l ∧ x ∈ l.

Definition same_group (st : DupState) (x y : Path) : Prop :=
  ∃ h, x ∈ group_of st h ∧ y ∈ group_of st h.

(** [main], the loop that fills [duplicate_paths]: of every list of
    [duplicates] longer than one, all paths but the first. *)
Definition duplicate_paths_of (dups : @PyDict.t (list Path)) : gset Path :=
  fold_left
    (fun (acc : gset Path) '(hash_value, file_list) =>
       if 1 <? length file_list
       then fold_left (fun (acc : gset Path) file_path => acc ∪ {[file_path]})
              (skipn 1 file_list) acc
       else acc)
    dups ∅.

(** [main], the comprehension that builds [unique_files]. *)
Definition unique_files_of (files : list Path) (duplicate_paths : gset Path)
    : gset Path :=
  list_to_set (filter (fun f => f ∉ duplicate_paths) files).

(** [main] up to the call of [organize_files]: the paths it unlinks as
    duplicates and the paths it hands over for relocation.  [main] calls
    [find_duplicates] with the default threshold 0. *)
Definition main_plan (files : list Path) : gset Path * gset Path :=
  let dups := find_duplicates files 0 in
  let duplicate_paths := duplicate_paths_of dups in
  (duplicate_paths, unique_files_of files duplicate_paths).
End FileSorter.
End Image.

(** ** The document sorter ([sort_document.py]) *)

Module Doc.
Section DocumentSorter.
Context {E : Env}.

(** The dictionary literal of [__init__], in source order.  ['.rtf']
    occurs twice; building the dictionary keeps the later value. *)
Definition category_literal : list (string * string) :=
  [(".doc", "documents"); (".docx", "documents"); (".pages", "documents");
   (".odt", "documents"); (".rtf", "documents");
   (".xls", "spreadsheets"); (".xlsx", "spreadsheets");
   (".numbers", "spreadsheets"); (".ods", "spreadsheets");
   (".csv", "spreadsheets");
   (".ppt", "presentations"); (".pptx", "presentations");
   (".key", "presentations"); (".odp", "presentations");
   (".txt", "notes"); (".md", "notes"); (".rtf", "notes");
   (".html", "web"); (".htm", "web"); (".mht", "web"); (".url", "web");
   (".webloc", "web");
   (".zip", "archives"); (".rar", "archives"); (".7z", "archives");
   (".tar", "archives"); (".gz", "archives"); (".bz2", "archives");
   (".jpg", "images"); (".jpeg", "images"); (".png", "images");
   (".gif", "images"); (".bmp", "images"); (".tiff", "images");
   (".webp", "images");
   (".mp3", "audio"); (".wav", "audio"); (".aac", "audio");
   (".m4a", "audio"); (".ogg", "audio"); (".flac", "audio");
   (".mp4", "video"); (".mov", "video"); (".avi", "video");
   (".mkv", "video"); (".wmv", "video"); (".flv", "video");
   (".py", "code"); (".js", "code"); (".java", "code"); (".cpp", "code");
   (".c", "code"); (".h", "code"); (".css", "code"); (".php", "code");
   (".rb", "code"); (".swift", "code"); (".go", "code"); (".rs", "code");
   (".json", "config"); (".xml", "config"); (".yaml", "config");
   (".yml", "config"); (".ini", "config"); (".conf", "config");
   (".env", "config");
   (".sql", "database"); (".db", "database"); (".sqlite", "database");
   (".sqlite3", "database")].

Definition category_mapping : @PyDict.t string :=
  fold_left (fun d '(k, v) => PyDict.set k v d) category_literal [].

Definition binary_formats : list string :=
  [".doc"; ".rtf"; ".docx"; ".odt"; ".pdf"; ".pages";
   ".xls"; ".xlsx"; ".xlsm"; ".ods"; ".numbers";
   ".key"; ".ppt"; ".pptx"; ".odp"; ".keynote"].

(** [file_path.suffix.lower() in self.binary_formats] *)
Definition is_binary (file_path : Path) : bool :=
  bool_decide (str_lower (suffix file_path) ∈ binary_formats).

(** [DocumentSorter.detect_encoding] *)
Definition detect_encoding (file_path : Path) : string :=
  match fs file_path with
  | Some content =>
      let raw_data := firstn 4096 content in
      match raw_data with
      | [] => "utf-8"
      | _ =>
          match chardet_detect raw_data with
          | Some enc => if String.eqb enc "" then "utf-8" else enc
          | None => "utf-8"
          end
      end
  | None => "utf-8"
  end.

(** The loop of [read_file_content] over the candidate encodings:
    [Some text] when the function returns inside the loop, [None] when
    every codec raised [UnicodeDecodeError]. *)
Fixpoint try_encodings (encodings : list string) (file_path : Path)
    : option string :=
  match encodings with
  | [] => None
  | encoding :: rest =>
      match fs file_path with
      | None => Some ""
      | Some content =>
          match decode_with encoding content with
          | Decoded text => Some text
          | UnicodeDecodeError => try_encodings rest file_path
          | OtherError => Some ""
          end
      end
  end.

(** [DocumentSorter.read_file_content] *)
Definition read_file_content (file_path : Path) : string :=
  if is_binary file_path then
    match fs file_path with
    | Some content => bytes_hex content
    | None => ""
    end
  else
    let encodings := ["utf-8"; "latin1"; "cp1252"; "iso-8859-1"] in
    let detected := detect_encoding file_path in
    let encodings :=
      if negb (String.eqb detected "") && negb (bool_decide (detected ∈ encodings))
      then detected :: encodings
      else encodings in
    match try_encodings encodings file_path with
    | Some text => text
    | None =>
        match fs file_path with
        | Some content => default "" (decode_utf8_ignore content)
        | None => ""
        end
    end.

(** [content.split()]: the maximal runs of characters that are not
    white space; [cur] is the run being read. *)
Fixpoint str_split (content cur : string) : list string :=
  match content with
  | EmptyString => if String.eqb cur "" then [] else [cur]
  | String c rest =>
      if char_isspace c
      then (if String.eqb cur "" then str_split rest ""
            else cur :: str_split rest "")
      else str_split rest (cur +:+ String c "")
  end.

(** [''.join(words)] *)
Definition str_join (words : list string) : string :=
  fold_right String.append "" words.

(** [DocumentSorter.normalize_content] *)
Definition normalize_content (content : string) : string :=
  str_lower (str_join (str_split content "")).

(** [DocumentSorter.compute_file_hash] *)
Definition compute_file_hash (file_path : Path) : Path * option string :=
  let content := read_file_content file_path in
  if String.eqb content "" then (file_path, None)
  else if is_binary file_path then (file_path, Some content)
  else
    let normalized_content := normalize_content content in
    match utf8_encode normalized_content with
    | Some data => (file_path, Some (sha256_hexdigest data))
    | None => (file_path, None)
    end.

Record DupState := {
  hash_dict : @PyDict.t Path;
  duplicates : @PyDict.t (list Path);
}.

Definition dup_init : DupState := {| hash_dict := []; duplicates := [] |}.

(** One iteration of the loop of [find_duplicates]. *)
Definition dup_step (st : DupState) (file_path : Path) : DupState :=
  let '(path_str, file_hash) := compute_file_hash file_path in
  match file_hash with
  | None => st
  | Some file_hash =>
      if PyDict.mem file_hash (hash_dict st) then
        {| hash_dict := hash_dict st;
           duplicates :=
             PyDict.setdefault_append file_hash path_str (duplicates st) |}
      else
        {| hash_dict := PyDict.set file_hash path_str (hash_dict st);
           duplicates := duplicates st |}
  end.

Definition dup_run (files : list Path) : DupState :=
  fold_left dup_step files dup_init.

(** [DocumentSorter.find_duplicates] *)
Definition find_duplicates (files : list Path) : @PyDict.t (list Path) :=
  duplicates (dup_run files).

Definition group_of (st : DupState) (h : string) : list Path :=
  match PyDict.get h (hash_dict st) with
  | Some first_seen =>
      first_seen :: default [] (PyDict.get h (duplicates st))
  | None => []
  end.

(** [main], the loop that fills [unique_files] and [processed_hashes]. *)
Definition unique_step (acc : gset Path * gset string) (file_path : Path)
    : gset Path * gset string :=
  let '(unique_files, processed_hashes) := acc in
  let '(path_str, file_hash) := compute_file_hash file_path in
  match file_hash with
  | None => acc
  | Some file_hash =>
      if bool_decide (file_hash ∉ processed_hashes)
      then (unique_files ∪ {[file_path]}, processed_hashes ∪ {[file_hash]})
      else acc
  end.

Definition unique_files_of (all_files : list Path) : gset Path :=
  fst (fold_left unique_step all_files (∅, ∅)).

(** What the loop of [main] and the loop of [find_duplicates] agree on
    after the same files [seen]: the processed signatures are the keys of
    [hash_dict], the unique files are its values, every recorded path has
    been seen and has the signature it is recorded under, and no listed
    duplicate is the first-seen path of its signature. *)
Definition plans_agree (seen : list Path) (st : DupState)
    (acc : gset Path * gset string) : Prop :=
  (∀ h, h ∈ snd acc <-> PyDict.mem h (hash_dict st) = true)
  ∧ (∀ p, p ∈ fst acc <-> ∃ h, PyDict.get h (hash_dict st) = Some p)
  ∧ (∀ h p, PyDict.get h (hash_dict st) = Some p ->
            p ∈ seen ∧ snd (compute_file_hash p) = Some h)
  ∧ (∀ h l o, PyDict.get h (duplicates st) = Some l -> o ∈ l ->
              o ∈ seen ∧ snd (compute_file_hash o) = Some h
              ∧ PyDict.get h (hash_dict st) ≠ Some o).

(** The comprehension of [clean_source_directory] that flattens the
    values of [duplicates]. *)
Definition duplicate_files_of (dups : @PyDict.t (list Path)) : list Path :=
  concat (PyDict.values dups).

(** [main] up to the calls of [organize_files] and
    [clean_source_directory]: the paths handed over for relocation and
    the paths removed as duplicates. *)
Definition main_plan (all_files : list Path) : gset Path * list Path :=
  (unique_files_of all_files, duplicate_files_of (find_duplicates all_files)).

(** [DocumentSorter.is_bookmark_file]; [None] stands for an exception
    inside the [try] block. *)
Definition is_bookmark_try (file_path : Path) : option bool :=
  match fs file_path with
  | None => None
  | Some raw =>
      match decode_with "utf-8" raw with
      | Decoded content =>
          let soup :=
            match soup_xml content with
            | Some s => Some s
            | None => soup_lxml content
            end in
          match soup with
          | None => None
          | Some soup =>
              match soup_title_text soup with
              | None => None
              | Some title =>
                  if match title with
                     | Some text => re_search_bookmarks text
                     | None => false
                     end
                  then Some true
                  else
                    match soup_has_anchor_with "add_date" soup with
                    | None => None
                    | Some true => Some true
                    | Some false =>
                        match soup_has_anchor_with "last_modified" soup with
                        | None => None
                        | Some b => Some b
                        end
                    end
              end
          end
      | _ => None
      end
  end.

Definition is_bookmark_file (file_path : Path) : bool :=
  match is_bookmark_try file_path with
  | Some b => b
  | None => str_contains "bookmark" (str_lower (name file_path))
  end.

(** [DocumentSorter.get_pdf_page_count] *)
Definition get_pdf_page_count (file_path : Path) : nat :=
  match fs file_path with
  | Some content =>
      match pdf_num_pages content with
      | Some n => n
      | None => 0
      end
  | None => 0
  end.

(** [DocumentSorter.get_file_category] *)
Definition get_file_category (file_path : Path) : string :=
  let ext := str_lower (suffix file_path) in
  if String.eqb ext ".pdf" then
    let page_count := get_pdf_page_count file_path in
    if 5 <? page_count then "ebooks" else "pdfs"
  else if bool_decide (ext ∈ [".html"; ".htm"; ".url"; ".webloc"]) then
    if is_bookmark_file file_path then "bookmarks" else "web"
  else default "other" (PyDict.get ext category_mapping).
End DocumentSorter.
End Doc.

(** ** The destination tree and the batch allocator *)

(** The destination tree: every directory with the names of its entries. *)
Abbreviation DirMap := (gmap Path (gset string)).

(** The names [folder.glob('*')] yields. *)
Definition entries (d : DirMap) (p : Path) : gset string := default ∅ (d !! p).

(** [os.mkdir] of a directory whose parent exists, tolerating an existing
    one: a new directory is empty and appears in its parent's listing.
    The destination is taken to hold no regular file under a name the
    sorter needs for a directory; there [Path.mkdir] raises
    [FileExistsError]. *)
Definition mkdir (d : DirMap) (p : Path) : DirMap :=
  match d !! p with
  | Some _ => d
  | None =>
      let parent := removelast p in
      <[p := ∅]> (<[parent := entries d parent ∪ {[name p]}]> d)
  end.

(** The prefixes of a path, shortest first, the empty one left out. *)
Definition ancestors_and_self (p : Path) : list Path :=
  map (fun k => firstn k p) (seq 1 (length p)).

(** [path.mkdir(parents=True, exist_ok=True)] *)
Definition mkdir_parents (d : DirMap) (p : Path) : DirMap :=
  fold_left mkdir (ancestors_and_self p) d.

(** A file arrives in a folder under a name; an entry of that name is
    replaced. *)
Definition add_entry (d : DirMap) (folder : Path) (entry : string) : DirMap :=
  <[folder := entries d folder ∪ {[entry]}]> d.

(** The [while True] loop shared by both [get_next_batch_folder] methods,
    below the directory [base]; [fuel] bounds the number of iterations. *)
Fixpoint next_batch_loop (fuel : nat) (base : Path) (max_files_per_folder : Z)
    (current_folder_num : Z) (d : DirMap) : option (Path * Z * DirMap) :=
  match fuel with
  | O => None
  | S fuel' =>
      let folder := path_join base (batch_name current_folder_num) in
      let d1 := mkdir_parents d folder in
      let file_count := size (entries d1 folder) in
      if (Z.of_nat file_count <? max_files_per_folder)%Z
      then Some (folder, current_folder_num, d1)
      else next_batch_loop fuel' base max_files_per_folder
             (current_folder_num + 1) d1
  end.

(** The mutable state of a sorter while it organizes files, and the log of
    the transfers it has requested (source, target, outcome). *)
Record Sorter := {
  dest : DirMap;
  current_folder_num : Z;
  processed_files : gset Path;
  transfers : list (Path * Path * Outcome);
}.

(** The state a sorter is constructed with, over a destination tree. *)
Definition sorter_init (d : DirMap) : Sorter :=
  {| dest := d; current_folder_num := 1; processed_files := ∅; transfers := [] |}.

(** A folder is full when it holds as many entries as a folder may. *)
Definition full (max_files_per_folder : Z) (d : DirMap) (folder : Path) : Prop :=
  (max_files_per_folder <= Z.of_nat (size (entries d folder)))%Z.

(** Every directory at the given depth is within the limit or holds what
    it held in [d0]. *)
Definition kept_within (max_files_per_folder : Z) (depth : nat) (d0 : DirMap)
    (st : Sorter) : Prop :=
  ∀ p, length p = depth ->
       (Z.of_nat (size (entries (dest st) p)) <= max_files_per_folder)%Z
       ∨ entries (dest st) p = entries d0 p.

(** A loop whose body may run out of fuel. *)
Fixpoint for_each {A S : Type} (body : S -> A -> option S) (xs : list A) (s : S)
    : option S :=
  match xs with
  | [] => Some s
  | x :: xs' =>
      match body s x with
      | Some s' => for_each body xs' s'
      | None => None
      end
  end.

Section Organize.
Context {E : Env}.
Variable dest_base_dir : Path.
Variable max_files_per_folder : Z.

(** The [try] block around [shutil.move] / [shutil.copy2] in both
    [organize_files] methods. *)
Definition try_transfer (st : Sorter) (file_path dest_folder : Path) : Sorter :=
  let target := path_join dest_folder (name file_path) in
  match transfer file_path target with
  | Done =>
      {| dest := add_entry (dest st) dest_folder (name file_path);
         current_folder_num := current_folder_num st;
         processed_files := processed_files st ∪ {[file_path]};
         transfers := transfers st ++ [(file_path, target, Done)] |}
  | FailedAfterCopy =>
      {| dest := add_entry (dest st) dest_folder (name file_path);
         current_folder_num := current_folder_num st;
         processed_files := processed_files st;
         transfers := transfers st ++ [(file_path, target, FailedAfterCopy)] |}
  | Failed =>
      {| dest := dest st;
         current_folder_num := current_folder_num st;
         processed_files := processed_files st;
         transfers := transfers st ++ [(file_path, target, Failed)] |}
  end.

(** [DocumentSorter.get_next_batch_folder] *)
Definition doc_get_next_batch_folder (fuel : nat) (category : string)
    (st : Sorter) : option (Path * Sorter) :=
  let category_dir := path_join dest_base_dir category in
  let d0 := mkdir_parents (dest st) category_dir in
  match next_batch_loop fuel category_dir max_files_per_folder
          (current_folder_num st) d0 with
  | Some (folder, num, d1) =>
      Some (folder,
            {| dest := d1; current_folder_num := num;
               processed_files := processed_files st;
               transfers := transfers st |})
  | None => None
  end.

(** The first loop of [DocumentSorter.organize_files]. *)
Definition files_by_category (files : list Path) : @PyDict.t (list Path) :=
  fold_left
    (fun by_cat file_path =>
       PyDict.setdefault_append (Doc.get_file_category file_path) file_path by_cat)
    files [].

Definition doc_place (fuel : nat) (category : string) (st : Sorter)
    (file_path : Path) : option Sorter :=
  match doc_get_next_batch_folder fuel category st with
  | Some (dest_folder, st1) => Some (try_transfer st1 file_path dest_folder)
  | None => None
  end.

Definition doc_organize_category (fuel : nat) (st : Sorter)
    (item : string * list Path) : option Sorter :=
  let '(category, sorted_files) := item in
  let st0 :=
    {| dest := dest st; current_folder_num := 1;
       processed_files := processed_files st; transfers := transfers st |} in
  for_each (doc_place fuel category) sorted_files st0.

(** [DocumentSorter.organize_files]; [files] is the set in the order the
    interpreter iterates over it. *)
Definition doc_organize_files (fuel : nat) (files : list Path) (st : Sorter)
    : option Sorter :=
  let st0 :=
    {| dest := mkdir_parents (dest st) dest_base_dir;
       current_folder_num := current_folder_num st;
       processed_files := processed_files st; transfers := transfers st |} in
  for_each (doc_organize_category fuel) (files_by_category files) st0.

(** [FileSorter.get_next_batch_folder] *)
Definition img_get_next_batch_folder (fuel : nat) (st : Sorter)
    : option (Path * Sorter) :=
  match next_batch_loop fuel dest_base_dir max_files_per_folder
          (current_folder_num st) (dest st) with
  | Some (folder, num, d1) =>
      Some (folder,
            {| dest := d1; current_folder_num := num;
               processed_files := processed_files st;
               transfers := transfers st |})
  | None => None
  end.

(** [text.split('_')]: [cur] is the piece being read. *)
Fixpoint split_underscore (text cur : string) : list string :=
  match text with
  | EmptyString => [cur]
  | String c rest =>
      if Ascii.eqb c "_"%char then cur :: split_underscore rest ""
      else split_underscore rest (cur +:+ String c "")
  end.

(** [max] of a list of names that share their parent directory. *)
Definition max_name (names : list string) : option string :=
  match names with
  | [] => None
  | n :: rest =>
      Some (fold_left (fun best x => if String.ltb best x then x else best) rest n)
  end.

(** The first folder number [FileSorter.organize_files] tries: one more
    than the number in the greatest existing [batch_*] name, or 1. *)
Definition img_first_folder_num (d : DirMap) : Z :=
  let existing_folders :=
    filter (fun n => String.prefix "batch_" n = true)
      (elements (entries d dest_base_dir)) in
  match max_name existing_folders with
  | Some last_folder =>
      match split_underscore last_folder "" with
      | _ :: piece :: _ =>
          match py_int piece with
          | Some n => (n + 1)%Z
          | None => 1%Z
          end
      | _ => 1%Z
      end
  | None => 1%Z
  end.

Definition img_place (fuel : nat) (st : Sorter) (file_path : Path)
    : option Sorter :=
  match img_get_next_batch_folder fuel st with
  | Some (dest_folder, st1) => Some (try_transfer st1 file_path dest_folder)
  | None => None
  end.

(** [FileSorter.organize_files]; [sorted_files] is the list [sorted]
    returns for the set of unique files. *)
Definition img_organize_files (fuel : nat) (sorted_files : list Path)
    (st : Sorter) : option Sorter :=
  let d0 := mkdir_parents (dest st) dest_base_dir in
  let st0 :=
    {| dest := d0; current_folder_num := img_first_folder_num d0;
       processed_files := processed_files st; transfers := transfers st |} in
  for_each (img_place fuel) sorted_files st0.


End Organize.

(** ** The source tree and the clean-up *)

(** A directory: the names of its files and its sub-directories by name. *)
#[warnings="-register-all"] Inductive Tree :=
  | Dir (files : list string) (subdirs : list (string * Tree)).

Definition tree_files (t : Tree) : list string :=
  match t with Dir fs _ => fs end.

Definition tree_subdirs (t : Tree) : list (string * Tree) :=
  match t with Dir _ ds => ds end.

(** The directory at a path below the root of a tree. *)
Fixpoint subtree (p : Path) (t : Tree) : option Tree :=
  match p with
  | [] => Some t
  | n :: p' =>
      match PyDict.get n (tree_subdirs t) with
      | Some c => subtree p' c
      | None => None
      end
  end.

(** Replaces the value of the first pair with the given name. *)
Fixpoint alter_first (n : string) (f : Tree -> Tree) (ds : list (string * Tree))
    : list (string * Tree) :=
  match ds with
  | [] => []
  | (m, c) :: ds' =>
      if String.eqb n m then (m, f c) :: ds' else (m, c) :: alter_first n f ds'
  end.

(** Drops the first pair with the given name. *)
Fixpoint drop_first (n : string) (ds : list (string * Tree))
    : list (string * Tree) :=
  match ds with
  | [] => []
  | (m, c) :: ds' => if String.eqb n m then ds' else (m, c) :: drop_first n ds'
  end.

(** Applies [f] to the directory at a path. *)
Fixpoint update_at (p : Path) (f : Tree -> Tree) (t : Tree) : Tree :=
  match p with
  | [] => f t
  | n :: p' =>
      Dir (tree_files t) (alter_first n (update_at p' f) (tree_subdirs t))
  end.

(** [os.walk(top, topdown=False)]: the directories, children before their
    parent. *)
Fixpoint walk (top : Path) (t : Tree) : list Path :=
  match t with
  | Dir _ ds => flat_map (fun '(n, c) => walk (path_join top n) c) ds ++ [top]
  end.

(** Every file of a tree, by path. *)
Fixpoint all_files (top : Path) (t : Tree) : list Path :=
  match t with
  | Dir fs ds =>
      map (path_join top) fs
      ++ flat_map (fun '(n, c) => all_files (path_join top n) c) ds
  end.

(** [p] without the leading [pre], when it starts with it. *)
Fixpoint strip_prefix (pre p : Path) : option Path :=
  match pre, p with
  | [], _ => Some p
  | a :: pre', b :: p' => if String.eqb a b then strip_prefix pre' p' else None
  | _ :: _, [] => None
  end.

Section Cleanup.
Context {E : Env}.
Variable source_dir : Path.

(** [os.listdir(dirpath)]; [None] when it raises *)
Definition listdir (t : Tree) (dirpath : Path) : option (list string) :=
  match strip_prefix source_dir dirpath with
  | Some rel =>
      match subtree rel t with
      | Some (Dir fs ds) => Some (fs ++ PyDict.keys ds)
      | None => None
      end
  | None => None
  end.

(** Whether a path names a file of the tree. *)
Definition is_file (t : Tree) (p : Path) : bool :=
  match strip_prefix source_dir p with
  | Some rel =>
      match subtree (removelast rel) t with
      | Some (Dir fs _) =>
          bool_decide (rel ≠ []) && bool_decide (List.last rel "" ∈ fs)
      | None => false
      end
  | None => false
  end.

(** [os.remove(path)] of an existing file; [None] when it raises *)
Definition os_remove (t : Tree) (p : Path) : option Tree :=
  match strip_prefix source_dir p with
  | Some rel =>
      if is_file t p && remove_ok p then
        Some (update_at (removelast rel)
                (fun d =>
                   Dir (filter (fun f => f ≠ List.last rel "") (tree_files d))
                     (tree_subdirs d))
                t)
      else None
  | None => None
  end.

(** [os.rmdir(dirpath)]; [None] when it raises, as it does for a
    directory that is not empty.  An empty directory below the source
    directory leaves the listing of its parent.  The source directory
    itself, when it is empty, is removed like any other directory, and
    no tree is left: the result is [Some None]. *)
Definition os_rmdir (t : Tree) (dirpath : Path) : option (option Tree) :=
  match strip_prefix source_dir dirpath, listdir t dirpath with
  | Some rel, Some [] =>
      if rmdir_ok dirpath then
        match rel with
        | [] => Some None
        | _ :: _ =>
            Some (Some (update_at (removelast rel)
                          (fun d => Dir (tree_files d)
                                      (drop_first (List.last rel "")
                                         (tree_subdirs d)))
                          t))
        end
      else None
  | _, _ => None
  end.

(** The loops over [self.processed_files] and over the duplicate files:
    a file that still exists is removed, a failure is skipped. *)
Definition remove_files (paths : list Path) (t : Tree) : Tree :=
  fold_left
    (fun t file_path =>
       if is_file t file_path then default t (os_remove t file_path) else t)
    paths t.

(** The loop that removes the [.DS_Store] file of every directory. *)
Definition remove_ds_store (t : Tree) : Tree :=
  fold_left
    (fun t dirpath =>
       let ds_store := path_join dirpath ".DS_Store" in
       if is_file t ds_store then default t (os_remove t ds_store) else t)
    (walk source_dir t) t.

(** The state of the loop that removes empty directories: the tree
    below the source directory, whether the source directory is still
    there, and for every directory removed so far the tree it was removed
    from. *)
Record Sweep := {
  sweep_tree : Tree;
  sweep_root_exists : bool;
  sweep_removed : list (Tree * Path);
}.

(** One iteration of the loop: the source directory is skipped; of any
    other directory the listing is taken and, when that is empty, the
    directory is removed; an exception leaves the state as it is, as
    [os.listdir] raises once the source directory is gone. *)
Definition sweep_step (s : Sweep) (dirpath : Path) : Sweep :=
  if bool_decide (dirpath = source_dir) then s
  else if negb (sweep_root_exists s) then s
  else
    match listdir (sweep_tree s) dirpath with
    | Some [] =>
        match os_rmdir (sweep_tree s) dirpath with
        | Some (Some t') =>
            {| sweep_tree := t';
               sweep_root_exists := true;
               sweep_removed := sweep_removed s ++ [(sweep_tree s, dirpath)] |}
        | Some None =>
            {| sweep_tree := Dir [] [];
               sweep_root_exists := false;
               sweep_removed := sweep_removed s ++ [(sweep_tree s, dirpath)] |}
        | None => s
        end
    | _ => s
    end.

(** Every directory the sweep has removed was empty when it was removed,
    and none of them is the source directory. *)
Definition removed_ok (s : Sweep) : Prop :=
  ∀ t0 dirpath, (t0, dirpath) ∈ sweep_removed s ->
    listdir t0 dirpath = Some [] ∧ dirpath ≠ source_dir.

(** The loop that removes empty directories, bottom-up. *)
Definition remove_empty_dirs (t : Tree) : Sweep :=
  fold_left sweep_step (walk source_dir t)
    {| sweep_tree := t; sweep_root_exists := true; sweep_removed := [] |}.

(** [FileSorter.clean_source_directory]; [processed] is the set
    [self.processed_files] in iteration order. *)
Definition img_clean_source_directory (processed : list Path) (t : Tree)
    : Sweep :=
  remove_empty_dirs (remove_ds_store (remove_files processed t)).

(** [DocumentSorter.clean_source_directory] *)
Definition doc_clean_source_directory (processed : list Path)
    (dups : @PyDict.t (list Path)) (t : Tree) : Sweep :=
  let t1 := remove_files processed t in
  let t2 := remove_files (Doc.duplicate_files_of dups) t1 in
  remove_empty_dirs (remove_ds_store t2).
End Cleanup.

(** ** A small world for the examples

    ASCII text only; the digests are stand-ins of the right length (the
    hexadecimal form of the data, cut or filled with zeros); an image file
    holds its sixteen-digit average hash as its content; a PDF file holds
    one byte per page after a leading percent sign; every transfer and
    removal succeeds. *)

Definition ascii_lower_char (c : ascii) : ascii :=
  let n := nat_of_ascii c in
  if (65 <=? n) && (n <=? 90) then ascii_of_nat (n + 32) else c.

Fixpoint ascii_lower (s : string) : string :=
  match s with
  | EmptyString => EmptyString
  | String c s' => String (ascii_lower_char c) (ascii_lower s')
  end.

Definition ascii_isspace (c : ascii) : bool :=
  let n := nat_of_ascii c in
  ((9 <=? n) && (n <=? 13)) || ((28 <=? n) && (n <=? 32)).

Fixpoint take_pad (width : nat) (s : string) : string :=
  match width with
  | O => EmptyString
  | S w =>
      match s with
      | EmptyString => String "0" (take_pad w EmptyString)
      | String c s' => String c (take_pad w s')
      end
  end.

Definition fixed_hex (width : nat) (data : list byte) : string :=
  take_pad width (bytes_hex data).

Definition toy_average_hash (content : list byte) : option string :=
  let s := string_of_list_byte content in
  if (String.length s =? 16) && forallb is_hex_char (list_ascii_of_string s)
  then Some s else None.

Definition toy_pdf_pages (content : list byte) : option nat :=
  match content with
  | x25 :: pages => Some (length pages)
  | _ => None
  end.

Definition toy_int (text : string) : option Z :=
  match NilEmpty.uint_of_string text with
  | Some d => if String.eqb text "" then None else Some (Z.of_N (N.of_uint d))
  | None => None
  end.

Definition toy_env (files : list (Path * string)) : Env :=
  {| fs := fun p =>
       list_byte_of_string
       <$> (snd <$> List.find (fun '(q, _) => bool_decide (q = p)) files);
     str_lower := ascii_lower;
     char_isspace := ascii_isspace;
     md5_hexdigest := fixed_hex 32;
     sha256_hexdigest := fixed_hex 64;
     utf8_encode := fun s => Some (list_byte_of_string s);
     average_hash_str := toy_average_hash;
     chardet_detect := fun _ => Some "ascii";
     decode_with := fun _ raw => Decoded (string_of_list_byte raw);
     decode_utf8_ignore := fun raw => Some (string_of_list_byte raw);
     pdf_num_pages := toy_pdf_pages;
     Soup := string;
     soup_xml := fun content => Some content;
     soup_lxml := fun content => Some content;
     soup_title_text := fun _ => Some None;
     re_search_bookmarks := fun text => str_contains "bookmark" (ascii_lower text);
     soup_has_anchor_with := fun _ _ => Some false;
     py_int := toy_int;
     transfer := fun _ _ => Done;
     remove_ok := fun _ => true;
     rmdir_ok := fun _ => true |}.

(** ** Normalized text and hexadecimal text *)

(** The text without the characters [str.split()] treats as separators. *)
Fixpoint without_space {E : Env} (content : string) : string :=
  match content with
  | EmptyString => EmptyString
  | String c rest =>
      if char_isspace c then without_space rest
      else String c (without_space rest)
  end.

(** The two hexadecimal digits of a byte, read back. *)
Definition byte_of_hex (hi lo : ascii) : option byte :=
  Byte.of_N (N.of_nat (16 * hex_value hi + hex_value lo)).

(** ** The run of the image sorter over distinct paths *)

(** What holds of [hash_dict] and [duplicates] of the image sorter after
    the distinct files [seen]: a first-seen path has been seen and is
    recorded under its own signature; a listed duplicate has been seen, is
    listed under a signature that has a first-seen path, is itself the
    first-seen path of no signature, and its own signature is the one it is
    listed under or, for an image, one of the same length within the
    threshold. *)
Definition image_run_inv {E : Env} (t : Z) (seen : list Path)
    (st : Image.DupState) : Prop :=
  (∀ h p, PyDict.get h (Image.hash_dict st) = Some p ->
          p ∈ seen ∧ snd (Image.compute_file_hash p) = Some h)
  ∧ (∀ h l o, (h, l) ∈ Image.duplicates st -> o ∈ l ->
       o ∈ seen
       ∧ PyDict.mem h (Image.hash_dict st) = true
       ∧ (∀ h', PyDict.get h' (Image.hash_dict st) ≠ Some o)
       ∧ ∃ ho, snd (Image.compute_file_hash o) = Some ho
               ∧ (h = ho
                  ∨ (Image.is_image o = true
                     ∧ String.length h = String.length ho
                     ∧ (Z.of_nat (Image.char_diff ho h) <= t)%Z))).

(** ** What the sorters keep while they place files *)

(** A file is among the processed ones exactly when a transfer of it is
    logged as done. *)
Definition processed_are_done (st : Sorter) : Prop :=
  ∀ p, p ∈ processed_files st <-> ∃ tgt, (p, tgt, Done) ∈ transfers st.

(** While the image sorter places files: the current number is not below
    the number [first] it started with, the batch folders with a smaller
    number hold what they held in [d0], and no logged target lies in
    one of them. *)
Definition resumed_from (dest_base_dir : Path) (first : Z) (d0 : DirMap)
    (st : Sorter) : Prop :=
  (first <= current_folder_num st)%Z
  ∧ (∀ k, (k < first)%Z ->
          entries (dest st) (path_join dest_base_dir (batch_name k))
          = entries d0 (path_join dest_base_dir (batch_name k)))
  ∧ ∀ src tgt o, (src, tgt, o) ∈ transfers st ->
      ∃ n, (first <= n)%Z ∧ tgt = dest_base_dir ++ [batch_name n; name src].

(** ** Collecting the files ([get_all_files])

    Matching is that of pathlib on POSIX: case-sensitive, hidden names
    included.  A pattern ['*' + ext] whose [ext] holds no wildcard matches
    the names that end with [ext], files and directories alike. *)

(** [str.upper] on ASCII text, which the extensions are. *)
Definition ascii_upper_char (c : ascii) : ascii :=
  let n := nat_of_ascii c in
  if (97 <=? n) && (n <=? 122) then ascii_of_nat (n - 32) else c.

Fixpoint ascii_upper (s : string) : string :=
  match s with
  | EmptyString => EmptyString
  | String c s' => String (ascii_upper_char c) (ascii_upper s')
  end.

(** Text whose characters are all ASCII. *)
Definition is_ascii_text (s : string) : bool :=
  forallb (fun c => nat_of_ascii c <? 128) (list_ascii_of_string s).

(** [name.endswith(ending)] *)
Fixpoint ends_with (ending name : string) : bool :=
  String.eqb name ending
  || match name with
     | EmptyString => false
     | String _ rest => ends_with ending rest
     end.

(** [top.rglob('*' + ext)]: the entries of [top] and of every directory
    below it whose name ends with [ext].  The order is one the file
    system may give, a directory's own entries before those of its
    sub-directories; the properties proved of the result do not depend
    on it. *)
Fixpoint rglob_ending (ext : string) (top : Path) (t : Tree) : list Path :=
  match t with
  | Dir fs ds =>
      map (path_join top) (filter (fun n => ends_with ext n = true)
                             (fs ++ PyDict.keys ds))
      ++ flat_map (fun '(n, c) => rglob_ending ext (path_join top n) c) ds
  end.

(** [DocumentSorter.get_all_files]; [extensions] is the set
    [self.document_extensions] in its iteration order. *)
Definition doc_get_all_files (extensions : list string) (source_dir : Path)
    (t : Tree) : list Path :=
  flat_map
    (fun ext =>
       rglob_ending ext source_dir t
       ++ rglob_ending (ascii_upper ext) source_dir t)
    extensions.

(** ** Files of the same name *)

(** While files that all have the name [nm] are placed into a fresh
    destination: the current number is 1, no directory deeper than
    [depth] holds another name, and every logged target is
    [<dest>/<middle>/batch_001/<nm>], where [middle] is the category of
    the source in the document sorter and nothing in the image sorter. *)
Definition one_name (dest_base_dir : Path) (nm : string) (depth : nat)
    (middle : Path -> list string) (st : Sorter) : Prop :=
  current_folder_num st = 1%Z
  ∧ (∀ p, depth < length p -> entries (dest st) p ⊆ {[nm]})
  ∧ ∀ src tgt o, (src, tgt, o) ∈ transfers st ->
      tgt = dest_base_dir ++ middle src ++ [batch_name 1; nm].

(** ** Large files for the examples *)

(** The small world with the content of its files given as bytes. *)
Definition toy_env_bytes (files : list (Path * list byte)) : Env :=
  let E := toy_env [] in
  {| fs := fun p =>
       snd <$> List.find (fun '(q, _) => bool_decide (q = p)) files;
     str_lower := @str_lower E;
     char_isspace := @char_isspace E;
     md5_hexdigest := @md5_hexdigest E;
     sha256_hexdigest := @sha256_hexdigest E;
     utf8_encode := @utf8_encode E;
     average_hash_str := @average_hash_str E;
     chardet_detect := @chardet_detect E;
     decode_with := @decode_with E;
     decode_utf8_ignore := @decode_utf8_ignore E;
     pdf_num_pages := @pdf_num_pages E;
     Soup := @Soup E;
     soup_xml := @soup_xml E;
     soup_lxml := @soup_lxml E;
     soup_title_text := @soup_title_text E;
     re_search_bookmarks := @re_search_bookmarks E;
     soup_has_anchor_with := @soup_has_anchor_with E;
     py_int := @py_int E;
     transfer := @transfer E;
     remove_ok := @remove_ok E;
     rmdir_ok := @rmdir_ok E |}.

(** A file of [n] zero bytes, one byte [middle] and [n] zero bytes. *)
Definition large_file (n : nat) (middle : byte) : list byte :=
  (repeat x00 n ++ [middle]) ++ repeat x00 n.

(** * Properties *)

(** ** Dictionaries *)

Module PyDictFacts.
Import PyDict.
Section Facts.
Context {V : Type}.
Implicit Types (d : @t V) (k : string) (v : V).

Lemma get_set_eq k v d : get k (set k v d) = Some v.
Proof.
  induction d as [|[k' v'] d IH]; simpl.
  - by rewrite String.eqb_refl.
  - destruct (String.eqb k k') eqn:Hk; simpl; rewrite Hk; [done | exact IH].
Qed.

Lemma get_set_ne k k' v d : k ≠ k' -> get k' (set k v d) = get k' d.
Proof.
  intros Hne. induction d as [|[k0 v0] d IH]; simpl.
  - destruct (String.eqb_spec k' k); congruence.
  - destruct (String.eqb_spec k k0) as [->|Hk0]; simpl.
    + destruct (String.eqb_spec k' k0); congruence.
    + destruct (String.eqb_spec k' k0); [done | exact IH].
Qed.

Lemma get_set k k' v d :
  get k' (set k v d) = if decide (k = k') then Some v else get k' d.
Proof.
  destruct (decide (k = k')) as [->|Hne];
    [apply get_set_eq | by apply get_set_ne].
Qed.

Lemma mem_true k d : mem k d = true <-> is_Some (get k d).
Proof.
  unfold mem. destruct (get k d); split; intros H; try done;
    try (by eexists); by destruct H.
Qed.

Lemma mem_keys k d : mem k d = true <-> k ∈ keys d.
Proof.
  unfold mem, keys. induction d as [|[k' v'] d IH]; simpl.
  - split; [done | by intros ?%elem_of_nil].
  - rewrite elem_of_cons. destruct (String.eqb_spec k k') as [->|Hne].
    + split; auto.
    + rewrite IH. split; [auto | by intros [?|?]].
Qed.

(** Assigning to a key never changes which key comes first. *)
Lemma set_head k v k0 v0 d :
  ∃ v1 d1, set k v ((k0, v0) :: d) = (k0, v1) :: d1.
Proof.
  simpl. destruct (String.eqb k k0); eauto.
Qed.
End Facts.

Lemma get_setdefault_append {A} k k' (x : A) (d : @t (list A)) :
  get k' (setdefault_append k x d)
  = if decide (k = k') then Some (default [] (get k d) ++ [x]) else get k' d.
Proof.
  unfold setdefault_append.
  destruct (get k d) as [l|] eqn:Hget; rewrite get_set;
    by destruct (decide (k = k')).
Qed.
End PyDictFacts.

(** ** The image sorter: duplicate groups *)

Module ImageFacts.
Import Image.
Section Facts.
Context {E : Env}.
Implicit Types (st : DupState) (z x : Path) (h : string) (t : Z).

Lemma compute_file_hash_fst z : fst (compute_file_hash z) = z.
Proof. unfold compute_file_hash. by destruct (is_image z). Qed.

Lemma compute_file_hash_eta z :
  compute_file_hash z = (z, snd (compute_file_hash z)).
Proof.
  rewrite <- (compute_file_hash_fst z) at 2. by destruct (compute_file_hash z).
Qed.

Lemma group_of_member st h x : x ∈ group_of st h -> member st h x.
Proof.
  unfold group_of, member.
  destruct (PyDict.get h (hash_dict st)) as [v|]; [|by intros ?%elem_of_nil].
  intros [->|Hx]%elem_of_cons; [by left | right].
  destruct (PyDict.get h (duplicates st)) as [l|]; simpl in Hx.
  - eauto.
  - by apply elem_of_nil in Hx.
Qed.

Lemma member_group_of st h x :
  PyDict.mem h (hash_dict st) = true -> member st h x -> x ∈ group_of st h.
Proof.
  intros [v Hv]%PyDictFacts.mem_true [Hx|(l & Hl & Hx)]; unfold group_of.
  - rewrite Hx. apply elem_of_cons. by left.
  - rewrite Hv, Hl. apply elem_of_cons. by right.
Qed.

(** Whatever a step records was recorded before, or is the file of the
    step under the signature chosen for it. *)
Lemma dup_step_member t st z h x :
  member (dup_step t st z) h x ->
  member st h x ∨ (x = z ∧ recorded_under t st z h).
Proof.
  unfold dup_step, recorded_under. rewrite (compute_file_hash_eta z).
  destruct (snd (compute_file_hash z)) as [hz|]; [|by left].
  destruct (is_image z).
  - destruct (find_similar (hash_dict st) hz t) as [k|] eqn:Hsim.
    + intros [Hx|(l & Hl & Hx)]; simpl in *; [left; by left|].
      rewrite PyDictFacts.get_setdefault_append in Hl.
      destruct (decide (k = h)) as [->|Hne].
      * injection Hl as <-. apply elem_of_app in Hx as [Hx|Hx].
        -- left. right.
           destruct (PyDict.get h (duplicates st)) as [l0|]; simpl in Hx;
             [eauto | by apply elem_of_nil in Hx].
        -- apply list_elem_of_singleton in Hx as ->. right. naive_solver.
      * left. right. eauto.
    + intros [Hx|Hx]; simpl in *; [|left; by right].
      rewrite PyDictFacts.get_set in Hx.
      destruct (decide (hz = h)) as [->|Hne].
      * injection Hx as <-. right. naive_solver.
      * left. by left.
  - destruct (PyDict.mem hz (hash_dict st)) eqn:Hmem.
    + intros [Hx|(l & Hl & Hx)]; simpl in *; [left; by left|].
      rewrite PyDictFacts.get_setdefault_append in Hl.
      destruct (decide (hz = h)) as [->|Hne].
      * injection Hl as <-. apply elem_of_app in Hx as [Hx|Hx].
        -- left. right.
           destruct (PyDict.get h (duplicates st)) as [l0|]; simpl in Hx;
             [eauto | by apply elem_of_nil in Hx].
        -- apply list_elem_of_singleton in Hx as ->. right. naive_solver.
      * left. right. eauto.
    + intros [Hx|Hx]; simpl in *; [|left; by right].
      rewrite PyDictFacts.get_set in Hx.
      destruct (decide (hz = h)) as [->|Hne].
      * injection Hx as <-. right. naive_solver.
      * left. by left.
Qed.

(** An invariant of the members is kept by the whole run when every step
    records its file in accordance with it. *)
Lemma dup_run_member_ind (P : string -> Path -> Prop) t :
  (∀ st z h, recorded_under t st z h ->
             (∀ h' x', member st h' x' -> P h' x') -> P h z) ->
  ∀ files st,
    (∀ h x, member st h x -> P h x) ->
    ∀ h x, member (fold_left (dup_step t) files st) h x -> P h x.
Proof.
  intros Hrec files. induction files as [|z files IH]; intros st Hst h x; simpl.
  - apply Hst.
  - apply IH. intros h' x' [Hold|[-> Hnew]]%dup_step_member.
    + by apply Hst.
    + by eapply Hrec.
Qed.

Lemma member_init h x : ¬ member dup_init h x.
Proof. by intros [Hx|(l & Hl & _)]. Qed.

Lemma find_similar_Some d hz t k :
  find_similar d hz t = Some k ->
  k ∈ PyDict.keys d ∧ String.length k = String.length hz
  ∧ (Z.of_nat (char_diff hz k) <= t)%Z.
Proof.
  unfold find_similar. intros [Hin Hp]%find_some.
  apply andb_prop in Hp as [Hlen Hdiff].
  apply Nat.eqb_eq in Hlen. apply Z.leb_le in Hdiff.
  split; [by apply list_elem_of_In | done].
Qed.
End Facts.
End ImageFacts.

(** ** The small world *)

Lemma take_pad_length width s : String.length (take_pad width s) = width.
Proof.
  revert s. induction width as [|w IH]; intros s; simpl; [done|].
  destruct s; simpl; by rewrite IH.
Qed.

Lemma toy_average_hash_length content h :
  toy_average_hash content = Some h -> String.length h = 16.
Proof.
  unfold toy_average_hash.
  destruct (String.length (string_of_list_byte content) =? 16) eqn:Hlen;
    simpl; [|done].
  destruct (forallb _ _); [|done].
  intros [= <-]. by apply Nat.eqb_eq.
Qed.

(** ** Groups of the image sorter hold files of one kind *)

Section ImageKinds.
Context {E : Env}.
Import Image ImageFacts.

Hypothesis average_hash_16 :
  ∀ content h, average_hash_str content = Some h -> String.length h = 16.
Hypothesis md5_32 : ∀ data, String.length (md5_hexdigest data) = 32.

Lemma hash_length z hz :
  snd (compute_file_hash z) = Some hz ->
  String.length hz = if is_image z then 16 else 32.
Proof.
  unfold compute_file_hash. destruct (is_image z); simpl.
  - destruct (fs z); [apply average_hash_16 | done].
  - destruct (fs z); [|done]. intros [= <-]. apply md5_32.
Qed.

Lemma member_length files t h x :
  member (dup_run files t) h x ->
  String.length h = if is_image x then 16 else 32.
Proof.
  unfold dup_run.
  apply (dup_run_member_ind (fun h x =>
           String.length h = if is_image x then 16 else 32)).
  - intros st z k (hz & Hhash & Hk) _. apply hash_length in Hhash.
    destruct (is_image z).
    + destruct Hk as [Hsim|[_ ->]]; [|done].
      apply find_similar_Some in Hsim as (_ & -> & _). done.
    + by subst k.
  - intros h' x' Hm. by apply member_init in Hm.
Qed.
End ImageKinds.

(** C10. In the image sorter no duplicate group holds both an image and a
    file that is not an image: with perceptual signatures of 16 characters
    and MD5 signatures of 32, any two members of the group of a signature
    are of the same kind. *)
Theorem image_groups_homogeneous {E : Env} :
  (∀ content h, average_hash_str content = Some h -> String.length h = 16) ->
  (∀ data, String.length (md5_hexdigest data) = 32) ->
  ∀ files t h x y,
    x ∈ Image.group_of (Image.dup_run files t) h ->
    y ∈ Image.group_of (Image.dup_run files t) h ->
    Image.is_image x = Image.is_image y.
Proof.
  intros H16 H32 files t h x y Hx Hy.
  apply ImageFacts.group_of_member in Hx, Hy.
  apply (member_length H16 H32) in Hx, Hy.
  destruct (Image.is_image x), (Image.is_image y); congruence.
Qed.

Lemma image_groups_homogeneous_witness :
  let E := toy_env [(["src"; "a.jpg"], "00ff00ff00ff00ff");
                    (["src"; "b.PNG"], "00ff00ff00ff00ff");
                    (["src"; "c.txt"], "notes"); (["src"; "d.mp4"], "notes")] in
  let files := [["src"; "a.jpg"]; ["src"; "c.txt"]; ["src"; "b.PNG"];
                ["src"; "d.mp4"]] in
  (∀ content h, average_hash_str content = Some h -> String.length h = 16)
  ∧ (∀ data, String.length (md5_hexdigest data) = 32)
  ∧ ["src"; "a.jpg"] ∈ Image.group_of (Image.dup_run files 0) "00ff00ff00ff00ff"
  ∧ ["src"; "b.PNG"] ∈ Image.group_of (Image.dup_run files 0) "00ff00ff00ff00ff"
  ∧ Image.is_image ["src"; "a.jpg"] = Image.is_image ["src"; "b.PNG"].
Proof.
  intros E files.
  assert (H16 : ∀ content h,
             average_hash_str content = Some h -> String.length h = 16)
    by exact toy_average_hash_length.
  assert (H32 : ∀ data, String.length (md5_hexdigest data) = 32)
    by (intros data; apply take_pad_length).
  assert (Ha : ["src"; "a.jpg"]
               ∈ Image.group_of (Image.dup_run files 0) "00ff00ff00ff00ff")
    by (vm_compute; apply elem_of_cons; by left).
  assert (Hb : ["src"; "b.PNG"]
               ∈ Image.group_of (Image.dup_run files 0) "00ff00ff00ff00ff")
    by (vm_compute; apply elem_of_cons; right; apply elem_of_cons; by left).
  split; [exact H16|]. split; [exact H32|].
  split; [exact Ha|]. split; [exact Hb|].
  exact (image_groups_homogeneous H16 H32 files 0 "00ff00ff00ff00ff"
           ["src"; "a.jpg"] ["src"; "b.PNG"] Ha Hb).
Defined.

(** ** Raising the threshold of the image sorter *)

Section Threshold.
Context {E : Env}.
Import Image ImageFacts.

Lemma char_diff_refl h : char_diff h h = 0.
Proof. induction h as [|c h IH]; simpl; [done|]. by rewrite Ascii.eqb_refl. Qed.

(** Below zero no threshold finds anything similar. *)
Lemma find_similar_neg d hz t : (t < 0)%Z -> find_similar d hz t = None.
Proof.
  intros Ht. unfold find_similar.
  induction (PyDict.keys d) as [|k ks IH]; simpl; [done|].
  destruct (Z.leb_spec (Z.of_nat (char_diff hz k)) t); [lia|].
  by rewrite andb_false_r.
Qed.

Lemma dup_step_neg t t' st z :
  (t < 0)%Z -> (t' < 0)%Z -> dup_step t st z = dup_step t' st z.
Proof.
  intros Ht Ht'. unfold dup_step.
  destruct (compute_file_hash z) as [p [hz|]]; [|done].
  by rewrite !find_similar_neg.
Qed.

Lemma dup_run_neg t t' files st :
  (t < 0)%Z -> (t' < 0)%Z ->
  fold_left (dup_step t) files st = fold_left (dup_step t') files st.
Proof.
  intros Ht Ht'. revert st.
  induction files as [|z files IH]; intros st; simpl; [done|].
  by rewrite (dup_step_neg t t'), IH.
Qed.

(** The first key of [hash_dict] is found whenever it is close enough. *)
Lemma find_similar_head h0 v d hz t :
  String.length h0 = String.length hz ->
  (Z.of_nat (char_diff hz h0) <= t)%Z ->
  find_similar ((h0, v) :: d) hz t = Some h0.
Proof.
  intros Hlen Hdiff. unfold find_similar. simpl.
  rewrite Hlen, Nat.eqb_refl. simpl.
  by destruct (Z.leb_spec (Z.of_nat (char_diff hz h0)) t); [|lia].
Qed.

Lemma dup_step_head t st z h0 v d :
  hash_dict st = (h0, v) :: d ->
  ∃ v1 d1, hash_dict (dup_step t st z) = (h0, v1) :: d1.
Proof.
  intros Hd. unfold dup_step.
  destruct (compute_file_hash z) as [p [hz|]]; [|eauto].
  destruct (is_image z).
  - destruct (find_similar _ _ _); simpl; [eauto|].
    rewrite Hd. apply PyDictFacts.set_head.
  - destruct (PyDict.mem _ _); simpl; [eauto|].
    rewrite Hd. apply PyDictFacts.set_head.
Qed.

(** A file whose signature is looked up successfully joins the list of
    duplicates of the signature found. *)
Lemma dup_step_appends t st z hz k :
  snd (compute_file_hash z) = Some hz ->
  (if is_image z then find_similar (hash_dict st) hz t = Some k
   else k = hz ∧ PyDict.mem hz (hash_dict st) = true) ->
  member (dup_step t st z) k z.
Proof.
  intros Hhash Hk. unfold dup_step.
  rewrite (compute_file_hash_eta z), Hhash.
  assert (Happ : member {| hash_dict := hash_dict st;
                           duplicates := PyDict.setdefault_append k z
                                           (duplicates st) |} k z).
  { right. simpl. rewrite PyDictFacts.get_setdefault_append.
    destruct (decide (k = k)); [|done].
    eexists. split; [done|]. apply elem_of_app. right. by apply list_elem_of_singleton. }
  destruct (is_image z).
  - by rewrite Hk.
  - destruct Hk as [-> ->]. done.
Qed.

(** A step takes nothing away from the group of the first key, as long as
    the threshold is not negative. *)
Lemma dup_step_keeps t st z h0 v d x :
  (0 <= t)%Z ->
  hash_dict st = (h0, v) :: d ->
  member st h0 x -> member (dup_step t st z) h0 x.
Proof.
  intros Ht Hd Hx. unfold dup_step.
  destruct (compute_file_hash z) as [p [hz|]]; [|done].
  assert (Hkeep_app : ∀ k, member {| hash_dict := hash_dict st;
                             duplicates := PyDict.setdefault_append k p
                                             (duplicates st) |} h0 x).
  { intros k. destruct Hx as [Hx|(l & Hl & Hx)]; [by left|right]. simpl.
    rewrite PyDictFacts.get_setdefault_append.
    destruct (decide (k = h0)) as [->|Hne]; [|eauto].
    rewrite Hl. simpl. eexists. split; [done|]. apply elem_of_app. by left. }
  assert (Hkeep_set : hz ≠ h0 ->
            member {| hash_dict := PyDict.set hz p (hash_dict st);
                      duplicates := duplicates st |} h0 x).
  { intros Hne. destruct Hx as [Hx|Hx]; [left|by right]. simpl.
    by rewrite PyDictFacts.get_set_ne. }
  destruct (is_image z).
  - destruct (find_similar (hash_dict st) hz t) as [k|] eqn:Hsim; [done|].
    apply Hkeep_set. intros ->.
    rewrite Hd, find_similar_head in Hsim; [done|done|].
    rewrite char_diff_refl. lia.
  - destruct (PyDict.mem hz (hash_dict st)) eqn:Hmem; [done|].
    apply Hkeep_set. intros ->.
    rewrite Hd in Hmem. unfold PyDict.mem in Hmem. simpl in Hmem.
    by rewrite String.eqb_refl in Hmem.
Qed.

Variables (f0 : Path) (h0 : string) (t t' : Z).
Hypothesis Hle : (t <= t')%Z.
Hypothesis Hpos : (0 <= t')%Z.
Hypothesis Hh0 : snd (compute_file_hash f0) = Some h0.

Lemma coupled_step st st' z :
  coupled f0 h0 st st' ->
  coupled f0 h0 (dup_step t st z) (dup_step t' st' z).
Proof.
  intros ((v & d & Hd) & (v' & d' & Hd') & Hsub & Hown).
  split; [by eapply dup_step_head|]. split; [by eapply dup_step_head|].
  split.
  - intros x [Hold|[-> (hz & Hhash & Hrec)]]%dup_step_member.
    + eapply dup_step_keeps; eauto.
    + apply (dup_step_appends _ _ _ hz); [done|].
      destruct (is_image z).
      * rewrite Hd'. destruct Hrec as [Hsim|[_ ->]].
        -- apply find_similar_Some in Hsim as (_ & Hlen & Hdiff).
           apply find_similar_head; [done|lia].
        -- apply find_similar_head; [done|]. rewrite char_diff_refl. lia.
      * subst hz. split; [done|]. rewrite Hd'.
        unfold PyDict.mem. simpl. by rewrite String.eqb_refl.
  - intros h [Hold|[<- (hz & Hhash & Hrec)]]%dup_step_member; [by apply Hown|].
    rewrite Hh0 in Hhash. injection Hhash as <-.
    destruct (is_image f0); [|done].
    destruct Hrec as [Hsim|[_ ->]]; [|done].
    destruct (Z.lt_ge_cases t 0) as [Hneg|Hnn].
    + by rewrite find_similar_neg in Hsim.
    + rewrite Hd, find_similar_head in Hsim; [congruence|done|].
      rewrite char_diff_refl. lia.
Qed.

Lemma coupled_run files st st' :
  coupled f0 h0 st st' ->
  coupled f0 h0 (fold_left (dup_step t) files st)
    (fold_left (dup_step t') files st').
Proof.
  revert st st'. induction files as [|z files IH]; intros st st' H; simpl;
    [done|]. by apply IH, coupled_step.
Qed.
End Threshold.

Section ThresholdMain.
Context {E : Env}.
Import Image ImageFacts.

Lemma member_has_hash files t h x :
  member (dup_run files t) h x -> ∃ hx, snd (compute_file_hash x) = Some hx.
Proof.
  unfold dup_run.
  apply (dup_run_member_ind (fun _ x =>
           ∃ hx, snd (compute_file_hash x) = Some hx)).
  - intros st z k (hz & Hhash & _) _. eauto.
  - intros h' x' Hm. by apply member_init in Hm.
Qed.

Lemma dup_step_first t f0 h0 :
  snd (compute_file_hash f0) = Some h0 ->
  dup_step t dup_init f0 = {| hash_dict := [(h0, f0)]; duplicates := [] |}.
Proof.
  intros Hh0. unfold dup_step.
  rewrite (compute_file_hash_eta f0), Hh0. by destruct (is_image f0).
Qed.

Lemma coupled_first f0 h0 :
  coupled f0 h0 {| hash_dict := [(h0, f0)]; duplicates := [] |}
    {| hash_dict := [(h0, f0)]; duplicates := [] |}.
Proof.
  split; [by eauto|]. split; [by eauto|]. split; [done|].
  intros h [Hm|(l & Hl & _)]; simpl in *; [|done].
  by destruct (String.eqb_spec h h0).
Qed.
End ThresholdMain.

(** C4, as the code has it.  Raising the threshold never takes a file out of
    the group of the first file of the list: whatever is grouped with the
    first file at a threshold is grouped with it at every greater one.
    (Groups opened by later files can be split.) *)
Theorem first_group_monotone {E : Env} (f0 : Path) (rest : list Path)
    (t t' : Z) (x : Path) :
  (t <= t')%Z ->
  Image.same_group (Image.dup_run (f0 :: rest) t) f0 x ->
  Image.same_group (Image.dup_run (f0 :: rest) t') f0 x.
Proof.
  intros Hle Hsame.
  destruct (Z.lt_ge_cases t' 0) as [Hneg|Hpos].
  { unfold Image.dup_run in *. by rewrite <- (dup_run_neg t t') by lia. }
  destruct Hsame as (h & Hf0 & Hx).
  apply ImageFacts.group_of_member in Hf0, Hx.
  destruct (member_has_hash _ _ _ _ Hf0) as [h0 Hh0].
  unfold Image.dup_run in *. simpl in Hf0, Hx |- *.
  rewrite (dup_step_first t _ _ Hh0) in Hf0, Hx.
  rewrite (dup_step_first t' _ _ Hh0).
  destruct (coupled_run f0 h0 t t' Hle Hpos Hh0 rest _ _
              (coupled_first f0 h0))
    as (_ & (v' & d' & Hd') & Hsub & Hown).
  assert (h = h0) as -> by by apply Hown.
  exists h0.
  assert (Hkey : PyDict.mem h0 (Image.hash_dict
            (fold_left (Image.dup_step t') rest
               {| Image.hash_dict := [(h0, f0)]; Image.duplicates := [] |}))
          = true).
  { rewrite Hd'. unfold PyDict.mem. simpl. by rewrite String.eqb_refl. }
  split; apply ImageFacts.member_group_of; auto.
Qed.

Lemma first_group_monotone_witness :
  let E := toy_env [(["src"; "a.jpg"], "0000000000000000");
                    (["src"; "b.jpg"], "1000000000000000");
                    (["src"; "c.jpg"], "0000000000000011")] in
  let a := ["src"; "a.jpg"] in
  let rest := [["src"; "b.jpg"]; ["src"; "c.jpg"]] in
  (1 <= 2)%Z
  ∧ Image.same_group (Image.dup_run (a :: rest) 1) a ["src"; "b.jpg"]
  ∧ Image.same_group (Image.dup_run (a :: rest) 2) a ["src"; "b.jpg"].
Proof.
  intros E a rest.
  assert (Hle : (1 <= 2)%Z) by lia.
  assert (Hsame : Image.same_group (Image.dup_run (a :: rest) 1) a
                    ["src"; "b.jpg"]).
  { exists "0000000000000000". vm_compute.
    split; [apply elem_of_cons; by left|].
    apply elem_of_cons; right. apply elem_of_cons; by left. }
  split; [exact Hle|]. split; [exact Hsame|].
  exact (first_group_monotone a rest 1 2 ["src"; "b.jpg"] Hle Hsame).
Defined.

(** C4, as stated, fails: at threshold 1 the second and the third of these
    images are grouped together (they differ in one digit), at threshold 2
    the second joins the first, and the third, three digits away from the
    first, opens a group of its own. *)
Lemma threshold_coarsening_counterexample :
  let E := toy_env [(["src"; "a.jpg"], "0000000000000000");
                    (["src"; "b.jpg"], "1100000000000000");
                    (["src"; "c.jpg"], "1110000000000000")] in
  let files := [["src"; "a.jpg"]; ["src"; "b.jpg"]; ["src"; "c.jpg"]] in
  (1 <= 2)%Z
  ∧ Image.same_group (Image.dup_run files 1) ["src"; "b.jpg"] ["src"; "c.jpg"]
  ∧ ¬ Image.same_group (Image.dup_run files 2) ["src"; "b.jpg"] ["src"; "c.jpg"].
Proof.
  intros E files. split; [lia|]. split.
  - exists "1100000000000000". vm_compute.
    split; [apply elem_of_cons; by left|].
    apply elem_of_cons; right. apply elem_of_cons; by left.
  - intros (h & Hb & Hc). unfold Image.group_of in Hb, Hc.
    set (st := Image.dup_run files 2) in *. vm_compute in st. subst st.
    simpl in Hb, Hc.
    destruct (String.eqb h "0000000000000000").
    + apply list_elem_of_In in Hc. simpl in Hc. intuition discriminate.
    + destruct (String.eqb h "1110000000000000").
      * apply list_elem_of_In in Hb. simpl in Hb. intuition discriminate.
      * by apply elem_of_nil in Hb.
Qed.

(** ** Similar images: digits against bits *)

Section Digits.
Import Image.

Lemma all_ascii_complete c : In c all_ascii.
Proof.
  unfold all_ascii. rewrite <- (ascii_nat_embedding c).
  apply in_map, in_seq. pose proof (nat_ascii_bounded c). lia.
Qed.

(** Two distinct hexadecimal digits differ in at least one bit. *)
Lemma digit_le_bits c1 c2 :
  is_hex_char c1 = true -> is_hex_char c2 = true ->
  (if Ascii.eqb c1 c2 then 0 else 1) <= hamming (nibble_bits c1) (nibble_bits c2).
Proof.
  assert (Hall : forallb (fun c1 => forallb (fun c2 =>
             implb (is_hex_char c1 && is_hex_char c2)
               ((if Ascii.eqb c1 c2 then 0 else 1)
                <=? hamming (nibble_bits c1) (nibble_bits c2)))
             all_ascii) all_ascii = true) by (vm_compute; reflexivity).
  intros H1 H2. rewrite forallb_forall in Hall.
  specialize (Hall c1 (all_ascii_complete c1)).
  rewrite forallb_forall in Hall.
  specialize (Hall c2 (all_ascii_complete c2)).
  rewrite H1, H2 in Hall. simpl in Hall. by apply Nat.leb_le.
Qed.

Lemma hamming_refl xs : hamming xs xs = 0.
Proof. induction xs as [|x xs IH]; simpl; [done|]. by rewrite Bool.eqb_reflx. Qed.

(** Two digits differ in at most four bits, and in none when equal. *)
Lemma bits_le_digit c1 c2 :
  hamming (nibble_bits c1) (nibble_bits c2)
  <= 4 * (if Ascii.eqb c1 c2 then 0 else 1).
Proof.
  destruct (Ascii.eqb_spec c1 c2) as [->|_].
  - by rewrite hamming_refl.
  - unfold nibble_bits. simpl. repeat destruct (Bool.eqb _ _); lia.
Qed.

Lemma hamming_nibble c1 c2 xs ys :
  hamming (nibble_bits c1 ++ xs) (nibble_bits c2 ++ ys)
  = hamming (nibble_bits c1) (nibble_bits c2) + hamming xs ys.
Proof. unfold nibble_bits. simpl. lia. Qed.

Lemma char_diff_le_hamming a b :
  is_hex a = true -> is_hex b = true -> char_diff a b <= hamming_distance a b.
Proof.
  unfold is_hex, hamming_distance. revert b.
  induction a as [|c1 a IH]; intros [|c2 b];
    cbn [char_diff hash_bits list_ascii_of_string forallb]; try lia.
  intros [H1 Ha]%andb_prop [H2 Hb]%andb_prop.
  rewrite hamming_nibble.
  pose proof (digit_le_bits c1 c2 H1 H2). pose proof (IH b Ha Hb). lia.
Qed.

Lemma hamming_le_char_diff a b : hamming_distance a b <= 4 * char_diff a b.
Proof.
  unfold hamming_distance. revert b.
  induction a as [|c1 a IH]; intros [|c2 b]; cbn [char_diff hash_bits].
  - simpl. lia.
  - simpl. lia.
  - destruct (nibble_bits c1 ++ hash_bits a); simpl; lia.
  - rewrite hamming_nibble.
    pose proof (bits_le_digit c1 c2). pose proof (IH b). lia.
Qed.
End Digits.

Section ImagePair.
Context {E : Env}.
Import Image ImageFacts.

Variables (a b : Path) (ha hb : string).
Hypothesis Ha : snd (compute_file_hash a) = Some ha.
Hypothesis Hb : snd (compute_file_hash b) = Some hb.
Hypothesis Himg_b : is_image b = true.
Hypothesis Hlen : String.length ha = String.length hb.

(** What [find_duplicates] returns for a pair of files whose second is an
    image. *)
Lemma find_duplicates_pair t :
  find_duplicates [a; b] t
  = if (Z.of_nat (char_diff hb ha) <=? t)%Z then [(ha, [b])] else [].
Proof.
  unfold find_duplicates, dup_run. simpl.
  rewrite (dup_step_first t a ha Ha). unfold dup_step.
  rewrite (compute_file_hash_eta b), Hb, Himg_b.
  unfold find_similar. simpl. rewrite Hlen, Nat.eqb_refl. simpl.
  by destruct (Z.of_nat (char_diff hb ha) <=? t)%Z.
Qed.

Lemma pair_treated_iff t :
  treated_as_duplicate (find_duplicates [a; b] t) b
  <-> (Z.of_nat (char_diff hb ha) <= t)%Z.
Proof.
  rewrite find_duplicates_pair.
  destruct (Z.leb_spec (Z.of_nat (char_diff hb ha)) t) as [Hle|Hgt].
  - split; [done|]. intros _. exists ha, [b]. simpl.
    rewrite String.eqb_refl. split; [done|]. apply elem_of_cons. by left.
  - split; [|lia]. by intros (h & l & Hget & _).
Qed.
End ImagePair.

(** C6, as the code has it.  For a pair of image files with signatures of
    equal length, the second is treated as a duplicate of the first exactly
    when the number of hexadecimal digits in which the signatures differ is
    at most the threshold.  For signatures made of hexadecimal digits a
    Hamming distance within the threshold is enough for that, and two
    hashes that differ in exactly one bit are duplicates at threshold 1 and
    distinct at threshold 0. *)
Theorem image_pair_duplicates {E : Env} (a b : Path) (ha hb : string) :
  Image.is_image a = true -> Image.is_image b = true ->
  snd (Image.compute_file_hash a) = Some ha ->
  snd (Image.compute_file_hash b) = Some hb ->
  String.length ha = String.length hb ->
  (∀ t, Image.treated_as_duplicate (Image.find_duplicates [a; b] t) b
        <-> (Z.of_nat (Image.char_diff hb ha) <= t)%Z)
  ∧ (is_hex ha = true -> is_hex hb = true ->
     (∀ t, (Z.of_nat (hamming_distance hb ha) <= t)%Z ->
           Image.treated_as_duplicate (Image.find_duplicates [a; b] t) b)
     ∧ (hamming_distance hb ha = 1 ->
        Image.treated_as_duplicate (Image.find_duplicates [a; b] 1) b
        ∧ ¬ Image.treated_as_duplicate (Image.find_duplicates [a; b] 0) b)).
Proof.
  intros _ Himg_b Ha Hb Hlen.
  pose proof (pair_treated_iff a b ha hb Ha Hb Himg_b Hlen) as Hiff.
  split; [exact Hiff|]. intros Hxa Hxb.
  pose proof (char_diff_le_hamming hb ha Hxb Hxa) as Hlow.
  pose proof (hamming_le_char_diff hb ha) as Hhigh.
  split.
  - intros t Ht. apply Hiff. lia.
  - intros Hone. rewrite !Hiff. lia.
Qed.

Lemma image_pair_duplicates_witness :
  let E := toy_env [(["src"; "a.jpg"], "00ff00ff00ff00ff");
                    (["src"; "b.jpeg"], "00ff00ff00ff00fe")] in
  let a := ["src"; "a.jpg"] in
  let b := ["src"; "b.jpeg"] in
  Image.is_image a = true ∧ Image.is_image b = true
  ∧ snd (Image.compute_file_hash a) = Some "00ff00ff00ff00ff"
  ∧ snd (Image.compute_file_hash b) = Some "00ff00ff00ff00fe"
  ∧ String.length "00ff00ff00ff00ff" = String.length "00ff00ff00ff00fe"
  ∧ is_hex "00ff00ff00ff00ff" = true ∧ is_hex "00ff00ff00ff00fe" = true
  ∧ hamming_distance "00ff00ff00ff00fe" "00ff00ff00ff00ff" = 1
  ∧ Image.treated_as_duplicate (Image.find_duplicates [a; b] 1) b
  ∧ ¬ Image.treated_as_duplicate (Image.find_duplicates [a; b] 0) b.
Proof.
  intros E a b.
  assert (Hia : Image.is_image a = true) by (vm_compute; reflexivity).
  assert (Hib : Image.is_image b = true) by (vm_compute; reflexivity).
  assert (Ha : snd (Image.compute_file_hash a) = Some "00ff00ff00ff00ff")
    by (vm_compute; reflexivity).
  assert (Hb : snd (Image.compute_file_hash b) = Some "00ff00ff00ff00fe")
    by (vm_compute; reflexivity).
  assert (Hlen : String.length "00ff00ff00ff00ff"
                 = String.length "00ff00ff00ff00fe") by reflexivity.
  assert (Hxa : is_hex "00ff00ff00ff00ff" = true) by (vm_compute; reflexivity).
  assert (Hxb : is_hex "00ff00ff00ff00fe" = true) by (vm_compute; reflexivity).
  assert (Hone : hamming_distance "00ff00ff00ff00fe" "00ff00ff00ff00ff" = 1)
    by (vm_compute; reflexivity).
  split; [exact Hia|]. split; [exact Hib|]. split; [exact Ha|].
  split; [exact Hb|]. split; [exact Hlen|]. split; [exact Hxa|].
  split; [exact Hxb|]. split; [exact Hone|].
  exact (proj2 (proj2 (image_pair_duplicates a b _ _ Hia Hib Ha Hb Hlen)
                  Hxa Hxb) Hone).
Defined.

(** C6, as stated, fails: these two hashes differ in four bits, all in one
    digit, and at threshold 1 the second image is still treated as a
    duplicate of the first. *)
Lemma hamming_threshold_counterexample :
  let E := toy_env [(["src"; "a.jpg"], "0000000000000000");
                    (["src"; "b.jpg"], "f000000000000000")] in
  let a := ["src"; "a.jpg"] in
  let b := ["src"; "b.jpg"] in
  snd (Image.compute_file_hash a) = Some "0000000000000000"
  ∧ snd (Image.compute_file_hash b) = Some "f000000000000000"
  ∧ hamming_distance "f000000000000000" "0000000000000000" = 4
  ∧ Image.treated_as_duplicate (Image.find_duplicates [a; b] 1) b
  ∧ ¬ (Image.treated_as_duplicate (Image.find_duplicates [a; b] 1) b
       <-> (Z.of_nat (hamming_distance "f000000000000000" "0000000000000000")
            <= 1)%Z).
Proof.
  intros E a b.
  assert (Hdup : Image.treated_as_duplicate (Image.find_duplicates [a; b] 1) b).
  { exists "0000000000000000", [b]. vm_compute.
    split; [reflexivity|]. apply elem_of_cons. by left. }
  split; [vm_compute; reflexivity|]. split; [vm_compute; reflexivity|].
  split; [vm_compute; reflexivity|]. split; [exact Hdup|].
  intros [Hto _]. specialize (Hto Hdup). vm_compute in Hto. by apply Hto.
Qed.

(** ** What [main] keeps and what it removes *)

Section ImageMain.
Context {E : Env}.
Import Image ImageFacts.

(** Two images with the same signature: [find_duplicates] lists the
    second under the signature of the first, and [main], which skips
    every list that is not longer than one, removes neither. *)
Lemma main_plan_pair a b h :
  snd (compute_file_hash a) = Some h ->
  snd (compute_file_hash b) = Some h ->
  is_image b = true ->
  find_duplicates [a; b] 0 = [(h, [b])]
  ∧ main_plan [a; b] = (∅, {[a]} ∪ {[b]}).
Proof.
  intros Ha Hb Himg.
  assert (Hdups : find_duplicates [a; b] 0 = [(h, [b])]).
  { rewrite (find_duplicates_pair a b h h Ha Hb Himg eq_refl).
    by rewrite char_diff_refl. }
  split; [done|]. unfold main_plan. rewrite Hdups.
  unfold duplicate_paths_of, unique_files_of. simpl.
  f_equal. rewrite !filter_cons_True by apply not_elem_of_empty.
  rewrite filter_nil. simpl. by rewrite union_empty_r_L.
Qed.
End ImageMain.

(** C1, at an input where the image sorter departs from it.  Two image
    files with the same signature form a group of two whose first-seen
    member is [a.jpg]; [main] marks no path as duplicate and hands both
    files over for relocation. *)
Theorem image_main_keeps_both_of_two :
  let E := toy_env [(["src"; "a.jpg"], "00ff00ff00ff00ff");
                    (["src"; "b.jpg"], "00ff00ff00ff00ff")] in
  let a := ["src"; "a.jpg"] in
  let b := ["src"; "b.jpg"] in
  Image.group_of (Image.dup_run [a; b] 0) "00ff00ff00ff00ff" = [a; b]
  ∧ Image.main_plan [a; b] = (∅, {[a]} ∪ {[b]}).
Proof.
  intros E a b. split; [vm_compute; reflexivity|].
  apply (main_plan_pair a b "00ff00ff00ff00ff"); vm_compute; reflexivity.
Qed.

(** In a group of three the image sorter removes the third member only;
    the second is relocated along with the first. *)
Example image_main_group_of_three :
  let E := toy_env [(["src"; "a.jpg"], "00ff00ff00ff00ff");
                    (["src"; "b.jpg"], "00ff00ff00ff00ff");
                    (["src"; "c.jpg"], "00ff00ff00ff00ff")] in
  let files := [["src"; "a.jpg"]; ["src"; "b.jpg"]; ["src"; "c.jpg"]] in
  elements (fst (Image.main_plan files)) = [["src"; "c.jpg"]]
  ∧ ["src"; "b.jpg"] ∈ snd (Image.main_plan files).
Proof.
  intros E files. split; [vm_compute; reflexivity|].
  unfold Image.main_plan, Image.unique_files_of.
  apply elem_of_list_to_set, list_elem_of_filter. split.
  - set (dups := Image.find_duplicates files 0). vm_compute in dups. subst dups.
    unfold Image.duplicate_paths_of. simpl.
    rewrite union_empty_l_L, not_elem_of_singleton. discriminate.
  - apply elem_of_cons. right. apply elem_of_cons. by left.
Qed.

(** The document sorter on the same kind of input: the first-seen file is
    the one relocated, the other the one removed. *)
Example doc_main_pair :
  let E := toy_env [(["src"; "a.txt"], "Hello World");
                    (["src"; "b.txt"], "hello   world")] in
  let a := ["src"; "a.txt"] in
  let b := ["src"; "b.txt"] in
  elements (fst (Doc.main_plan [a; b])) = [a]
  ∧ snd (Doc.main_plan [a; b]) = [b].
Proof. intros E a b. split; vm_compute; reflexivity. Qed.

(** ** The document sorter: signatures and groups *)

Module DocFacts.
Import Doc.
Section Facts.
Context {E : Env}.
Implicit Types (st : DupState) (z x : Path) (h : string).

Lemma doc_compute_file_hash_eta z :
  compute_file_hash z = (z, snd (compute_file_hash z)).
Proof.
  unfold compute_file_hash.
  destruct (String.eqb _ _); [done|]. destruct (is_binary z); [done|].
  by destruct (utf8_encode _).
Qed.

(** The signature of a text file with content is the SHA-256 digest of
    its normalized text. *)
Lemma text_hash z :
  is_binary z = false -> read_file_content z ≠ "" ->
  snd (compute_file_hash z)
  = sha256_hexdigest <$> utf8_encode (normalize_content (read_file_content z)).
Proof.
  intros Hbin Hne. unfold compute_file_hash.
  destruct (String.eqb_spec (read_file_content z) ""); [done|].
  rewrite Hbin. by destruct (utf8_encode _).
Qed.



(** A step takes nothing out of a group. *)
Lemma dup_step_group_mono st z h x :
  x ∈ group_of st h -> x ∈ group_of (dup_step st z) h.
Proof.
  unfold dup_step, group_of. rewrite (doc_compute_file_hash_eta z).
  destruct (snd (compute_file_hash z)) as [hz|]; [|done].
  unfold PyDict.mem.
  destruct (PyDict.get hz (hash_dict st)) as [v0|] eqn:Hget; simpl.
  - destruct (PyDict.get h (hash_dict st)) as [v|]; [|done].
    rewrite PyDictFacts.get_setdefault_append.
    destruct (decide (hz = h)) as [->|Hne]; [|done].
    rewrite !elem_of_cons. intros [->|Hx]; [by left|right].
    simpl. apply elem_of_app. by left.
  - rewrite PyDictFacts.get_set.
    destruct (decide (hz = h)) as [->|Hne]; [|done].
    rewrite Hget. by intros ?%elem_of_nil.
Qed.

(** A step puts its file into the group of its signature. *)
Lemma dup_step_group_new st z hz :
  snd (compute_file_hash z) = Some hz -> z ∈ group_of (dup_step st z) hz.
Proof.
  intros Hhash. unfold dup_step, group_of.
  rewrite (doc_compute_file_hash_eta z), Hhash. unfold PyDict.mem.
  destruct (PyDict.get hz (hash_dict st)) as [v0|] eqn:Hget; simpl.
  - rewrite Hget, PyDictFacts.get_setdefault_append.
    destruct (decide (hz = hz)); [|done]. simpl.
    apply elem_of_cons. right. apply elem_of_app. right.
    by apply list_elem_of_singleton.
  - rewrite PyDictFacts.get_set_eq. apply elem_of_cons. by left.
Qed.

Lemma dup_run_group_mono files st h x :
  x ∈ group_of st h -> x ∈ group_of (fold_left dup_step files st) h.
Proof.
  revert st. induction files as [|z files IH]; intros st Hx; simpl; [done|].
  by apply IH, dup_step_group_mono.
Qed.

(** Every file of the list that has a signature ends up in the group of
    that signature. *)
Lemma dup_run_groups files st x h :
  x ∈ files -> snd (compute_file_hash x) = Some h ->
  x ∈ group_of (fold_left dup_step files st) h.
Proof.
  revert st. induction files as [|z files IH]; intros st Hin Hhash; simpl.
  - by apply elem_of_nil in Hin.
  - apply elem_of_cons in Hin as [->|Hin]; [|by apply IH].
    by apply dup_run_group_mono, dup_step_group_new.
Qed.
End Facts.
End DocFacts.

(** C7, as the code has it.  Two text files whose decoded contents are not
    empty and agree after white space is removed and letters are lowered
    have the same signature, the SHA-256 digest of the encoded normalized
    text, and in every list that holds both they are members of the group
    of that signature. *)
Theorem text_duplicates_grouped {E : Env} (p q : Path) :
  Doc.is_binary p = false -> Doc.is_binary q = false ->
  Doc.read_file_content p ≠ "" -> Doc.read_file_content q ≠ "" ->
  Doc.normalize_content (Doc.read_file_content p)
  = Doc.normalize_content (Doc.read_file_content q) ->
  snd (Doc.compute_file_hash p) = snd (Doc.compute_file_hash q)
  ∧ snd (Doc.compute_file_hash p)
    = sha256_hexdigest
      <$> utf8_encode (Doc.normalize_content (Doc.read_file_content p))
  ∧ ∀ files h,
      snd (Doc.compute_file_hash p) = Some h -> p ∈ files -> q ∈ files ->
      p ∈ Doc.group_of (Doc.dup_run files) h
      ∧ q ∈ Doc.group_of (Doc.dup_run files) h.
Proof.
  intros Hbp Hbq Hcp Hcq Hnorm.
  pose proof (DocFacts.text_hash p Hbp Hcp) as Hp.
  pose proof (DocFacts.text_hash q Hbq Hcq) as Hq.
  assert (Heq : snd (Doc.compute_file_hash p) = snd (Doc.compute_file_hash q))
    by (by rewrite Hp, Hq, Hnorm).
  split; [exact Heq|]. split; [exact Hp|].
  intros files h Hh Hpin Hqin. unfold Doc.dup_run. split.
  - by apply DocFacts.dup_run_groups.
  - apply DocFacts.dup_run_groups; [done|]. by rewrite <- Heq.
Qed.

Lemma text_duplicates_grouped_witness :
  let E := toy_env [(["src"; "a.txt"], "Hello World");
                    (["src"; "b.md"], "hello   world")] in
  let p := ["src"; "a.txt"] in
  let q := ["src"; "b.md"] in
  let h := "68656c6c6f776f726c6400000000000000000000000000000000000000000000" in
  Doc.is_binary p = false ∧ Doc.is_binary q = false
  ∧ Doc.read_file_content p ≠ "" ∧ Doc.read_file_content q ≠ ""
  ∧ Doc.normalize_content (Doc.read_file_content p)
    = Doc.normalize_content (Doc.read_file_content q)
  ∧ snd (Doc.compute_file_hash p) = Some h
  ∧ p ∈ Doc.group_of (Doc.dup_run [p; q]) h
  ∧ q ∈ Doc.group_of (Doc.dup_run [p; q]) h.
Proof.
  intros E p q h.
  assert (Hbp : Doc.is_binary p = false) by (vm_compute; reflexivity).
  assert (Hbq : Doc.is_binary q = false) by (vm_compute; reflexivity).
  assert (Hcp : Doc.read_file_content p ≠ "") by (vm_compute; discriminate).
  assert (Hcq : Doc.read_file_content q ≠ "") by (vm_compute; discriminate).
  assert (Hn : Doc.normalize_content (Doc.read_file_content p)
               = Doc.normalize_content (Doc.read_file_content q))
    by (vm_compute; reflexivity).
  assert (Hh : snd (Doc.compute_file_hash p) = Some h)
    by (vm_compute; reflexivity).
  assert (Hpin : p ∈ [p; q]) by (apply elem_of_cons; by left).
  assert (Hqin : q ∈ [p; q])
    by (apply elem_of_cons; right; apply elem_of_cons; by left).
  split; [exact Hbp|]. split; [exact Hbq|]. split; [exact Hcp|].
  split; [exact Hcq|]. split; [exact Hn|]. split; [exact Hh|].
  exact (proj2 (proj2 (text_duplicates_grouped p q Hbp Hbq Hcp Hcq Hn))
           [p; q] h Hh Hpin Hqin).
Defined.

(** C7, as stated, fails for an empty file and a file that holds a line
    break only: both normalize to the empty text, the first has no
    signature and the second has one, and no group holds both. *)
Lemma empty_text_counterexample :
  let E := toy_env [(["src"; "empty.txt"], "");
                    (["src"; "blank.txt"], String "010"%char "")] in
  let p := ["src"; "empty.txt"] in
  let q := ["src"; "blank.txt"] in
  Doc.normalize_content (Doc.read_file_content p)
  = Doc.normalize_content (Doc.read_file_content q)
  ∧ snd (Doc.compute_file_hash p) ≠ snd (Doc.compute_file_hash q)
  ∧ ∀ h, ¬ (p ∈ Doc.group_of (Doc.dup_run [p; q]) h
            ∧ q ∈ Doc.group_of (Doc.dup_run [p; q]) h).
Proof.
  intros E p q. split; [vm_compute; reflexivity|].
  split; [vm_compute; discriminate|].
  intros h [Hp _]. unfold Doc.group_of in Hp.
  set (st := Doc.dup_run [p; q]) in *. vm_compute in st. subst st.
  simpl in Hp. destruct (String.eqb h _).
  - apply list_elem_of_In in Hp. simpl in Hp. intuition discriminate.
  - by apply elem_of_nil in Hp.
Qed.

(** ** Files without a signature *)

Section DictElements.
Import PyDict.
Context {V : Type}.
Implicit Types (d : @t V) (k : string) (v : V).

Lemma get_elem_of k v d : get k d = Some v -> (k, v) ∈ d.
Proof.
  induction d as [|[k' v'] d IH]; simpl; [done|].
  destruct (String.eqb_spec k k') as [->|Hne].
  - intros [= ->]. apply elem_of_cons. by left.
  - intros Hget. apply elem_of_cons. right. by apply IH.
Qed.

Lemma elem_of_set k v k' v' d :
  (k', v') ∈ set k v d -> (k', v') ∈ d ∨ (k' = k ∧ v' = v).
Proof.
  induction d as [|[k0 v0] d IH]; simpl.
  - intros [[= -> ->]|Hin%elem_of_nil]%elem_of_cons; [by right|done].
  - destruct (String.eqb_spec k k0) as [->|Hne].
    + intros [[= -> ->]|Hin]%elem_of_cons; [by right|].
      left. apply elem_of_cons. by right.
    + intros [Heq|Hin]%elem_of_cons.
      * left. apply elem_of_cons. by left.
      * destruct (IH Hin) as [Hd|Hnew]; [|by right].
        left. apply elem_of_cons. by right.
Qed.
End DictElements.

(** ** The document sorter keeps the first-seen file of a group *)

Section DocMain.
Context {E : Env}.
Import Doc DocFacts.

Lemma plans_agree_step seen st acc z :
  z ∉ seen -> plans_agree seen st acc ->
  plans_agree (seen ++ [z]) (dup_step st z) (unique_step acc z).
Proof.
  intros Hnew (Hkeys & Hvals & Hdict & Hdups).
  assert (Hseen : ∀ p, p ∈ seen -> p ∈ seen ++ [z])
    by (intros p Hp; apply elem_of_app; by left).
  unfold dup_step, unique_step. destruct acc as [u ph].
  rewrite (doc_compute_file_hash_eta z).
  destruct (snd (compute_file_hash z)) as [hz|] eqn:Hz.
  2:{ split; [done|]. split; [done|]. split.
      - intros h p Hp. destruct (Hdict h p Hp). auto.
      - intros h l o Hl Ho. destruct (Hdups h l o Hl Ho) as (? & ? & ?). auto. }
  destruct (PyDict.mem hz (hash_dict st)) eqn:Hmem.
  - assert (Hph : hz ∈ ph) by (by apply (Hkeys hz)).
    rewrite bool_decide_eq_false_2 by (intros Hn; by apply Hn).
    split; [done|]. split; [done|]. split.
    + intros h p Hp. destruct (Hdict h p Hp). auto.
    + intros h l o. simpl. rewrite PyDictFacts.get_setdefault_append.
      destruct (decide (hz = h)) as [->|Hne].
      * intros [= <-] [Ho|Ho%list_elem_of_singleton]%elem_of_app.
        -- destruct (PyDict.get h (duplicates st)) as [l0|] eqn:Hl0;
             [|by apply elem_of_nil in Ho].
           destruct (Hdups h l0 o Hl0 Ho) as (? & ? & ?). auto.
        -- subst o. split; [apply elem_of_app; right; by apply list_elem_of_singleton|].
           split; [done|]. intros Hc. by destruct (Hdict h z Hc).
      * intros Hl Ho. destruct (Hdups h l o Hl Ho) as (? & ? & ?). auto.
  - assert (Hph : hz ∉ ph).
    { intros Hin%(Hkeys hz). simpl in Hin. congruence. }
    rewrite bool_decide_eq_true_2 by done. simpl.
    assert (Hnone : PyDict.get hz (hash_dict st) = None).
    { unfold PyDict.mem in Hmem. by destruct (PyDict.get hz (hash_dict st)). }
    split; [|split; [|split]]; simpl.
    + intros h. unfold PyDict.mem. rewrite PyDictFacts.get_set, elem_of_union.
      destruct (decide (hz = h)) as [->|Hne].
      * split; [done|]. intros _. right. by apply elem_of_singleton.
      * rewrite elem_of_singleton. specialize (Hkeys h). simpl in Hkeys.
        unfold PyDict.mem in Hkeys. rewrite <- Hkeys.
        split; [intros [?|?]; [done|congruence]|by left].
    + intros p. rewrite elem_of_union, elem_of_singleton. split.
      * intros [Hp| ->].
        -- apply (Hvals p) in Hp as [h Hh]. exists h.
           rewrite PyDictFacts.get_set_ne; [done|]. intros ->. congruence.
        -- exists hz. apply PyDictFacts.get_set_eq.
      * intros [h Hh]. rewrite PyDictFacts.get_set in Hh.
        destruct (decide (hz = h)) as [->|Hne]; [right; congruence|].
        left. apply (Hvals p). eauto.
    + intros h p. rewrite PyDictFacts.get_set.
      destruct (decide (hz = h)) as [->|Hne].
      * intros [= <-]. split; [|done].
        apply elem_of_app. right. by apply list_elem_of_singleton.
      * intros Hp. destruct (Hdict h p Hp). auto.
    + intros h l o Hl Ho. destruct (Hdups h l o Hl Ho) as (Hin & Hh & Hc).
      split; [auto|]. split; [done|]. rewrite PyDictFacts.get_set.
      destruct (decide (hz = h)) as [->|Hne]; [|done].
      intros [= ->]. done.
Qed.

Lemma plans_agree_run files seen st acc :
  NoDup (seen ++ files) -> plans_agree seen st acc ->
  plans_agree (seen ++ files) (fold_left dup_step files st)
    (fold_left unique_step files acc).
Proof.
  revert seen st acc. induction files as [|z files IH]; intros seen st acc Hnd Hinv;
    simpl.
  - by rewrite app_nil_r.
  - replace (seen ++ z :: files) with ((seen ++ [z]) ++ files) in *
      by (by rewrite <- app_assoc).
    apply IH; [done|]. apply plans_agree_step; [|done].
    apply NoDup_app in Hnd as (Hnd & _ & _).
    apply NoDup_app in Hnd as (_ & Hdisj & _).
    intros Hz. apply (Hdisj z Hz). by apply list_elem_of_singleton.
Qed.

(** In the document sorter the first-seen member of every group is handed
    over for relocation, and every other member is left out of the
    relocation and listed for removal. *)
Lemma doc_main_keeps_first_seen files h first others :
  NoDup files ->
  group_of (dup_run files) h = first :: others ->
  first ∈ fst (main_plan files)
  ∧ ∀ o, o ∈ others ->
         (o ∉ fst (main_plan files)) ∧ o ∈ snd (main_plan files).
Proof.
  intros Hnd Hgroup.
  assert (Hinit : plans_agree [] dup_init (∅, ∅)).
  { split; [|split; [|split]]; simpl.
    - intros h'. split; [by intros ?%not_elem_of_empty|done].
    - intros p. split; [by intros ?%not_elem_of_empty|by intros [? ?]].
    - done.
    - done. }
  destruct (plans_agree_run files [] dup_init (∅, ∅) Hnd Hinit)
    as (_ & Hvals & Hdict & Hdups).
  unfold main_plan, unique_files_of, find_duplicates, duplicate_files_of, dup_run
    in *. simpl in *.
  unfold group_of in Hgroup.
  destruct (PyDict.get h (hash_dict (fold_left dup_step files dup_init)))
    as [c|] eqn:Hc; [|done].
  injection Hgroup as -> Hothers.
  split; [apply Hvals; eauto|].
  intros o Ho.
  destruct (PyDict.get h (duplicates (fold_left dup_step files dup_init)))
    as [l|] eqn:Hl; simpl in Hothers; subst others;
    [|by apply elem_of_nil in Ho].
  destruct (Hdups h l o Hl Ho) as (_ & Hho & Hne). split.
  - intros [h' Hh']%Hvals. destruct (Hdict h' o Hh') as [_ Hho'].
    rewrite Hho in Hho'. injection Hho' as <-. done.
  - apply list_elem_of_In, in_concat. exists l. split; [|by apply list_elem_of_In].
    apply in_map_iff. exists (h, l). split; [done|].
    by apply list_elem_of_In, get_elem_of.
Qed.
End DocMain.

(** Whatever is listed after an append was listed before, or is the
    appended value. *)
Lemma elem_of_setdefault_append {A} k (x y : A) h l (d : @PyDict.t (list A)) :
  (h, l) ∈ PyDict.setdefault_append k x d -> y ∈ l ->
  (y = x ∧ h = k) ∨ ∃ l0, (h, l0) ∈ d ∧ y ∈ l0.
Proof.
  unfold PyDict.setdefault_append. intros Hin Hy.
  destruct (PyDict.get k d) as [old|] eqn:Hget.
  - apply elem_of_set in Hin as [Hd|[-> ->]]; [eauto|].
    apply elem_of_app in Hy as [Hy|Hy%list_elem_of_singleton]; [|by left].
    right. exists old. split; [by apply get_elem_of|done].
  - apply elem_of_set in Hin as [Hd|[-> ->]]; [eauto|].
    apply list_elem_of_singleton in Hy. by left.
Qed.

Section Unsigned.
Context {E : Env}.


(** [main] of the image sorter marks only paths that are listed in
    [duplicates]. *)
Lemma duplicate_paths_listed (dups : @PyDict.t (list Path)) x :
  x ∈ Image.duplicate_paths_of dups -> ∃ h l, (h, l) ∈ dups ∧ x ∈ l.
Proof.
  unfold Image.duplicate_paths_of.
  assert (Hinner : ∀ (l : list Path) (acc : gset Path),
             x ∈ fold_left (fun (acc : gset Path) f => acc ∪ {[f]}) l acc ->
             x ∈ acc ∨ x ∈ l).
  { induction l as [|f l IH]; intros acc; simpl; [by left|].
    intros [Hacc|Hl]%IH.
    - apply elem_of_union in Hacc as [Hacc|Hf%elem_of_singleton]; [by left|].
      right. apply elem_of_cons. by left.
    - right. apply elem_of_cons. by right. }
  assert (Hgen : ∀ (acc : gset Path),
             x ∈ fold_left
                   (fun (acc : gset Path) '(hash_value, file_list) =>
                      if 1 <? length file_list
                      then fold_left (fun (acc : gset Path) f => acc ∪ {[f]})
                             (skipn 1 file_list) acc
                      else acc) dups acc ->
             x ∈ acc ∨ ∃ h l, (h, l) ∈ dups ∧ x ∈ l).
  { induction dups as [|[h l] dups IH]; intros acc; simpl; [by left|].
    intros [Hacc|(h' & l' & Hin & Hx)]%IH.
    - destruct (1 <? length l).
      + apply Hinner in Hacc as [Hacc|Hl]; [by left|].
        right. exists h, l. split; [apply elem_of_cons; by left|].
        destruct l; [done|]. apply elem_of_cons. by right.
      + by left.
    - right. exists h', l'. split; [apply elem_of_cons; by right|done]. }
  intros [Hempty|Hlisted]%Hgen; [set_solver|done].
Qed.



Lemma elem_of_concat_values (dups : @PyDict.t (list Path)) x :
  x ∈ concat (PyDict.values dups) -> ∃ h l, (h, l) ∈ dups ∧ x ∈ l.
Proof.
  unfold PyDict.values.
  intros (l & Hl & Hx)%list_elem_of_In%in_concat.
  apply in_map_iff in Hl as ([h l'] & <- & Hin).
  exists h, l'. split; by apply list_elem_of_In.
Qed.
End Unsigned.




(** In the image sorter an empty file that is not an image does have a
    signature: the digest of its size. *)
Example image_empty_file_signed :
  let E := toy_env [(["src"; "empty.txt"], "")] in
  snd (Image.compute_file_hash ["src"; "empty.txt"])
  = Some (md5_hexdigest (ascii_encode "0")).
Proof. intros E. vm_compute. reflexivity. Qed.

(** ** Categories of PDF files *)

(** C8.  A file with the extension [.pdf] is an e-book when it has more
    than five pages and a plain PDF otherwise; its page count is what the
    reader reports, and 0, hence the category [pdfs], when the file cannot
    be opened or parsed. *)
Theorem pdf_category {E : Env} (p : Path) :
  str_lower (suffix p) = ".pdf" ->
  Doc.get_file_category p
  = (if 5 <? Doc.get_pdf_page_count p then "ebooks" else "pdfs")
  ∧ (∀ content n, fs p = Some content -> pdf_num_pages content = Some n ->
                  Doc.get_pdf_page_count p = n)
  ∧ (fs p = None
     ∨ (∃ content, fs p = Some content ∧ pdf_num_pages content = None) ->
     Doc.get_pdf_page_count p = 0 ∧ Doc.get_file_category p = "pdfs").
Proof.
  intros Hext.
  assert (Hcat : Doc.get_file_category p
                 = (if 5 <? Doc.get_pdf_page_count p then "ebooks" else "pdfs")).
  { unfold Doc.get_file_category. by rewrite Hext. }
  split; [exact Hcat|]. split.
  - intros content n Hfs Hpages. unfold Doc.get_pdf_page_count.
    by rewrite Hfs, Hpages.
  - intros Hfail.
    assert (Hzero : Doc.get_pdf_page_count p = 0).
    { unfold Doc.get_pdf_page_count.
      destruct Hfail as [->|(content & -> & ->)]; done. }
    split; [exact Hzero|]. by rewrite Hcat, Hzero.
Qed.

Lemma pdf_category_witness :
  let E := toy_env [(["src"; "book.PDF"], "%0123456789");
                    (["src"; "flyer.pdf"], "%012");
                    (["src"; "broken.pdf"], "garbage")] in
  str_lower (suffix ["src"; "book.PDF"]) = ".pdf"
  ∧ Doc.get_pdf_page_count ["src"; "book.PDF"] = 10
  ∧ Doc.get_file_category ["src"; "book.PDF"] = "ebooks"
  ∧ Doc.get_file_category ["src"; "flyer.pdf"] = "pdfs"
  ∧ Doc.get_file_category ["src"; "broken.pdf"] = "pdfs".
Proof.
  intros E.
  assert (Hbook : str_lower (suffix ["src"; "book.PDF"]) = ".pdf")
    by (vm_compute; reflexivity).
  assert (Hflyer : str_lower (suffix ["src"; "flyer.pdf"]) = ".pdf")
    by (vm_compute; reflexivity).
  assert (Hbroken : str_lower (suffix ["src"; "broken.pdf"]) = ".pdf")
    by (vm_compute; reflexivity).
  split; [exact Hbook|]. split; [vm_compute; reflexivity|].
  split; [exact (proj1 (pdf_category ["src"; "book.PDF"] Hbook))|].
  split; [exact (proj1 (pdf_category ["src"; "flyer.pdf"] Hflyer))|].
  refine (proj2 (proj2 (proj2 (pdf_category ["src"; "broken.pdf"] Hbroken)) _)).
  right. eexists. split; vm_compute; reflexivity.
Defined.

(** ** The destination tree *)

Section DirMapFacts.
Implicit Types (d : DirMap) (p q a : Path).

Lemma mkdir_lookup_other d a p :
  p ≠ a -> p ≠ removelast a -> mkdir d a !! p = d !! p.
Proof.
  intros Hne Hpar. unfold mkdir. destruct (d !! a); [done|].
  by rewrite !lookup_insert_ne.
Qed.

Lemma mkdir_entries_self d a : entries (mkdir d a) a = entries d a.
Proof.
  unfold mkdir, entries. destruct (d !! a) as [l|] eqn:Ha.
  - by rewrite Ha.
  - by rewrite lookup_insert_eq.
Qed.

(** Creating a directory takes no entry away from any directory. *)
Lemma mkdir_entries_mono d a p : entries d p ⊆ entries (mkdir d a) p.
Proof.
  destruct (decide (p = a)) as [->|Hne]; [by rewrite mkdir_entries_self|].
  unfold mkdir. destruct (d !! a); [done|].
  unfold entries at 2. rewrite lookup_insert_ne by done.
  destruct (decide (removelast a = p)) as [<-|Hpar].
  - rewrite lookup_insert_eq. simpl. apply union_subseteq_l.
  - by rewrite lookup_insert_ne.
Qed.

Lemma removelast_firstn_succ {A} (l : list A) k :
  k < length l -> removelast (firstn (S k) l) = firstn k l.
Proof.
  revert k. induction l as [|x l IH]; intros k Hk; simpl in *; [lia|].
  destruct k as [|k]; [by destruct l|].
  rewrite (IH k) by lia. destruct l; [simpl in *; lia|done].
Qed.

(** What [mkdir_parents] touches are the proper prefixes of the path and
    the path itself. *)
Lemma mkdir_parents_lookup d q p :
  length q <= length p -> p ≠ q -> mkdir_parents d q !! p = d !! p.
Proof.
  intros Hlen Hne. unfold mkdir_parents, ancestors_and_self.
  assert (Hgen : ∀ ks d, Forall (fun k => 1 <= k <= length q) ks ->
            fold_left mkdir (map (fun k => firstn k q) ks) d !! p = d !! p).
  { induction ks as [|k ks IH]; intros d0 Hks; simpl; [done|].
    apply Forall_cons in Hks as [Hk Hks]. rewrite IH by done.
    apply mkdir_lookup_other.
    - intros ->. rewrite length_firstn in Hlen.
      apply Hne. rewrite firstn_all2; [done|lia].
    - destruct k as [|k]; [lia|].
      rewrite removelast_firstn_succ by lia.
      intros ->. rewrite length_firstn in Hlen. lia. }
  apply Hgen, Forall_forall. intros k Hk%list_elem_of_In%in_seq. lia.
Qed.

Lemma mkdir_parents_entries d q p :
  length q <= length p -> entries (mkdir_parents d q) p = entries d p.
Proof.
  intros Hlen. destruct (decide (p = q)) as [->|Hne].
  - unfold mkdir_parents, ancestors_and_self.
    destruct (length q) as [|n] eqn:Hq; [done|].
    replace (S n) with (n + 1) by lia.
    rewrite seq_app, map_app, fold_left_app. simpl.
    replace (firstn (S n) q) with q by (rewrite firstn_all2; [done|lia]).
    rewrite mkdir_entries_self.
    assert (Hgen : ∀ ks d, Forall (fun k => 1 <= k <= n) ks ->
              fold_left mkdir (map (fun k => firstn k q) ks) d !! q = d !! q).
    { induction ks as [|k ks IH]; intros d0 Hks; simpl; [done|].
      apply Forall_cons in Hks as [Hk Hks]. rewrite IH by done.
      apply mkdir_lookup_other.
      - intros Heq. apply (f_equal length) in Heq.
        rewrite length_firstn in Heq. lia.
      - destruct k as [|k]; [lia|].
        rewrite removelast_firstn_succ by lia.
        intros Heq. apply (f_equal length) in Heq.
        rewrite length_firstn in Heq. lia. }
    unfold entries. rewrite Hgen; [done|].
    apply Forall_forall. intros k Hk%list_elem_of_In%in_seq. lia.
  - unfold entries. by rewrite mkdir_parents_lookup.
Qed.

Lemma mkdir_parents_entries_mono d q p :
  entries d p ⊆ entries (mkdir_parents d q) p.
Proof.
  unfold mkdir_parents. revert d.
  induction (ancestors_and_self q) as [|a l IH]; intros d; simpl; [done|].
  etrans; [apply (mkdir_entries_mono d a p)|apply IH].
Qed.

Lemma add_entry_entries d folder entry p :
  entries (add_entry d folder entry) p
  = if decide (folder = p) then entries d p ∪ {[entry]} else entries d p.
Proof.
  unfold add_entry, entries at 1. rewrite lookup_insert.
  destruct (decide (folder = p)) as [->|Hne]; done.
Qed.

End DirMapFacts.

(** ** Batch names *)

Section BatchNames.
Lemma pad_length k s :
  String.length (string_of_list_ascii (repeat "0"%char k) +:+ s)
  = k + String.length s.
Proof. induction k as [|k IH]; simpl; [done|]. by rewrite IH. Qed.

Lemma zero_pad_length width s :
  String.length (zero_pad width s) = Nat.max width (String.length s).
Proof. unfold zero_pad. rewrite pad_length. lia. Qed.

(** Leading zeros do not change the number the digits denote. *)
Lemma pad_value k s d :
  NilEmpty.uint_of_string s = Some d ->
  ∃ d', NilEmpty.uint_of_string
          (string_of_list_ascii (repeat "0"%char k) +:+ s) = Some d'
        ∧ N.of_uint d' = N.of_uint d.
Proof.
  intros Hs. induction k as [|k (d' & Hd' & Hval)]; simpl; [eauto|].
  rewrite Hd'. simpl. eauto.
Qed.

Lemma uint_of_zero_pad width (n : N) :
  ∃ d', NilEmpty.uint_of_string
          (zero_pad width (NilEmpty.string_of_uint (N.to_uint n))) = Some d'
        ∧ N.of_uint d' = n.
Proof.
  destruct (pad_value (width - String.length
              (NilEmpty.string_of_uint (N.to_uint n)))
              _ _ (NilEmpty.usu (N.to_uint n))) as (d' & Hd' & Hval).
  exists d'. split; [exact Hd'|]. by rewrite Hval, DecimalN.Unsigned.of_to.
Qed.

Lemma parse_zero_pad width (n : N) :
  0 < width ->
  parse_decimal (zero_pad width (NilEmpty.string_of_uint (N.to_uint n)))
  = Some (Z.of_N n).
Proof.
  intros Hw. destruct (uint_of_zero_pad width n) as (d' & Hd' & Hval).
  pose proof (zero_pad_length width
                (NilEmpty.string_of_uint (N.to_uint n))) as Hlen.
  destruct (zero_pad width _) as [|c s] eqn:Hs; [simpl in Hlen; lia|].
  unfold parse_decimal. destruct (Ascii.eqb_spec c "-"%char) as [->|_].
  - simpl in Hd'. by destruct (NilEmpty.uint_of_string s).
  - rewrite Hd'. simpl. by rewrite Hval.
Qed.

Lemma parse_format_03d n : parse_decimal (format_03d n) = Some n.
Proof.
  unfold format_03d, str_of_pos_Z. destruct (Z.ltb_spec n 0) as [Hneg|Hpos].
  - destruct (uint_of_zero_pad 2 (Z.to_N (- n))) as (d' & Hd' & Hval).
    change ("-" +:+ ?s) with (String "-"%char s).
    unfold parse_decimal. rewrite Ascii.eqb_refl, Hd'. simpl.
    rewrite Hval. f_equal. lia.
  - rewrite parse_zero_pad by lia. f_equal. lia.
Qed.

Lemma format_03d_inj n m : format_03d n = format_03d m -> n = m.
Proof.
  intros Heq. pose proof (parse_format_03d n) as Hn.
  rewrite Heq, parse_format_03d in Hn. congruence.
Qed.

Lemma batch_name_inj n m : batch_name n = batch_name m -> n = m.
Proof. unfold batch_name. simpl. intros [= Heq]. by apply format_03d_inj. Qed.

Lemma batch_folder_inj base n m :
  path_join base (batch_name n) = path_join base (batch_name m) -> n = m.
Proof.
  unfold path_join. intros Heq%app_inv_head.
  apply batch_name_inj. congruence.
Qed.


End BatchNames.

(** ** The loop that picks the next batch folder *)

Section BatchLoop.
Variable base : Path.
Variable max_files : Z.

Lemma next_batch_loop_spec fuel n d folder n' d' :
  next_batch_loop fuel base max_files n d = Some (folder, n', d') ->
  folder = path_join base (batch_name n')
  ∧ (n <= n')%Z
  ∧ (Z.of_nat (size (entries d' folder)) < max_files)%Z
  ∧ (∀ p, entries d p ⊆ entries d' p)
  ∧ (∀ p, length base < length p -> entries d' p = entries d p)
  ∧ (∀ k, (n <= k < n')%Z ->
          full max_files d' (path_join base (batch_name k))).
Proof.
  revert n d. induction fuel as [|fuel IH]; intros n d; simpl; [done|].
  set (folder0 := path_join base (batch_name n)).
  set (d1 := mkdir_parents d folder0).
  assert (Hlen0 : length folder0 = length base + 1)
    by (unfold folder0, path_join; rewrite length_app; simpl; lia).
  destruct (Z.ltb_spec (Z.of_nat (size (entries d1 folder0))) max_files)
    as [Hroom|Hfull].
  - intros [= <- <- <-]. split; [done|]. split; [lia|]. split; [done|].
    split; [intros p; apply mkdir_parents_entries_mono|].
    split; [|intros k Hk; lia].
    intros p Hp. apply mkdir_parents_entries. lia.
  - intros (-> & Hle & Hroom & Hmono & Hframe & Hfullk)%IH.
    split; [done|]. split; [lia|]. split; [done|].
    split; [|split].
    + intros p. etrans; [apply (mkdir_parents_entries_mono d folder0 p)|].
      apply Hmono.
    + intros p Hp. rewrite Hframe by done. apply mkdir_parents_entries. lia.
    + intros k Hk. destruct (decide (k = n)) as [->|Hne].
      * unfold full. pose proof (subseteq_size _ _ (Hmono folder0)). 
        fold folder0. lia.
      * apply Hfullk. lia.
Qed.

Lemma next_batch_loop_fuel_mono fuel fuel' n d r :
  next_batch_loop fuel base max_files n d = Some r -> fuel <= fuel' ->
  next_batch_loop fuel' base max_files n d = Some r.
Proof.
  revert fuel' n d. induction fuel as [|fuel IH]; intros fuel' n d; simpl;
    [done|].
  intros Hr Hle. destruct fuel' as [|fuel']; [lia|]. simpl.
  destruct (_ <? _)%Z; [done|]. apply IH; [done|lia].
Qed.

Hypothesis max_positive : (0 < max_files)%Z.

(** The loop stops at the latest at a folder that does not exist yet. *)
Lemma next_batch_loop_absent k n d :
  d !! path_join base (batch_name (n + Z.of_nat k)) = None ->
  ∃ fuel, is_Some (next_batch_loop fuel base max_files n d).
Proof.
  revert n d. induction k as [|k IH]; intros n d Habs.
  - exists 1. simpl. rewrite Z.add_0_r in Habs.
    rewrite mkdir_parents_entries by done.
    assert (Hempty : entries d (path_join base (batch_name n)) = ∅)
      by (unfold entries; by rewrite Habs).
    rewrite Hempty, size_empty.
    destruct (Z.ltb_spec (Z.of_nat 0) max_files); [by eexists|lia].
  - destruct (Z.ltb_spec
                (Z.of_nat (size (entries
                   (mkdir_parents d (path_join base (batch_name n)))
                   (path_join base (batch_name n))))) max_files)
      as [Hroom|Hfull].
    + exists 1. simpl. apply Z.ltb_lt in Hroom. rewrite Hroom. by eexists.
    + destruct (IH (n + 1)%Z
                  (mkdir_parents d (path_join base (batch_name n))))
        as [fuel Hfuel].
      * rewrite mkdir_parents_lookup.
        -- rewrite <- Habs. do 3 f_equal. lia.
        -- unfold path_join. rewrite !length_app. simpl. lia.
        -- intros Heq%batch_folder_inj. lia.
      * exists (S fuel). simpl. apply Z.ltb_ge in Hfull. by rewrite Hfull.
Qed.

(** The tree is finite, so some folder ahead does not exist yet. *)
Lemma absent_folder_ahead (n : Z) (d : DirMap) :
  ∃ k, d !! path_join base (batch_name (n + Z.of_nat k)) = None.
Proof.
  set (folder := fun k : nat => path_join base (batch_name (n + Z.of_nat k))).
  set (ks := seq 0 (S (size (dom d)))).
  destruct (decide (Exists (fun k => d !! folder k = None) ks))
    as [Hex|Hnex].
  - apply Exists_exists in Hex as (k & _ & Hk). by exists k.
  - exfalso. apply not_Exists_Forall in Hnex; [|solve_decision].
    assert (Hsub : list_to_set (folder <$> ks) ⊆ dom d).
    { intros p (k & -> & Hk)%elem_of_list_to_set%list_elem_of_fmap.
      rewrite Forall_forall in Hnex. specialize (Hnex k Hk). simpl in Hnex.
      apply elem_of_dom. by destruct (d !! folder k); [eexists|]. }
    apply subseteq_size in Hsub.
    rewrite size_list_to_set in Hsub.
    + rewrite length_fmap in Hsub. unfold ks in Hsub.
      rewrite length_seq in Hsub. lia.
    + apply NoDup_fmap_2_strong; [|apply NoDup_seq].
      intros k1 k2 _ _ Heq%batch_folder_inj. lia.
Qed.

Lemma next_batch_loop_total n d :
  ∃ fuel, is_Some (next_batch_loop fuel base max_files n d).
Proof.
  destruct (absent_folder_ahead n d) as [k Hk].
  by eapply next_batch_loop_absent.
Qed.
End BatchLoop.

(** ** Loops with fuel *)

Section Fuel.
Context {A S : Type}.
Variable body : nat -> S -> A -> option S.
Hypothesis body_mono :
  ∀ fuel fuel' s a r, body fuel s a = Some r -> fuel <= fuel' ->
                      body fuel' s a = Some r.

Lemma for_each_fuel_mono fuel fuel' xs s r :
  for_each (body fuel) xs s = Some r -> fuel <= fuel' ->
  for_each (body fuel') xs s = Some r.
Proof.
  revert s. induction xs as [|x xs IH]; intros s; simpl; [done|].
  destruct (body fuel s x) as [s'|] eqn:Hb; [|done].
  intros Hr Hle. rewrite (body_mono _ _ _ _ _ Hb Hle). by apply IH.
Qed.

Hypothesis body_total : ∀ s a, ∃ fuel, is_Some (body fuel s a).

Lemma for_each_total xs s : ∃ fuel, is_Some (for_each (body fuel) xs s).
Proof.
  revert s. induction xs as [|x xs IH]; intros s; simpl.
  - exists 0. by eexists.
  - destruct (body_total s x) as [f1 [s' Hs']].
    destruct (IH s') as [f2 [r Hr]].
    exists (Nat.max f1 f2).
    rewrite (body_mono _ _ _ _ _ Hs' (Nat.le_max_l f1 f2)).
    exists r. apply (for_each_fuel_mono f2); [done|lia].
Qed.
End Fuel.

(** An invariant of the body of a loop is an invariant of the loop. *)
Lemma for_each_invariant {A S} (body : S -> A -> option S) (P : S -> Prop) xs :
  (∀ s a s', a ∈ xs -> P s -> body s a = Some s' -> P s') ->
  ∀ s s', P s -> for_each body xs s = Some s' -> P s'.
Proof.
  induction xs as [|x xs IH]; intros Hbody s s' Hs; simpl.
  - by intros [= <-].
  - destruct (body s x) as [s1|] eqn:Hb; [|done].
    apply IH.
    + intros s0 a s0' Ha. apply Hbody. apply elem_of_cons. by right.
    + eapply Hbody; [|done..]. apply elem_of_cons. by left.
Qed.

(** ** No batch folder is overfilled *)

Section Capacity.
Context {E : Env}.
Variable dest_base_dir : Path.
Variable max_files : Z.

Lemma size_add_one (X : gset string) x : size (X ∪ {[x]}) <= size X + 1.
Proof.
  rewrite size_union_alt.
  pose proof (subseteq_size ({[x]} ∖ X) {[x]}) as Hle.
  rewrite size_singleton in Hle.
  specialize (Hle (subseteq_difference_l _ _ _ (reflexivity _))). lia.
Qed.

Lemma try_transfer_dest st f folder :
  dest (try_transfer st f folder) = add_entry (dest st) folder (name f)
  ∨ dest (try_transfer st f folder) = dest st.
Proof. unfold try_transfer. destruct (transfer _ _); simpl; auto. Qed.

(** Picking a folder below [base] and transferring a file into it leaves
    every directory deeper than [base] within the limit or as it was. *)
Lemma place_bounded fuel base n d folder n' d1 st f :
  next_batch_loop fuel base max_files n d = Some (folder, n', d1) ->
  dest st = d1 ->
  ∀ p, length base < length p ->
       (Z.of_nat (size (entries (dest (try_transfer st f folder)) p))
        <= max_files)%Z
       ∨ entries (dest (try_transfer st f folder)) p = entries d p.
Proof.
  intros (-> & _ & Hroom & _ & Hframe & _)%next_batch_loop_spec Hst p Hp.
  destruct (try_transfer_dest st f (path_join base (batch_name n')))
    as [-> | ->]; rewrite Hst.
  - rewrite add_entry_entries. destruct (decide _) as [<-|Hne].
    + left. pose proof (size_add_one (entries d1 (path_join base (batch_name n')))
                          (name f)). lia.
    + right. by apply Hframe.
  - right. by apply Hframe.
Qed.

Lemma doc_place_kept fuel category d0 st f st' :
  kept_within max_files (length dest_base_dir + 2) d0 st ->
  doc_place dest_base_dir max_files fuel category st f = Some st' ->
  kept_within max_files (length dest_base_dir + 2) d0 st'.
Proof.
  intros Hst. unfold doc_place, doc_get_next_batch_folder.
  destruct (next_batch_loop _ _ _ _ _) as [[[folder num] d1]|] eqn:Hloop;
    [|done].
  intros [= <-] p Hp.
  assert (Hbase : length (path_join dest_base_dir category)
                  = length dest_base_dir + 1)
    by (unfold path_join; rewrite length_app; simpl; lia).
  destruct (place_bounded _ _ _ _ _ _ _
              {| dest := d1; current_folder_num := num;
                 processed_files := processed_files st;
                 transfers := transfers st |} f Hloop eq_refl p)
    as [Hle|Heq]; [lia|by left|].
  rewrite Heq, mkdir_parents_entries by lia. by apply Hst.
Qed.

Lemma doc_organize_category_kept fuel d0 st item st' :
  kept_within max_files (length dest_base_dir + 2) d0 st ->
  doc_organize_category dest_base_dir max_files fuel st item = Some st' ->
  kept_within max_files (length dest_base_dir + 2) d0 st'.
Proof.
  intros Hst. unfold doc_organize_category. destruct item as [category fs].
  apply for_each_invariant with
    (P := kept_within max_files (length dest_base_dir + 2) d0); [|done].
  intros s a s' _. apply doc_place_kept.
Qed.

Lemma doc_organize_files_kept fuel files st st' :
  doc_organize_files dest_base_dir max_files fuel files st = Some st' ->
  kept_within max_files (length dest_base_dir + 2) (dest st) st'.
Proof.
  unfold doc_organize_files.
  apply for_each_invariant with
    (P := kept_within max_files (length dest_base_dir + 2) (dest st)).
  - intros s a s' _. apply doc_organize_category_kept.
  - intros p Hp. right. simpl. apply mkdir_parents_entries. lia.
Qed.

Lemma img_place_kept fuel d0 st f st' :
  kept_within max_files (length dest_base_dir + 1) d0 st ->
  img_place dest_base_dir max_files fuel st f = Some st' ->
  kept_within max_files (length dest_base_dir + 1) d0 st'.
Proof.
  intros Hst. unfold img_place, img_get_next_batch_folder.
  destruct (next_batch_loop _ _ _ _ _) as [[[folder num] d1]|] eqn:Hloop;
    [|done].
  intros [= <-] p Hp.
  destruct (place_bounded _ _ _ _ _ _ _
              {| dest := d1; current_folder_num := num;
                 processed_files := processed_files st;
                 transfers := transfers st |} f Hloop eq_refl p)
    as [Hle|Heq]; [lia|by left|].
  rewrite Heq. by apply Hst.
Qed.

Lemma img_organize_files_kept fuel files st st' :
  img_organize_files dest_base_dir max_files fuel files st = Some st' ->
  kept_within max_files (length dest_base_dir + 1) (dest st) st'.
Proof.
  unfold img_organize_files.
  apply for_each_invariant with
    (P := kept_within max_files (length dest_base_dir + 1) (dest st)).
  - intros s a s' _. apply img_place_kept.
  - intros p Hp. right. simpl. apply mkdir_parents_entries. lia.
Qed.

(** With more fuel the sorters do the same. *)
Lemma doc_place_fuel_mono category fuel fuel' st f r :
  doc_place dest_base_dir max_files fuel category st f = Some r ->
  fuel <= fuel' ->
  doc_place dest_base_dir max_files fuel' category st f = Some r.
Proof.
  unfold doc_place, doc_get_next_batch_folder.
  destruct (next_batch_loop fuel _ _ _ _) as [[[folder num] d1]|] eqn:Hloop;
    [|done].
  intros Hr Hle. by rewrite (next_batch_loop_fuel_mono _ _ _ _ _ _ _ Hloop Hle).
Qed.

Lemma doc_organize_category_fuel_mono fuel fuel' st item r :
  doc_organize_category dest_base_dir max_files fuel st item = Some r ->
  fuel <= fuel' ->
  doc_organize_category dest_base_dir max_files fuel' st item = Some r.
Proof.
  unfold doc_organize_category. destruct item as [category fs].
  apply (for_each_fuel_mono
           (fun fuel => doc_place dest_base_dir max_files fuel category)).
  intros f1 f2 s a r'. apply doc_place_fuel_mono.
Qed.

Lemma img_place_fuel_mono fuel fuel' st f r :
  img_place dest_base_dir max_files fuel st f = Some r ->
  fuel <= fuel' ->
  img_place dest_base_dir max_files fuel' st f = Some r.
Proof.
  unfold img_place, img_get_next_batch_folder.
  destruct (next_batch_loop fuel _ _ _ _) as [[[folder num] d1]|] eqn:Hloop;
    [|done].
  intros Hr Hle. by rewrite (next_batch_loop_fuel_mono _ _ _ _ _ _ _ Hloop Hle).
Qed.

Hypothesis max_positive : (0 < max_files)%Z.

Lemma doc_place_total category st f :
  ∃ fuel, is_Some (doc_place dest_base_dir max_files fuel category st f).
Proof.
  unfold doc_place, doc_get_next_batch_folder.
  destruct (next_batch_loop_total (path_join dest_base_dir category)
              max_files max_positive (current_folder_num st)
              (mkdir_parents (dest st) (path_join dest_base_dir category)))
    as [fuel [[[folder num] d1] Hloop]].
  exists fuel. rewrite Hloop. by eexists.
Qed.

Lemma doc_organize_category_total st item :
  ∃ fuel,
    is_Some (doc_organize_category dest_base_dir max_files fuel st item).
Proof.
  unfold doc_organize_category. destruct item as [category fs].
  apply (for_each_total
           (fun fuel => doc_place dest_base_dir max_files fuel category)).
  - intros f1 f2 s a r'. apply doc_place_fuel_mono.
  - intros s a. apply doc_place_total.
Qed.

Lemma doc_organize_files_total files st :
  ∃ fuel, is_Some (doc_organize_files dest_base_dir max_files fuel files st).
Proof.
  unfold doc_organize_files.
  apply (for_each_total
           (fun fuel => doc_organize_category dest_base_dir max_files fuel)).
  - intros f1 f2 s a r'. apply doc_organize_category_fuel_mono.
  - intros s a. apply doc_organize_category_total.
Qed.

Lemma img_place_total st f :
  ∃ fuel, is_Some (img_place dest_base_dir max_files fuel st f).
Proof.
  unfold img_place, img_get_next_batch_folder.
  destruct (next_batch_loop_total dest_base_dir max_files max_positive
              (current_folder_num st) (dest st))
    as [fuel [[[folder num] d1] Hloop]].
  exists fuel. rewrite Hloop. by eexists.
Qed.

Lemma img_organize_files_total files st :
  ∃ fuel, is_Some (img_organize_files dest_base_dir max_files fuel files st).
Proof.
  unfold img_organize_files.
  apply (for_each_total (fun fuel => img_place dest_base_dir max_files fuel)).
  - intros f1 f2 s a r'. apply img_place_fuel_mono.
  - intros s a. apply img_place_total.
Qed.
End Capacity.

(** C2.  With a positive limit both sorters place every file they are
    given, and batch folders that held at most [max_files_per_folder]
    entries before hold at most that many afterwards: the folders
    [<dest>/<category>/batch_NNN] of the document sorter and the folders
    [<dest>/batch_NNN] of the image sorter. *)
Theorem batch_folders_bounded {E : Env} (dest_base_dir : Path)
    (max_files_per_folder : Z) (files : list Path) (st : Sorter) :
  (0 < max_files_per_folder)%Z ->
  ((∀ category n,
      (Z.of_nat (size (entries (dest st)
         (path_join (path_join dest_base_dir category) (batch_name n))))
       <= max_files_per_folder)%Z) ->
   (∃ fuel st',
      doc_organize_files dest_base_dir max_files_per_folder fuel files st
      = Some st')
   ∧ ∀ fuel st' category n,
       doc_organize_files dest_base_dir max_files_per_folder fuel files st
       = Some st' ->
       (Z.of_nat (size (entries (dest st')
          (path_join (path_join dest_base_dir category) (batch_name n))))
        <= max_files_per_folder)%Z)
  ∧ ((∀ n,
        (Z.of_nat (size (entries (dest st)
           (path_join dest_base_dir (batch_name n))))
         <= max_files_per_folder)%Z) ->
     (∃ fuel st',
        img_organize_files dest_base_dir max_files_per_folder fuel files st
        = Some st')
     ∧ ∀ fuel st' n,
         img_organize_files dest_base_dir max_files_per_folder fuel files st
         = Some st' ->
         (Z.of_nat (size (entries (dest st')
            (path_join dest_base_dir (batch_name n))))
          <= max_files_per_folder)%Z).
Proof.
  intros Hpos. split.
  - intros Hinit. split.
    + destruct (doc_organize_files_total dest_base_dir max_files_per_folder
                  Hpos files st) as [fuel [st' Hst']]. eauto.
    + intros fuel st' category n Hrun.
      destruct (doc_organize_files_kept _ _ _ _ _ _ Hrun
                  (path_join (path_join dest_base_dir category) (batch_name n)))
        as [Hle|Heq]; [|done|].
      * unfold path_join. rewrite !length_app. simpl. lia.
      * rewrite Heq. apply Hinit.
  - intros Hinit. split.
    + destruct (img_organize_files_total dest_base_dir max_files_per_folder
                  Hpos files st) as [fuel [st' Hst']]. eauto.
    + intros fuel st' n Hrun.
      destruct (img_organize_files_kept _ _ _ _ _ _ Hrun
                  (path_join dest_base_dir (batch_name n)))
        as [Hle|Heq]; [|done|].
      * unfold path_join. rewrite !length_app. simpl. lia.
      * rewrite Heq. apply Hinit.
Qed.

Lemma batch_folders_bounded_witness :
  let E := toy_env [] in
  let files := [["src"; "a.png"]; ["src"; "b.png"]; ["src"; "c.txt"];
                ["src"; "d.png"]; ["src"; "e.txt"]; ["src"; "f.txt"]] in
  (0 < 2)%Z
  ∧ (∀ category n,
       (Z.of_nat (size (entries (dest (sorter_init ∅))
          (path_join (path_join ["out"] category) (batch_name n)))) <= 2)%Z)
  ∧ ∃ st', doc_organize_files ["out"] 2 3 files (sorter_init ∅) = Some st'
           ∧ [elements (entries (dest st') ["out"; "images"; "batch_001"]);
              elements (entries (dest st') ["out"; "images"; "batch_002"])]
             = [["a.png"; "b.png"]; ["d.png"]]
           ∧ ∀ category n,
               (Z.of_nat (size (entries (dest st')
                  (path_join (path_join ["out"] category) (batch_name n))))
                <= 2)%Z.
Proof.
  intros E files.
  assert (Hpos : (0 < 2)%Z) by lia.
  assert (Hinit : ∀ category n,
             (Z.of_nat (size (entries (dest (sorter_init ∅))
                (path_join (path_join ["out"] category) (batch_name n))))
              <= 2)%Z).
  { intros category n.
    assert (Hempty : entries (dest (sorter_init ∅))
              (path_join (path_join ["out"] category) (batch_name n)) = ∅)
      by (unfold entries; simpl; by rewrite lookup_empty).
    rewrite Hempty, size_empty. lia. }
  assert (Hrun : (fun st =>
                    [elements (entries (dest st) ["out"; "images"; "batch_001"]);
                     elements (entries (dest st) ["out"; "images"; "batch_002"])])
                 <$> doc_organize_files ["out"] 2 3 files (sorter_init ∅)
                 = Some [["a.png"; "b.png"]; ["d.png"]])
    by (vm_compute; reflexivity).
  apply fmap_Some in Hrun as (st' & Hrun & Hfolders).
  split; [exact Hpos|]. split; [exact Hinit|].
  exists st'. split; [exact Hrun|]. split; [by rewrite Hfolders|].
  intros category n.
  exact (proj2 (proj1 (batch_folders_bounded ["out"] 2 files (sorter_init ∅)
                         Hpos) Hinit) 3 st' category n Hrun).
Defined.

(** Scenario: one file more than a folder holds, all of one category; the
    first folder takes as many as it may and the second the one left. *)
Example one_more_than_a_folder_holds :
  let E := toy_env [] in
  let files :=
    map (fun k => ["src"; ("f" +:+ str_of_nat k) +:+ ".png"]) (seq 0 21) in
  (fun st => (size (entries (dest st) ["out"; "images"; "batch_001"]),
              size (entries (dest st) ["out"; "images"; "batch_002"])))
  <$> doc_organize_files ["out"] 20 3 files (sorter_init ∅)
  = Some (20, 1).
Proof. vm_compute. reflexivity. Qed.

(** ** Where a file is sent *)

Section Destinations.
Context {E : Env}.
Variable dest_base_dir : Path.
Variable max_files : Z.



Lemma try_transfer_log st f folder :
  ∃ o, transfers (try_transfer st f folder)
       = transfers st ++ [(f, path_join folder (name f), o)].
Proof. unfold try_transfer. destruct (transfer _ _); simpl; eauto. Qed.

Lemma try_transfer_num st f folder :
  current_folder_num (try_transfer st f folder) = current_folder_num st.
Proof. unfold try_transfer. by destruct (transfer _ _). Qed.

(** The files listed under a category are the files of that category. *)
Lemma files_by_category_spec files category fs f :
  (category, fs) ∈ files_by_category files -> f ∈ fs ->
  Doc.get_file_category f = category.
Proof.
  unfold files_by_category.
  assert (Hgen : ∀ (by_cat : @PyDict.t (list Path)),
            (∀ c l x, (c, l) ∈ by_cat -> x ∈ l -> Doc.get_file_category x = c) ->
            ∀ c l x,
              (c, l) ∈ fold_left
                         (fun by_cat file_path =>
                            PyDict.setdefault_append
                              (Doc.get_file_category file_path) file_path by_cat)
                         files by_cat ->
              x ∈ l -> Doc.get_file_category x = c).
  { induction files as [|z files IH]; intros by_cat Hinv; simpl; [done|].
    apply IH. intros c l x Hin Hx.
    destruct (elem_of_setdefault_append _ _ _ _ _ _ Hin Hx)
      as [[-> ->]|(l0 & Hl0 & Hx0)]; [done|by eapply Hinv]. }
  apply Hgen. intros c l x Hin. by apply elem_of_nil in Hin.
Qed.




End Destinations.




(** From 1000 on the batch index takes more than three digits. *)
Example batch_name_1000 : batch_name 1000 = "batch_1000".
Proof. reflexivity. Qed.

(** ** Cleaning the source tree *)

Section CleanupFacts.
Context {E : Env}.
Variable source_dir : Path.

Lemma strip_prefix_Some pre p rel :
  strip_prefix pre p = Some rel -> p = pre ++ rel.
Proof.
  revert p. induction pre as [|a pre IH]; intros [|b p]; simpl; try done.
  - by intros [= ->].
  - by intros [= ->].
  - destruct (String.eqb_spec a b) as [->|]; [|done].
    intros Hrel. by rewrite (IH _ Hrel).
Qed.

Lemma strip_prefix_refl p : strip_prefix p p = Some [].
Proof.
  induction p as [|a p IH]; simpl; [done|]. by rewrite String.eqb_refl.
Qed.

(** [os.rmdir] removes the source directory when that is empty: in the
    loop it is the test on [dirpath] alone that keeps it. *)
Lemma os_rmdir_empty_root :
  rmdir_ok source_dir = true ->
  listdir source_dir (Dir [] []) source_dir = Some []
  ∧ os_rmdir source_dir (Dir [] []) source_dir = Some None.
Proof.
  intros Hok. unfold os_rmdir, listdir. rewrite strip_prefix_refl. simpl.
  by rewrite Hok.
Qed.

(** When [os.rmdir] leaves no tree, it was given the source directory,
    which was empty. *)
Lemma os_rmdir_root t dirpath :
  os_rmdir source_dir t dirpath = Some None ->
  dirpath = source_dir ∧ t = Dir [] [].
Proof.
  unfold os_rmdir, listdir.
  destruct (strip_prefix source_dir dirpath) as [rel|] eqn:Hrel; [|done].
  destruct (subtree rel t) as [[fs ds]|] eqn:Hsub; [|done].
  destruct (fs ++ _) as [|x l] eqn:Hls; [|done].
  destruct (rmdir_ok dirpath); [|done].
  destruct rel as [|n rel]; [|done]. intros _.
  apply strip_prefix_Some in Hrel. rewrite app_nil_r in Hrel.
  split; [done|]. simpl in Hsub. injection Hsub as ->.
  apply app_eq_nil in Hls as [-> Hds]. by destruct ds.
Qed.

Lemma sweep_step_ok s dirpath :
  removed_ok source_dir s -> removed_ok source_dir (sweep_step source_dir s dirpath).
Proof.
  intros Hs. unfold sweep_step.
  destruct (bool_decide (dirpath = source_dir)) eqn:Hroot; [done|].
  apply bool_decide_eq_false in Hroot.
  destruct (negb (sweep_root_exists s)); [done|].
  destruct (listdir source_dir (sweep_tree s) dirpath) as [[|x l]|] eqn:Hls;
    try done.
  destruct (os_rmdir source_dir (sweep_tree s) dirpath) as [[t'|]|]; [| |done];
    intros t0 p; simpl;
    (intros [Hold|Hnew%list_elem_of_singleton]%elem_of_app; [by apply Hs|]);
    injection Hnew as -> ->; done.
Qed.

(** The loop never removes the source directory: the one call of
    [os.rmdir] that would is the one the test on [dirpath] skips. *)
Lemma sweep_step_root s dirpath :
  sweep_root_exists s = true ->
  sweep_root_exists (sweep_step source_dir s dirpath) = true.
Proof.
  intros Hs. unfold sweep_step.
  destruct (bool_decide (dirpath = source_dir)) eqn:Hroot; [done|].
  apply bool_decide_eq_false in Hroot.
  destruct (negb (sweep_root_exists s)); [done|].
  destruct (listdir source_dir (sweep_tree s) dirpath) as [[|x l]|]; try done.
  destruct (os_rmdir source_dir (sweep_tree s) dirpath) as [[t'|]|] eqn:Hrm;
    try done.
  by apply os_rmdir_root in Hrm as [? _].
Qed.

Lemma remove_empty_dirs_root t :
  sweep_root_exists (remove_empty_dirs source_dir t) = true.
Proof.
  unfold remove_empty_dirs.
  assert (Hgen : ∀ dirs s, sweep_root_exists s = true ->
            sweep_root_exists (fold_left (sweep_step source_dir) dirs s) = true).
  { induction dirs as [|p dirs IH]; intros s Hs; simpl; [done|].
    by apply IH, sweep_step_root. }
  by apply Hgen.
Qed.

Lemma remove_empty_dirs_ok t : removed_ok source_dir (remove_empty_dirs source_dir t).
Proof.
  unfold remove_empty_dirs.
  assert (Hgen : ∀ dirs s, removed_ok source_dir s ->
            removed_ok source_dir (fold_left (sweep_step source_dir) dirs s)).
  { induction dirs as [|p dirs IH]; intros s Hs; simpl; [done|].
    by apply IH, sweep_step_ok. }
  apply Hgen. intros t0 p Hin. by apply elem_of_nil in Hin.
Qed.

(** Removing an empty directory loses no file. *)
Lemma drop_first_all_files top n ds :
  PyDict.get n ds = Some (Dir [] []) ->
  flat_map (fun '(m, c) => all_files (path_join top m) c) (drop_first n ds)
  = flat_map (fun '(m, c) => all_files (path_join top m) c) ds.
Proof.
  induction ds as [|[m c] ds IH]; simpl; [done|].
  destruct (String.eqb n m); [by intros [= ->]|].
  intros Hget. simpl. by rewrite IH.
Qed.

Lemma alter_first_all_files top n g ds :
  (∀ c, PyDict.get n ds = Some c ->
        all_files (path_join top n) (g c) = all_files (path_join top n) c) ->
  flat_map (fun '(m, c) => all_files (path_join top m) c) (alter_first n g ds)
  = flat_map (fun '(m, c) => all_files (path_join top m) c) ds.
Proof.
  induction ds as [|[m c] ds IH]; simpl; [done|].
  destruct (String.eqb_spec n m) as [->|Hne]; intros Hg; simpl.
  - by rewrite Hg.
  - by rewrite IH.
Qed.

Lemma rmdir_all_files rel t top :
  rel ≠ [] -> subtree rel t = Some (Dir [] []) ->
  all_files top
    (update_at (removelast rel)
       (fun d => Dir (tree_files d)
                   (drop_first (List.last rel "") (tree_subdirs d))) t)
  = all_files top t.
Proof.
  revert t top. induction rel as [|n rel IH]; intros t top Hne; [done|].
  destruct rel as [|m rel].
  - simpl. destruct t as [fs ds]. simpl.
    destruct (PyDict.get n ds) as [c|] eqn:Hget; [|done].
    intros [= ->]. by rewrite drop_first_all_files.
  - change (removelast (n :: m :: rel)) with (n :: removelast (m :: rel)).
    change (List.last (n :: m :: rel) "") with (List.last (m :: rel) "").
    cbn [subtree update_at]. destruct t as [fs ds]. cbn [tree_subdirs tree_files].
    destruct (PyDict.get n ds) as [c|] eqn:Hget; [|done].
    intros Hsub. cbn [all_files]. f_equal.
    apply alter_first_all_files. intros c' Hc'.
    rewrite Hget in Hc'. injection Hc' as <-. by apply IH.
Qed.

Lemma os_rmdir_all_files t dirpath t' :
  os_rmdir source_dir t dirpath = Some (Some t') ->
  all_files source_dir t' = all_files source_dir t.
Proof.
  unfold os_rmdir, listdir.
  destruct (strip_prefix source_dir dirpath) as [rel|] eqn:Hrel; [|done].
  destruct (subtree rel t) as [[fs ds]|] eqn:Hsub; [|done].
  destruct (fs ++ _) as [|x l] eqn:Hls; [|done].
  apply app_eq_nil in Hls as [-> Hds].
  assert (ds = []) as -> by (by destruct ds).
  destruct (rmdir_ok dirpath); [|done].
  destruct rel as [|n rel]; [done|].
  intros [= <-]. by apply (rmdir_all_files (n :: rel)).
Qed.

(** The sweep of empty directories keeps every file of the tree. *)
Lemma remove_empty_dirs_all_files t :
  all_files source_dir (sweep_tree (remove_empty_dirs source_dir t))
  = all_files source_dir t.
Proof.
  unfold remove_empty_dirs.
  assert (Hgen : ∀ dirs s,
            all_files source_dir
              (sweep_tree (fold_left (sweep_step source_dir) dirs s))
            = all_files source_dir (sweep_tree s)).
  { induction dirs as [|p dirs IH]; intros s; simpl; [done|].
    rewrite IH. unfold sweep_step.
    destruct (bool_decide (p = source_dir)); [done|].
    destruct (negb (sweep_root_exists s)); [done|].
    destruct (listdir source_dir (sweep_tree s) p) as [[|x l]|]; try done.
    destruct (os_rmdir source_dir (sweep_tree s) p) as [[t'|]|] eqn:Hrm;
      [| |done]; simpl.
    - by eapply os_rmdir_all_files.
    - by apply os_rmdir_root in Hrm as [_ ->]. }
  apply Hgen.
Qed.
End CleanupFacts.

(** C9.  A directory that either clean-up removes has an empty listing at
    the moment it is removed, after the files were removed and with its
    sub-directories visited before it, and it is never the source
    directory: the source directory is still there when either clean-up
    ends, also when it is left empty, where [os.rmdir] would have removed
    it.  Removing the empty directories loses no file of the tree. *)
Theorem cleanup_removes_only_empty {E : Env} (source_dir : Path)
    (processed : list Path) (dups : @PyDict.t (list Path)) (t t0 : Tree)
    (dirpath : Path) :
  (t0, dirpath)
    ∈ sweep_removed (img_clean_source_directory source_dir processed t)
  ∨ (t0, dirpath)
      ∈ sweep_removed (doc_clean_source_directory source_dir processed dups t) ->
  listdir source_dir t0 dirpath = Some []
  ∧ dirpath ≠ source_dir
  ∧ sweep_root_exists (img_clean_source_directory source_dir processed t)
    = true
  ∧ sweep_root_exists (doc_clean_source_directory source_dir processed dups t)
    = true
  ∧ (∀ t1, all_files source_dir (sweep_tree (remove_empty_dirs source_dir t1))
           = all_files source_dir t1).
Proof.
  intros Hin.
  assert (Hok : listdir source_dir t0 dirpath = Some [] ∧ dirpath ≠ source_dir).
  { destruct Hin as [Hin|Hin]; eapply remove_empty_dirs_ok; exact Hin. }
  destruct Hok as [Hls Hroot]. split; [exact Hls|]. split; [exact Hroot|].
  split; [apply remove_empty_dirs_root|].
  split; [apply remove_empty_dirs_root|].
  apply remove_empty_dirs_all_files.
Qed.

Lemma cleanup_removes_only_empty_witness :
  let E := toy_env [] in
  let t := Dir [".DS_Store"]
             [("a", Dir [] [("b", Dir [".DS_Store"] []); ("c", Dir [] [])]);
              ("d", Dir [] [("e", Dir [] [])])] in
  let t0 := Dir [] [("d", Dir [] [])] in
  let s := img_clean_source_directory ["src"] [] t in
  (t0, ["src"; "d"]) ∈ sweep_removed s
  ∧ listdir ["src"] t0 ["src"; "d"] = Some []
  ∧ ["src"; "d"] ≠ ["src"]
  ∧ listdir ["src"] (sweep_tree s) ["src"] = Some []
  ∧ os_rmdir ["src"] (sweep_tree s) ["src"] = Some None
  ∧ sweep_root_exists s = true.
Proof.
  intros E t t0 s.
  assert (Hin : (t0, ["src"; "d"]) ∈ sweep_removed s).
  { vm_compute. do 4 (apply elem_of_cons; right). apply elem_of_cons. by left. }
  split; [exact Hin|].
  destruct (cleanup_removes_only_empty ["src"] [] [] t t0 ["src"; "d"]
              (or_introl Hin)) as (Hls & Hroot & Hkept & _).
  split; [exact Hls|]. split; [exact Hroot|].
  split; [vm_compute; reflexivity|]. split; [vm_compute; reflexivity|].
  exact Hkept.
Defined.

(** Scenario: a source tree in which only empty sub-directories and
    [.DS_Store] files are left; all of them go, the root stays. *)
Example only_markers_left :
  let E := toy_env [] in
  let t := Dir [".DS_Store"]
             [("a", Dir [] [("b", Dir [".DS_Store"] []); ("c", Dir [] [])]);
              ("d", Dir [] [("e", Dir [] [])])] in
  sweep_tree (img_clean_source_directory ["src"] [] t) = Dir [] []
  ∧ sweep_tree (doc_clean_source_directory ["src"] [] [] t) = Dir [] [].
Proof. intros E t. split; vm_compute; reflexivity. Qed.

(** * Further properties *)

(** ** Normalized text *)

Section Normalize.
Context {E : Env}.

Lemma string_app_cons c (a b : string) : String c a +:+ b = String c (a +:+ b).
Proof. reflexivity. Qed.

Lemma string_app_nil_l (s : string) : "" +:+ s = s.
Proof. reflexivity. Qed.

Lemma string_app_nil_r (s : string) : s +:+ "" = s.
Proof.
  induction s as [|c s IH]; [done|]. by rewrite string_app_cons, IH.
Qed.

Lemma string_app_assoc (a b c : string) : (a +:+ b) +:+ c = a +:+ (b +:+ c).
Proof.
  induction a as [|x a IH]; [done|]. by rewrite !string_app_cons, IH.
Qed.

Lemma str_split_join content cur :
  Doc.str_join (Doc.str_split content cur) = cur +:+ without_space content.
Proof.
  revert cur. induction content as [|c rest IH]; intros cur; simpl.
  - destruct (String.eqb_spec cur "") as [->|_]; simpl; [done|].
    by rewrite !string_app_nil_r.
  - destruct (char_isspace c).
    + destruct (String.eqb_spec cur "") as [->|_]; simpl; by rewrite IH.
    + by rewrite IH, string_app_assoc.
Qed.

Lemma without_space_app a b :
  without_space (a +:+ b) = without_space a +:+ without_space b.
Proof.
  induction a as [|c a IH]; [done|]. rewrite string_app_cons. simpl.
  destruct (char_isspace c); [done|]. by rewrite string_app_cons, IH.
Qed.
End Normalize.

(** X1.  [normalize_content] drops exactly the white space characters of
    the text, keeps the others in their order, and lowers the result. *)
Theorem normalize_content_filter {E : Env} (content : string) :
  Doc.normalize_content content = str_lower (without_space content).
Proof. unfold Doc.normalize_content. by rewrite str_split_join. Qed.

(** X2.  White space put anywhere into a text, or taken out of it, does
    not change the normalized text. *)
Theorem normalize_content_space {E : Env} (a ws b : string) :
  forallb char_isspace (list_ascii_of_string ws) = true ->
  Doc.normalize_content (a +:+ ws +:+ b) = Doc.normalize_content (a +:+ b).
Proof.
  intros Hws. unfold Doc.normalize_content.
  rewrite !str_split_join, !without_space_app.
  assert (Hempty : without_space ws = "").
  { induction ws as [|c ws IH]; simpl in *; [done|].
    apply andb_prop in Hws as [-> Hws]. by apply IH. }
  by rewrite Hempty.
Qed.

Lemma normalize_content_space_witness :
  let E := toy_env [] in
  forallb char_isspace (list_ascii_of_string "   ") = true
  ∧ Doc.normalize_content ("Hello" +:+ "   " +:+ "World")
    = Doc.normalize_content ("Hello" +:+ "World").
Proof.
  intros E.
  assert (Hws : forallb char_isspace (list_ascii_of_string "   ") = true)
    by (vm_compute; reflexivity).
  split; [exact Hws|].
  exact (normalize_content_space "Hello" "   " "World" Hws).
Defined.

(** ** Signatures of binary documents *)

Section BinarySignature.
Context {E : Env}.

Lemma byte_of_hex_digits (b : byte) :
  byte_of_hex (hex_digit (Byte.to_N b / 16)) (hex_digit (Byte.to_N b mod 16))
  = Some b.
Proof. destruct b; vm_compute; reflexivity. Qed.

(** The hexadecimal form determines the bytes. *)
Lemma bytes_hex_inj (xs ys : list byte) : bytes_hex xs = bytes_hex ys -> xs = ys.
Proof.
  revert ys. induction xs as [|x xs IH]; intros [|y ys]; simpl; try done.
  intros [= Hhi Hlo Hrest].
  pose proof (byte_of_hex_digits x) as Hx.
  rewrite Hhi, Hlo, byte_of_hex_digits in Hx. injection Hx as <-.
  f_equal. by apply IH.
Qed.
End BinarySignature.

(** X3.  For readable documents of a binary format the signature is the
    hexadecimal form of the bytes, and a second document has the signature
    of the first exactly when it holds the same bytes. *)
Theorem binary_signature_exact {E : Env} (p q : Path) (cp cq : list byte)
    (h : string) :
  Doc.is_binary p = true -> Doc.is_binary q = true ->
  fs p = Some cp -> fs q = Some cq ->
  snd (Doc.compute_file_hash p) = Some h ->
  h = bytes_hex cp ∧ (snd (Doc.compute_file_hash q) = Some h <-> cq = cp).
Proof.
  intros Hbp Hbq Hp Hq.
  assert (Hhash : ∀ r c, Doc.is_binary r = true -> fs r = Some c ->
            snd (Doc.compute_file_hash r)
            = if String.eqb (bytes_hex c) "" then None else Some (bytes_hex c)).
  { intros r c Hb Hr. unfold Doc.compute_file_hash, Doc.read_file_content.
    rewrite Hb, Hr. by destruct (String.eqb _ _). }
  rewrite (Hhash p cp Hbp Hp), (Hhash q cq Hbq Hq).
  destruct (String.eqb_spec (bytes_hex cp) "") as [|Hne]; [done|].
  intros [= <-]. split; [done|]. split.
  - destruct (String.eqb_spec (bytes_hex cq) ""); [done|].
    intros [= Heq]. by apply bytes_hex_inj.
  - intros ->. by destruct (String.eqb_spec (bytes_hex cp) "").
Qed.

Lemma binary_signature_exact_witness :
  let E := toy_env [(["src"; "a.docx"], "PK data");
                    (["src"; "b.DOCX"], "PK data")] in
  Doc.is_binary ["src"; "a.docx"] = true ∧ Doc.is_binary ["src"; "b.DOCX"] = true
  ∧ fs ["src"; "a.docx"] = Some (list_byte_of_string "PK data")
  ∧ fs ["src"; "b.DOCX"] = Some (list_byte_of_string "PK data")
  ∧ snd (Doc.compute_file_hash ["src"; "a.docx"]) = Some "504b2064617461"
  ∧ snd (Doc.compute_file_hash ["src"; "b.DOCX"]) = Some "504b2064617461".
Proof.
  intros E.
  assert (Hbp : Doc.is_binary ["src"; "a.docx"] = true) by (vm_compute; reflexivity).
  assert (Hbq : Doc.is_binary ["src"; "b.DOCX"] = true) by (vm_compute; reflexivity).
  assert (Hp : fs ["src"; "a.docx"] = Some (list_byte_of_string "PK data"))
    by (vm_compute; reflexivity).
  assert (Hq : fs ["src"; "b.DOCX"] = Some (list_byte_of_string "PK data"))
    by (vm_compute; reflexivity).
  assert (Hh : snd (Doc.compute_file_hash ["src"; "a.docx"])
               = Some "504b2064617461") by (vm_compute; reflexivity).
  split; [exact Hbp|]. split; [exact Hbq|]. split; [exact Hp|].
  split; [exact Hq|]. split; [exact Hh|].
  exact (proj2 (proj2 (binary_signature_exact _ _ _ _ _ Hbp Hbq Hp Hq Hh)) eq_refl).
Defined.

(** ** What the document sorter relocates and what it removes *)

Section DictKeys.
Import PyDict.
Context {V : Type}.
Implicit Types (d : @t V) (k : string) (v : V).

Lemma keys_set k v d :
  keys (set k v d) = if mem k d then keys d else keys d ++ [k].
Proof.
  unfold mem, keys. induction d as [|[k' v'] d IH]; simpl; [done|].
  destruct (String.eqb_spec k k') as [->|Hne]; simpl; [done|].
  rewrite IH. by destruct (get k d).
Qed.

Lemma NoDup_keys_set k v d : NoDup (keys d) -> NoDup (keys (set k v d)).
Proof.
  intros Hnd. rewrite keys_set. destruct (mem k d) eqn:Hmem; [done|].
  apply NoDup_app. split; [done|]. split; [|apply NoDup_singleton].
  intros x Hx ->%list_elem_of_singleton.
  apply PyDictFacts.mem_keys in Hx. congruence.
Qed.

Lemma elem_of_get k v d : NoDup (keys d) -> (k, v) ∈ d -> get k d = Some v.
Proof.
  unfold keys. induction d as [|[k' v'] d IH]; simpl.
  - by intros _ ?%elem_of_nil.
  - intros [Hk Hnd]%NoDup_cons [[= -> ->]|Hin]%elem_of_cons.
    + by rewrite String.eqb_refl.
    + destruct (String.eqb_spec k k') as [->|Hne]; [|by apply IH].
      exfalso. apply Hk. apply list_elem_of_fmap. by exists (k', v).
Qed.
End DictKeys.

Lemma NoDup_keys_setdefault_append {A} k (x : A) (d : @PyDict.t (list A)) :
  NoDup (PyDict.keys d) -> NoDup (PyDict.keys (PyDict.setdefault_append k x d)).
Proof.
  unfold PyDict.setdefault_append.
  destruct (PyDict.get k d); apply NoDup_keys_set.
Qed.

Section DocPlan.
Context {E : Env}.
Import Doc DocFacts.

Lemma doc_duplicates_keys files st :
  NoDup (PyDict.keys (duplicates st)) ->
  (∀ h, PyDict.mem h (duplicates st) = true ->
        PyDict.mem h (hash_dict st) = true) ->
  NoDup (PyDict.keys (duplicates (fold_left dup_step files st)))
  ∧ ∀ h, PyDict.mem h (duplicates (fold_left dup_step files st)) = true ->
         PyDict.mem h (hash_dict (fold_left dup_step files st)) = true.
Proof.
  revert st. induction files as [|z files IH]; intros st Hnd Hsub; simpl;
    [done|].
  apply IH; unfold dup_step; rewrite (doc_compute_file_hash_eta z);
    destruct (snd (compute_file_hash z)) as [hz|]; try done;
    destruct (PyDict.mem hz (hash_dict st)) eqn:Hmem; simpl; try done.
  - by apply NoDup_keys_setdefault_append.
  - intros h. unfold PyDict.mem at 1.
    rewrite PyDictFacts.get_setdefault_append.
    destruct (decide (hz = h)) as [->|Hne]; [done|]. apply Hsub.
  - intros h Hh. unfold PyDict.mem. rewrite PyDictFacts.get_set.
    destruct (decide (hz = h)); [done|]. by apply Hsub.
Qed.

Lemma doc_plan_facts files :
  NoDup files ->
  let st := dup_run files in
  plans_agree files st (fold_left unique_step files (∅, ∅))
  ∧ NoDup (PyDict.keys (duplicates st))
  ∧ ∀ h, PyDict.mem h (duplicates st) = true ->
         PyDict.mem h (hash_dict st) = true.
Proof.
  intros Hnd st. split.
  - apply (plans_agree_run files [] dup_init (∅, ∅)); [done|].
    split; [|split; [|split]]; simpl.
    + intros h'. split; [by intros ?%not_elem_of_empty|done].
    + intros p. split; [by intros ?%not_elem_of_empty|by intros [? ?]].
    + done.
    + done.
  - apply doc_duplicates_keys; [apply NoDup_nil_2|done].
Qed.

Lemma doc_listed_get files h l :
  NoDup files -> (h, l) ∈ find_duplicates files ->
  PyDict.get h (duplicates (dup_run files)) = Some l.
Proof.
  intros Hnd Hin. destruct (doc_plan_facts files Hnd) as (_ & Hkeys & _).
  by apply elem_of_get.
Qed.
End DocPlan.

(** X4.  In the document sorter, for a list of distinct paths, the first
    member of every group is among the files handed over for relocation,
    and every other member is left out of them and is among the files
    removed as duplicates. *)
Theorem doc_first_seen_relocated {E : Env} (files : list Path) (h : string)
    (first : Path) (others : list Path) :
  NoDup files ->
  Doc.group_of (Doc.dup_run files) h = first :: others ->
  first ∈ fst (Doc.main_plan files)
  ∧ ∀ o, o ∈ others ->
         (o ∉ fst (Doc.main_plan files)) ∧ o ∈ snd (Doc.main_plan files).
Proof. apply doc_main_keeps_first_seen. Qed.

Lemma doc_first_seen_relocated_witness :
  let E := toy_env [(["src"; "a.txt"], "Hello World");
                    (["src"; "b.txt"], "hello   world");
                    (["src"; "c.txt"], "HELLOWORLD")] in
  let files := [["src"; "a.txt"]; ["src"; "b.txt"]; ["src"; "c.txt"]] in
  let h := "68656c6c6f776f726c6400000000000000000000000000000000000000000000" in
  NoDup files
  ∧ Doc.group_of (Doc.dup_run files) h
    = ["src"; "a.txt"] :: [["src"; "b.txt"]; ["src"; "c.txt"]]
  ∧ ["src"; "a.txt"] ∈ fst (Doc.main_plan files)
  ∧ (["src"; "c.txt"] ∉ fst (Doc.main_plan files))
  ∧ ["src"; "c.txt"] ∈ snd (Doc.main_plan files).
Proof.
  intros E files h.
  assert (Hnd : NoDup files) by (apply (bool_decide_unpack _); vm_compute; exact I).
  assert (Hg : Doc.group_of (Doc.dup_run files) h
               = ["src"; "a.txt"] :: [["src"; "b.txt"]; ["src"; "c.txt"]])
    by (vm_compute; reflexivity).
  destruct (doc_first_seen_relocated files h _ _ Hnd Hg) as [Hfirst Hothers].
  split; [exact Hnd|]. split; [exact Hg|]. split; [exact Hfirst|].
  apply Hothers. apply elem_of_cons. right. apply elem_of_cons. by left.
Defined.

(** X5.  In the document sorter, for a list of distinct paths, every file
    with a signature is either handed over for relocation or removed as a
    duplicate, never both, and nothing outside the list is. *)
Theorem doc_plan_partition {E : Env} (files : list Path) (p : Path) :
  NoDup files ->
  (p ∈ fst (Doc.main_plan files) ∨ p ∈ snd (Doc.main_plan files) -> p ∈ files)
  ∧ ¬ (p ∈ fst (Doc.main_plan files) ∧ p ∈ snd (Doc.main_plan files))
  ∧ (p ∈ files -> is_Some (snd (Doc.compute_file_hash p)) ->
     p ∈ fst (Doc.main_plan files) ∨ p ∈ snd (Doc.main_plan files)).
Proof.
  intros Hnd.
  destruct (doc_plan_facts files Hnd) as ((_ & Hvals & Hdict & Hdups) & _ & _).
  assert (Hlisted : p ∈ snd (Doc.main_plan files) ->
            ∃ h l, PyDict.get h (Doc.duplicates (Doc.dup_run files)) = Some l
                   ∧ p ∈ l).
  { unfold Doc.main_plan, Doc.duplicate_files_of. simpl.
    intros (h & l & Hin & Hp)%elem_of_concat_values.
    exists h, l. split; [by apply doc_listed_get|done]. }
  split; [|split].
  - intros [Hp|Hp].
    + apply Hvals in Hp as [h Hh]. by destruct (Hdict h p Hh).
    + destruct (Hlisted Hp) as (h & l & Hl & Hpl).
      by destruct (Hdups h l p Hl Hpl).
  - intros [Hu Hd]. apply Hvals in Hu as [h Hh].
    destruct (Hlisted Hd) as (h' & l & Hl & Hpl).
    destruct (Hdups h' l p Hl Hpl) as (_ & Hh' & Hne).
    destruct (Hdict h p Hh) as [_ Hhp]. rewrite Hhp in Hh'.
    injection Hh' as ->. done.
  - intros Hin [h Hh].
    pose proof (DocFacts.dup_run_groups files Doc.dup_init p h Hin Hh) as Hg.
    fold (Doc.dup_run files) in Hg.
    destruct (Doc.group_of (Doc.dup_run files) h) as [|c others] eqn:Hgroup;
      [by apply elem_of_nil in Hg|].
    destruct (doc_main_keeps_first_seen files h c others Hnd Hgroup)
      as [Hc Hothers].
    apply elem_of_cons in Hg as [->|Ho]; [by left|].
    right. by apply Hothers.
Qed.

Lemma doc_plan_partition_witness :
  let E := toy_env [(["src"; "a.txt"], "Hello World");
                    (["src"; "b.txt"], "hello   world")] in
  let files := [["src"; "a.txt"]; ["src"; "b.txt"]] in
  NoDup files
  ∧ ["src"; "b.txt"] ∈ files
  ∧ is_Some (snd (Doc.compute_file_hash ["src"; "b.txt"]))
  ∧ (["src"; "b.txt"] ∈ fst (Doc.main_plan files)
     ∨ ["src"; "b.txt"] ∈ snd (Doc.main_plan files)).
Proof.
  intros E files.
  assert (Hnd : NoDup files) by (apply (bool_decide_unpack _); vm_compute; exact I).
  assert (Hin : ["src"; "b.txt"] ∈ files)
    by (apply elem_of_cons; right; apply elem_of_cons; by left).
  assert (Hh : is_Some (snd (Doc.compute_file_hash ["src"; "b.txt"])))
    by (vm_compute; by eexists).
  split; [exact Hnd|]. split; [exact Hin|]. split; [exact Hh|].
  exact (proj2 (proj2 (doc_plan_partition files ["src"; "b.txt"] Hnd)) Hin Hh).
Defined.



(** ** Groups of the image sorter *)

Section ImageGroups.
Context {E : Env}.
Import Image ImageFacts.

(** With a threshold that is not negative, a signature that finds nothing
    similar is no key of [hash_dict]. *)
Lemma find_similar_None_fresh d hz t :
  (0 <= t)%Z -> find_similar d hz t = None -> PyDict.get hz d = None.
Proof.
  intros Ht Hnone. unfold find_similar in Hnone.
  destruct (PyDict.get hz d) as [v|] eqn:Hget; [|done]. exfalso.
  assert (Hkey : In hz (PyDict.keys d)).
  { apply list_elem_of_In, PyDictFacts.mem_keys. unfold PyDict.mem.
    by rewrite Hget. }
  pose proof (find_none _ _ Hnone hz Hkey) as Hp. simpl in Hp.
  rewrite Nat.eqb_refl, char_diff_refl in Hp. simpl in Hp.
  apply Z.leb_gt in Hp. lia.
Qed.

Lemma image_step_group_mono t st z h x :
  (0 <= t)%Z -> x ∈ group_of st h -> x ∈ group_of (dup_step t st z) h.
Proof.
  intros Ht. unfold dup_step. rewrite (compute_file_hash_eta z).
  destruct (snd (compute_file_hash z)) as [hz|]; [|done].
  assert (Happ : ∀ k, x ∈ group_of st h ->
            x ∈ group_of {| hash_dict := hash_dict st;
                            duplicates := PyDict.setdefault_append k z
                                            (duplicates st) |} h).
  { intros k. unfold group_of. simpl.
    destruct (PyDict.get h (hash_dict st)) as [v|]; [|done].
    rewrite PyDictFacts.get_setdefault_append.
    destruct (decide (k = h)) as [->|Hne]; [|done].
    rewrite !elem_of_cons. intros [->|Hx]; [by left|right].
    simpl. apply elem_of_app. by left. }
  assert (Hset : PyDict.get hz (hash_dict st) = None -> x ∈ group_of st h ->
            x ∈ group_of {| hash_dict := PyDict.set hz z (hash_dict st);
                            duplicates := duplicates st |} h).
  { intros Hfresh. unfold group_of. simpl. rewrite PyDictFacts.get_set.
    destruct (decide (hz = h)) as [->|Hne]; [|done].
    rewrite Hfresh. by intros ?%elem_of_nil. }
  destruct (is_image z).
  - destruct (find_similar (hash_dict st) hz t) as [k|] eqn:Hsim; [apply Happ|].
    apply Hset. by eapply find_similar_None_fresh.
  - destruct (PyDict.mem hz (hash_dict st)) eqn:Hmem; [apply Happ|].
    apply Hset. unfold PyDict.mem in Hmem.
    by destruct (PyDict.get hz (hash_dict st)).
Qed.

Lemma image_step_group_new t st z hz :
  snd (compute_file_hash z) = Some hz ->
  ∃ h, z ∈ group_of (dup_step t st z) h.
Proof.
  intros Hz. unfold dup_step. rewrite (compute_file_hash_eta z), Hz.
  assert (Happ : ∀ k, PyDict.mem k (hash_dict st) = true ->
            z ∈ group_of {| hash_dict := hash_dict st;
                            duplicates := PyDict.setdefault_append k z
                                            (duplicates st) |} k).
  { intros k [v Hv]%PyDictFacts.mem_true. unfold group_of. simpl.
    rewrite Hv, PyDictFacts.get_setdefault_append.
    destruct (decide (k = k)); [|done]. simpl.
    apply elem_of_cons. right. apply elem_of_app. right.
    by apply list_elem_of_singleton. }
  assert (Hset : z ∈ group_of {| hash_dict := PyDict.set hz z (hash_dict st);
                                 duplicates := duplicates st |} hz).
  { unfold group_of. simpl. rewrite PyDictFacts.get_set_eq.
    apply elem_of_cons. by left. }
  destruct (is_image z).
  - destruct (find_similar (hash_dict st) hz t) as [k|] eqn:Hsim; [|eauto].
    exists k. apply Happ.
    apply find_similar_Some in Hsim as (Hk & _). by apply PyDictFacts.mem_keys.
  - destruct (PyDict.mem hz (hash_dict st)) eqn:Hmem; eauto.
Qed.

Lemma image_run_groups t files st x hx :
  (0 <= t)%Z -> x ∈ files -> snd (compute_file_hash x) = Some hx ->
  ∃ h, x ∈ group_of (fold_left (dup_step t) files st) h.
Proof.
  intros Ht. revert st. induction files as [|z files IH]; intros st Hin Hx; simpl.
  - by apply elem_of_nil in Hin.
  - apply elem_of_cons in Hin as [->|Hin]; [|by apply IH].
    destruct (image_step_group_new t st z hx Hx) as [h Hh]. exists h.
    clear IH Hx. revert Hh. generalize (dup_step t st z). clear st.
    induction files as [|y files IH]; intros st Hh; simpl; [done|].
    by apply IH, image_step_group_mono.
Qed.

Lemma char_diff_zero a b :
  String.length a = String.length b -> char_diff a b = 0 -> a = b.
Proof.
  revert b. induction a as [|c1 a IH]; intros [|c2 b]; simpl; try done.
  intros [= Hlen]. destruct (Ascii.eqb_spec c1 c2) as [->|Hne]; [|done].
  intros Hd. f_equal. by apply IH.
Qed.

(** Every member of a group has a signature, and it is the signature of
    the group or, for an image, one within the threshold of it. *)
Lemma member_within files t h x :
  member (dup_run files t) h x ->
  ∃ hx, snd (compute_file_hash x) = Some hx
        ∧ (h = hx
           ∨ (is_image x = true
              ∧ String.length h = String.length hx
              ∧ (Z.of_nat (char_diff hx h) <= t)%Z)).
Proof.
  unfold dup_run.
  apply (dup_run_member_ind (fun h x =>
    ∃ hx, snd (compute_file_hash x) = Some hx
          ∧ (h = hx
             ∨ (is_image x = true
                ∧ String.length h = String.length hx
                ∧ (Z.of_nat (char_diff hx h) <= t)%Z)))).
  - intros st z k (hz & Hz & Hk) _. exists hz. split; [done|].
    destruct (is_image z); [|by left].
    destruct Hk as [Hsim|[_ ->]]; [|by left].
    apply find_similar_Some in Hsim as (_ & Hlen & Hdiff). by right.
  - intros h' x' Hm. by apply member_init in Hm.
Qed.

(** Below zero the threshold lets no image into a list of duplicates. *)
Lemma image_negative_lists t files st :
  (t < 0)%Z ->
  (∀ h l x, (h, l) ∈ duplicates st -> x ∈ l -> is_image x = false) ->
  ∀ h l x, (h, l) ∈ duplicates (fold_left (dup_step t) files st) -> x ∈ l ->
           is_image x = false.
Proof.
  intros Ht. revert st. induction files as [|z files IH]; intros st Hst; simpl;
    [done|].
  apply IH. intros h l x. unfold dup_step.
  rewrite (compute_file_hash_eta z).
  destruct (snd (compute_file_hash z)) as [hz|]; [|apply Hst].
  destruct (is_image z) eqn:Himg.
  - rewrite find_similar_neg by done. apply Hst.
  - destruct (PyDict.mem _ _); simpl; [|apply Hst].
    intros Hin Hx.
    destruct (elem_of_setdefault_append _ _ _ _ _ _ Hin Hx)
      as [[-> _]|(l0 & Hl0 & Hx0)]; [done|by eapply Hst].
Qed.

Lemma image_run_inv_step t seen st z :
  z ∉ seen -> image_run_inv t seen st ->
  image_run_inv t (seen ++ [z]) (dup_step t st z).
Proof.
  intros Hnew [Hdict Hdups].
  assert (Hseen : ∀ p, p ∈ seen -> p ∈ seen ++ [z])
    by (intros p Hp; apply elem_of_app; by left).
  assert (Hz_in : z ∈ seen ++ [z])
    by (apply elem_of_app; right; by apply list_elem_of_singleton).
  unfold dup_step. rewrite (compute_file_hash_eta z).
  destruct (snd (compute_file_hash z)) as [hz|] eqn:Hz.
  2:{ split.
      - intros h p Hp. destruct (Hdict h p Hp). auto.
      - intros h l o Hl Ho. destruct (Hdups h l o Hl Ho) as (? & ? & ? & ?).
        auto. }
  assert (Happ : ∀ k, PyDict.mem k (hash_dict st) = true ->
            (k = hz ∨ (is_image z = true ∧ String.length k = String.length hz
                       ∧ (Z.of_nat (char_diff hz k) <= t)%Z)) ->
            image_run_inv t (seen ++ [z])
              {| hash_dict := hash_dict st;
                 duplicates := PyDict.setdefault_append k z (duplicates st) |}).
  { intros k Hk Hnear. split; simpl.
    - intros h p Hp. destruct (Hdict h p Hp). auto.
    - intros h l o Hin Ho.
      destruct (elem_of_setdefault_append _ _ _ _ _ _ Hin Ho)
        as [[-> ->]|(l0 & Hl0 & Ho0)].
      + split; [done|]. split; [done|]. split.
        * intros h' Hh'. by destruct (Hdict h' z Hh').
        * exists hz. split; [done|]. destruct Hnear as [->|?]; auto.
      + destruct (Hdups h l0 o Hl0 Ho0) as (? & ? & ? & ?). auto. }
  assert (Hset : image_run_inv t (seen ++ [z])
                   {| hash_dict := PyDict.set hz z (hash_dict st);
                      duplicates := duplicates st |}).
  { split; simpl.
    - intros h p. rewrite PyDictFacts.get_set.
      destruct (decide (hz = h)) as [->|Hne].
      + by intros [= <-].
      + intros Hp. destruct (Hdict h p Hp). auto.
    - intros h l o Hin Ho.
      destruct (Hdups h l o Hin Ho) as (Hos & Hmem & Hnot & Hnear).
      split; [auto|]. split; [|split; [|done]].
      + unfold PyDict.mem in *. rewrite PyDictFacts.get_set.
        by destruct (decide (hz = h)).
      + intros h'. rewrite PyDictFacts.get_set.
        destruct (decide (hz = h')); [|apply Hnot].
        intros [= ->]. done. }
  destruct (is_image z) eqn:Himg.
  - destruct (find_similar (hash_dict st) hz t) as [k|] eqn:Hsim; [|exact Hset].
    apply find_similar_Some in Hsim as (Hk & Hlen & Hdiff).
    apply Happ; [by apply PyDictFacts.mem_keys|]. by right.
  - destruct (PyDict.mem hz (hash_dict st)) eqn:Hmem; [|exact Hset].
    apply Happ; [done|by left].
Qed.

Lemma image_run_inv_run t files :
  NoDup files -> image_run_inv t files (dup_run files t).
Proof.
  intros Hnd. unfold dup_run.
  assert (Hgen : ∀ rest seen st, NoDup (seen ++ rest) -> image_run_inv t seen st ->
            image_run_inv t (seen ++ rest) (fold_left (dup_step t) rest st)).
  { induction rest as [|z rest IH]; intros seen st Hnd' Hinv; simpl.
    - by rewrite app_nil_r.
    - replace (seen ++ z :: rest) with ((seen ++ [z]) ++ rest) in *
        by (by rewrite <- app_assoc).
      apply IH; [done|]. apply image_run_inv_step; [|done].
      apply NoDup_app in Hnd' as (Hnd' & _ & _).
      apply NoDup_app in Hnd' as (_ & Hdisj & _).
      intros Hz. apply (Hdisj z Hz). by apply list_elem_of_singleton. }
  apply (Hgen files [] dup_init); [done|].
  split; simpl; [done|]. intros h l o Hin. by apply elem_of_nil in Hin.
Qed.

(** Every path in a list of [duplicates] is one of the files. *)
Lemma image_listed_in_files t (files : list Path) st :
  (∀ h l x, (h, l) ∈ duplicates st -> x ∈ l -> x ∈ files) ->
  ∀ rest, (∀ x, x ∈ rest -> x ∈ files) ->
    ∀ h l x, (h, l) ∈ duplicates (fold_left (dup_step t) rest st) -> x ∈ l ->
             x ∈ files.
Proof.
  intros Hst rest. revert st Hst.
  induction rest as [|z rest IH]; intros st Hst Hsub; simpl; [done|].
  apply IH; [|intros x Hx; apply Hsub, elem_of_cons; by right].
  intros h l x. unfold dup_step. rewrite (compute_file_hash_eta z).
  destruct (snd (compute_file_hash z)) as [hz|]; [|apply Hst].
  assert (Happ : ∀ k, (h, l) ∈ PyDict.setdefault_append k z (duplicates st) ->
            x ∈ l -> x ∈ files).
  { intros k Hin Hx.
    destruct (elem_of_setdefault_append _ _ _ _ _ _ Hin Hx)
      as [[-> _]|(l0 & Hl0 & Hx0)]; [|by eapply Hst].
    apply Hsub, elem_of_cons. by left. }
  destruct (is_image z).
  - destruct (find_similar _ _ _); simpl; [apply Happ|apply Hst].
  - destruct (PyDict.mem _ _); simpl; [apply Happ|apply Hst].
Qed.
End ImageGroups.

(** X7.  With a threshold that is not negative, every file of the list
    that has a signature ends up in a group of the image sorter. *)
Theorem image_signed_files_grouped {E : Env} (files : list Path) (t : Z)
    (x : Path) (hx : string) :
  (0 <= t)%Z -> x ∈ files -> snd (Image.compute_file_hash x) = Some hx ->
  ∃ h, x ∈ Image.group_of (Image.dup_run files t) h.
Proof. intros Ht Hin Hx. by eapply image_run_groups. Qed.

Lemma image_signed_files_grouped_witness :
  let E := toy_env [(["src"; "a.jpg"], "0000000000000000");
                    (["src"; "b.jpg"], "1000000000000000")] in
  let files := [["src"; "a.jpg"]; ["src"; "b.jpg"]] in
  (0 <= 1)%Z ∧ ["src"; "b.jpg"] ∈ files
  ∧ snd (Image.compute_file_hash ["src"; "b.jpg"]) = Some "1000000000000000"
  ∧ ∃ h, ["src"; "b.jpg"] ∈ Image.group_of (Image.dup_run files 1) h.
Proof.
  intros E files.
  assert (Ht : (0 <= 1)%Z) by lia.
  assert (Hin : ["src"; "b.jpg"] ∈ files)
    by (apply elem_of_cons; right; apply elem_of_cons; by left).
  assert (Hx : snd (Image.compute_file_hash ["src"; "b.jpg"])
               = Some "1000000000000000") by (vm_compute; reflexivity).
  split; [exact Ht|]. split; [exact Hin|]. split; [exact Hx|].
  exact (image_signed_files_grouped files 1 _ _ Ht Hin Hx).
Defined.

(** X8.  With a negative threshold the image sorter treats no image as a
    duplicate, not even one with the very hash of an earlier image. *)
Theorem image_negative_threshold {E : Env} (files : list Path) (t : Z)
    (h : string) (l : list Path) (x : Path) :
  (t < 0)%Z -> (h, l) ∈ Image.find_duplicates files t -> x ∈ l ->
  Image.is_image x = false.
Proof.
  intros Ht. apply (image_negative_lists t files Image.dup_init Ht).
  intros h' l' x' Hin. by apply elem_of_nil in Hin.
Qed.

Lemma image_negative_threshold_witness :
  let E := toy_env [(["src"; "a.jpg"], "0000000000000000");
                    (["src"; "b.jpg"], "0000000000000000");
                    (["src"; "c.txt"], "text"); (["src"; "d.txt"], "text")] in
  let files := [["src"; "a.jpg"]; ["src"; "b.jpg"]; ["src"; "c.txt"];
                ["src"; "d.txt"]] in
  (-1 < 0)%Z
  ∧ Image.find_duplicates files (-1)
    = [("34746578740000000000000000000000", [["src"; "d.txt"]])]
  ∧ Image.is_image ["src"; "d.txt"] = false.
Proof.
  intros E files.
  assert (Ht : (-1 < 0)%Z) by lia.
  assert (Hd : Image.find_duplicates files (-1)
               = [("34746578740000000000000000000000", [["src"; "d.txt"]])])
    by (vm_compute; reflexivity).
  split; [exact Ht|]. split; [exact Hd|].
  apply (image_negative_threshold files (-1)
           "34746578740000000000000000000000" [["src"; "d.txt"]]); [exact Ht| |].
  - rewrite Hd. apply elem_of_cons. by left.
  - apply elem_of_cons. by left.
Defined.

(** X9.  Every member of a group of the image sorter has a signature: the
    signature of the group, or, for an image, one of the same length that
    differs from it in at most [hash_threshold] characters. *)
Theorem image_members_within_threshold {E : Env} (files : list Path) (t : Z)
    (h : string) (x : Path) :
  x ∈ Image.group_of (Image.dup_run files t) h ->
  ∃ hx, snd (Image.compute_file_hash x) = Some hx
        ∧ (h = hx
           ∨ (Image.is_image x = true
              ∧ String.length h = String.length hx
              ∧ (Z.of_nat (Image.char_diff hx h) <= t)%Z)).
Proof.
  intros Hx%ImageFacts.group_of_member. by apply (member_within files t).
Qed.

Lemma image_members_within_threshold_witness :
  let E := toy_env [(["src"; "a.jpg"], "0000000000000000");
                    (["src"; "b.jpg"], "1000000000000000")] in
  let files := [["src"; "a.jpg"]; ["src"; "b.jpg"]] in
  ["src"; "b.jpg"] ∈ Image.group_of (Image.dup_run files 1) "0000000000000000"
  ∧ ∃ hx, snd (Image.compute_file_hash ["src"; "b.jpg"]) = Some hx
          ∧ ("0000000000000000" = hx
             ∨ (Image.is_image ["src"; "b.jpg"] = true
                ∧ String.length "0000000000000000" = String.length hx
                ∧ (Z.of_nat (Image.char_diff hx "0000000000000000") <= 1)%Z)).
Proof.
  intros E files.
  assert (Hx : ["src"; "b.jpg"]
               ∈ Image.group_of (Image.dup_run files 1) "0000000000000000")
    by (vm_compute; apply elem_of_cons; right; apply elem_of_cons; by left).
  split; [exact Hx|].
  exact (image_members_within_threshold files 1 _ _ Hx).
Defined.

(** X10.  At threshold 0, the threshold [main] runs with, every member of a
    group has exactly the signature of the group, images included. *)
Theorem image_default_threshold_exact {E : Env} (files : list Path)
    (h : string) (x : Path) :
  x ∈ Image.group_of (Image.dup_run files 0) h ->
  snd (Image.compute_file_hash x) = Some h.
Proof.
  intros Hin%ImageFacts.group_of_member.
  destruct (member_within files 0 _ _ Hin)
    as (hx & Hx & [->|(_ & Hlen & Hdiff)]); [done|].
  rewrite Hx. f_equal. apply char_diff_zero; [done|lia].
Qed.

Lemma image_default_threshold_exact_witness :
  let E := toy_env [(["src"; "a.jpg"], "0000000000000000");
                    (["src"; "b.jpg"], "0000000000000000")] in
  let files := [["src"; "a.jpg"]; ["src"; "b.jpg"]] in
  ["src"; "b.jpg"] ∈ Image.group_of (Image.dup_run files 0) "0000000000000000"
  ∧ snd (Image.compute_file_hash ["src"; "b.jpg"]) = Some "0000000000000000".
Proof.
  intros E files.
  assert (Hx : ["src"; "b.jpg"]
               ∈ Image.group_of (Image.dup_run files 0) "0000000000000000")
    by (vm_compute; apply elem_of_cons; right; apply elem_of_cons; by left).
  split; [exact Hx|].
  exact (image_default_threshold_exact files _ _ Hx).
Defined.

Lemma image_unique_files_spec {E : Env} (files : list Path) (x : Path) :
  x ∈ snd (Image.main_plan files)
  <-> x ∈ files ∧ x ∉ fst (Image.main_plan files).
Proof.
  unfold Image.main_plan, Image.unique_files_of. simpl.
  rewrite elem_of_list_to_set, list_elem_of_filter. tauto.
Qed.

(** X11.  [main] of the image sorter removes only paths of the list it
    scanned, and hands over for relocation exactly the scanned paths it
    does not remove. *)
Theorem image_plan_within_files {E : Env} (files : list Path) (x : Path) :
  (x ∈ fst (Image.main_plan files) -> x ∈ files)
  ∧ (x ∈ snd (Image.main_plan files)
     <-> x ∈ files ∧ x ∉ fst (Image.main_plan files)).
Proof.
  split.
  - unfold Image.main_plan. simpl.
    intros (h & l & Hin & Hx)%duplicate_paths_listed.
    eapply (image_listed_in_files 0 files Image.dup_init); [|done|exact Hin|done].
    intros h' l' x' Hin'. by apply elem_of_nil in Hin'.
  - apply image_unique_files_spec.
Qed.

Lemma image_plan_within_files_witness :
  let E := toy_env [(["src"; "a.jpg"], "00ff00ff00ff00ff");
                    (["src"; "b.jpg"], "00ff00ff00ff00ff");
                    (["src"; "c.jpg"], "00ff00ff00ff00ff")] in
  let files := [["src"; "a.jpg"]; ["src"; "b.jpg"]; ["src"; "c.jpg"]] in
  ["src"; "c.jpg"] ∈ fst (Image.main_plan files)
  ∧ ["src"; "c.jpg"] ∈ files.
Proof.
  intros E files.
  assert (Hx : ["src"; "c.jpg"] ∈ fst (Image.main_plan files)).
  { apply elem_of_elements.
    assert (Hel : elements (fst (Image.main_plan files)) = [["src"; "c.jpg"]])
      by (vm_compute; reflexivity).
    rewrite Hel. apply elem_of_cons. by left. }
  split; [exact Hx|].
  exact (proj1 (image_plan_within_files files ["src"; "c.jpg"]) Hx).
Defined.

(** X12.  In the image sorter, for a list of distinct paths, the first-seen
    path of every signature is handed over for relocation, and every path
    [main] removes leaves a different file with the same signature among
    the files handed over. *)
Theorem image_group_keeps_a_file {E : Env} (files : list Path) :
  NoDup files ->
  (∀ h c, PyDict.get h (Image.hash_dict (Image.dup_run files 0)) = Some c ->
          c ∈ snd (Image.main_plan files))
  ∧ (∀ x, x ∈ fst (Image.main_plan files) ->
       ∃ c, c ∈ snd (Image.main_plan files) ∧ c ≠ x
            ∧ is_Some (snd (Image.compute_file_hash x))
            ∧ snd (Image.compute_file_hash c) = snd (Image.compute_file_hash x)).
Proof.
  intros Hnd. destruct (image_run_inv_run 0 files Hnd) as [Hdict Hdups].
  assert (Hkept : ∀ h c,
            PyDict.get h (Image.hash_dict (Image.dup_run files 0)) = Some c ->
            c ∈ snd (Image.main_plan files)).
  { intros h c Hc. apply image_unique_files_spec.
    destruct (Hdict h c Hc) as [Hin _]. split; [done|].
    unfold Image.main_plan. simpl.
    intros (h' & l & Hl & Hcl)%duplicate_paths_listed.
    destruct (Hdups h' l c Hl Hcl) as (_ & _ & Hnot & _). by eapply Hnot. }
  split; [exact Hkept|].
  intros x Hx. unfold Image.main_plan in Hx. simpl in Hx.
  apply duplicate_paths_listed in Hx as (h & l & Hl & Hxl).
  destruct (Hdups h l x Hl Hxl) as (_ & Hmem & Hnot & hx & Hhx & Hnear).
  apply PyDictFacts.mem_true in Hmem as [c Hc].
  exists c. split; [by eapply Hkept|].
  split; [intros ->; by eapply Hnot|]. split; [by rewrite Hhx|].
  destruct (Hdict h c Hc) as [_ Hhc]. rewrite Hhc, Hhx. f_equal.
  destruct Hnear as [->|(_ & Hlen & Hdiff)]; [done|].
  symmetry. apply char_diff_zero; [done|lia].
Qed.

Lemma image_group_keeps_a_file_witness :
  let E := toy_env [(["src"; "a.jpg"], "00ff00ff00ff00ff");
                    (["src"; "b.jpg"], "00ff00ff00ff00ff");
                    (["src"; "c.jpg"], "00ff00ff00ff00ff")] in
  let files := [["src"; "a.jpg"]; ["src"; "b.jpg"]; ["src"; "c.jpg"]] in
  NoDup files
  ∧ ["src"; "c.jpg"] ∈ fst (Image.main_plan files)
  ∧ ∃ c, c ∈ snd (Image.main_plan files) ∧ c ≠ ["src"; "c.jpg"]
         ∧ is_Some (snd (Image.compute_file_hash ["src"; "c.jpg"]))
         ∧ snd (Image.compute_file_hash c)
           = snd (Image.compute_file_hash ["src"; "c.jpg"]).
Proof.
  intros E files.
  assert (Hnd : NoDup files) by (apply (bool_decide_unpack _); vm_compute; exact I).
  assert (Hx : ["src"; "c.jpg"] ∈ fst (Image.main_plan files)).
  { apply elem_of_elements.
    assert (Hel : elements (fst (Image.main_plan files)) = [["src"; "c.jpg"]])
      by (vm_compute; reflexivity).
    rewrite Hel. apply elem_of_cons. by left. }
  split; [exact Hnd|]. split; [exact Hx|].
  exact (proj2 (image_group_keeps_a_file files Hnd) _ Hx).
Defined.

(** ** Placing files *)

Section Placing.
Context {E : Env}.
Variable dest_base_dir : Path.
Variable max_files : Z.

(** With a limit that is not positive no folder ever has room. *)
Lemma next_batch_loop_no_room fuel base n d :
  (max_files <= 0)%Z -> next_batch_loop fuel base max_files n d = None.
Proof.
  intros Hmax. revert n d. induction fuel as [|fuel IH]; intros n d; simpl;
    [done|].
  destruct (Z.ltb_spec (Z.of_nat (size (entries
              (mkdir_parents d (path_join base (batch_name n)))
              (path_join base (batch_name n))))) max_files); [lia|apply IH].
Qed.

(** A loop whose body appends to a list appends one piece per element. *)
Lemma for_each_appends {A S B} (body : S -> A -> option S) (m : S -> list B)
    (g : A -> list B) xs :
  (∀ s a s', body s a = Some s' -> m s' = m s ++ g a) ->
  ∀ s s', for_each body xs s = Some s' -> m s' = m s ++ flat_map g xs.
Proof.
  intros Hbody. induction xs as [|x xs IH]; intros s s'; simpl.
  - intros [= <-]. by rewrite app_nil_r.
  - destruct (body s x) as [s1|] eqn:Hb; [|done].
    intros Hrun. rewrite (IH _ _ Hrun), (Hbody _ _ _ Hb). by rewrite app_assoc.
Qed.

Lemma try_transfer_sources st f folder :
  map (fun r => fst (fst r)) (transfers (try_transfer st f folder))
  = map (fun r => fst (fst r)) (transfers st) ++ [f].
Proof.
  destruct (try_transfer_log st f folder) as [o ->]. by rewrite map_app.
Qed.

Lemma doc_place_sources fuel category st f st' :
  doc_place dest_base_dir max_files fuel category st f = Some st' ->
  map (fun r => fst (fst r)) (transfers st')
  = map (fun r => fst (fst r)) (transfers st) ++ [f].
Proof.
  unfold doc_place, doc_get_next_batch_folder.
  destruct (next_batch_loop _ _ _ _ _) as [[[folder num] d1]|]; [|done].
  intros [= <-]. by rewrite try_transfer_sources.
Qed.

Lemma img_place_sources fuel st f st' :
  img_place dest_base_dir max_files fuel st f = Some st' ->
  map (fun r => fst (fst r)) (transfers st')
  = map (fun r => fst (fst r)) (transfers st) ++ [f].
Proof.
  unfold img_place, img_get_next_batch_folder.
  destruct (next_batch_loop _ _ _ _ _) as [[[folder num] d1]|]; [|done].
  intros [= <-]. by rewrite try_transfer_sources.
Qed.

Lemma flat_map_singleton {A} (l : list A) : flat_map (fun x => [x]) l = l.
Proof. induction l as [|x l IH]; simpl; [done|]. by rewrite IH. Qed.

Lemma doc_organize_category_sources fuel st item st' :
  doc_organize_category dest_base_dir max_files fuel st item = Some st' ->
  map (fun r => fst (fst r)) (transfers st')
  = map (fun r => fst (fst r)) (transfers st) ++ snd item.
Proof.
  destruct item as [category fs]. unfold doc_organize_category. intros Hcat.
  rewrite (for_each_appends _
             (fun st => map (fun r => fst (fst r)) (transfers st))
             (fun f => [f]) _
             (fun s0 a s0' => doc_place_sources fuel category s0 a s0')
             _ _ Hcat).
  simpl. by rewrite flat_map_singleton.
Qed.

Lemma doc_organize_files_sources fuel files d st' :
  doc_organize_files dest_base_dir max_files fuel files (sorter_init d) = Some st' ->
  map (fun r => fst (fst r)) (transfers st')
  = concat (PyDict.values (files_by_category files)).
Proof.
  unfold doc_organize_files. intros Hrun.
  rewrite (for_each_appends _
             (fun st => map (fun r => fst (fst r)) (transfers st))
             snd _ (doc_organize_category_sources fuel) _ _ Hrun).
  simpl. unfold PyDict.values. by rewrite flat_map_concat_map.
Qed.

(** Grouping by category keeps every file, once. *)
Lemma setdefault_append_values {A} k (x : A) (d : @PyDict.t (list A)) :
  concat (PyDict.values (PyDict.setdefault_append k x d))
  ≡ₚ x :: concat (PyDict.values d).
Proof.
  unfold PyDict.setdefault_append, PyDict.values.
  destruct (PyDict.get k d) as [old|] eqn:Hget.
  - revert Hget. induction d as [|[k' l] d IH]; simpl; [done|].
    destruct (String.eqb_spec k k') as [->|Hne].
    + intros [= ->]. simpl. rewrite <- app_assoc. simpl.
      symmetry. apply Permutation_middle.
    + intros Hget. simpl. rewrite (IH Hget).
      symmetry. apply Permutation_middle.
  - revert Hget. induction d as [|[k' l] d IH]; simpl; [done|].
    destruct (String.eqb_spec k k') as [->|Hne]; [done|].
    intros Hget. simpl. rewrite (IH Hget).
    symmetry. apply Permutation_middle.
Qed.

Lemma files_by_category_values files :
  concat (PyDict.values (files_by_category files)) ≡ₚ files.
Proof.
  unfold files_by_category.
  assert (Hgen : ∀ (by_cat : @PyDict.t (list Path)),
            concat (PyDict.values
              (fold_left (fun by_cat file_path =>
                            PyDict.setdefault_append
                              (Doc.get_file_category file_path) file_path by_cat)
                 files by_cat))
            ≡ₚ concat (PyDict.values by_cat) ++ files).
  { induction files as [|z files IH]; intros by_cat; simpl.
    - by rewrite app_nil_r.
    - rewrite IH, setdefault_append_values. simpl.
      apply Permutation_middle. }
  by rewrite Hgen.
Qed.

Lemma try_transfer_processed st f folder :
  processed_are_done st -> processed_are_done (try_transfer st f folder).
Proof.
  intros Hst p. unfold try_transfer.
  destruct (transfer f (path_join folder (name f))) eqn:Ho; simpl.
  - rewrite elem_of_union, elem_of_singleton, (Hst p). split.
    + intros [[tgt Ht]| ->].
      * exists tgt. apply elem_of_app. by left.
      * eexists. apply elem_of_app. right. by apply list_elem_of_singleton.
    + intros [tgt [Ht|Ht%list_elem_of_singleton]%elem_of_app]; [left; eauto|].
      right. congruence.
  - rewrite (Hst p). split.
    + intros [tgt Ht]. exists tgt. apply elem_of_app. by left.
    + intros [tgt [Ht|Ht%list_elem_of_singleton]%elem_of_app]; [eauto|done].
  - rewrite (Hst p). split.
    + intros [tgt Ht]. exists tgt. apply elem_of_app. by left.
    + intros [tgt [Ht|Ht%list_elem_of_singleton]%elem_of_app]; [eauto|done].
Qed.

Lemma doc_organize_files_processed fuel files d st' :
  doc_organize_files dest_base_dir max_files fuel files (sorter_init d) = Some st' ->
  processed_are_done st'.
Proof.
  unfold doc_organize_files.
  apply for_each_invariant with (P := processed_are_done).
  - intros s [category fs] s' _ Hs. unfold doc_organize_category.
    apply for_each_invariant with (P := processed_are_done); [|exact Hs].
    intros s0 f s0' _ Hs0. unfold doc_place, doc_get_next_batch_folder.
    destruct (next_batch_loop _ _ _ _ _) as [[[folder num] d1]|]; [|done].
    intros [= <-]. by apply try_transfer_processed.
  - intros p. simpl. split; [by intros ?%not_elem_of_empty|].
    intros [tgt Ht]. by apply elem_of_nil in Ht.
Qed.

Lemma img_organize_files_processed fuel files d st' :
  img_organize_files dest_base_dir max_files fuel files (sorter_init d) = Some st' ->
  processed_are_done st'.
Proof.
  unfold img_organize_files.
  apply for_each_invariant with (P := processed_are_done).
  - intros s f s' _ Hs. unfold img_place, img_get_next_batch_folder.
    destruct (next_batch_loop _ _ _ _ _) as [[[folder num] d1]|]; [|done].
    intros [= <-]. by apply try_transfer_processed.
  - intros p. simpl. split; [by intros ?%not_elem_of_empty|].
    intros [tgt Ht]. by apply elem_of_nil in Ht.
Qed.

Lemma img_place_resumed fuel first d0 st f st' :
  resumed_from dest_base_dir first d0 st ->
  img_place dest_base_dir max_files fuel st f = Some st' ->
  resumed_from dest_base_dir first d0 st'.
Proof.
  intros (Hnum & Hkeep & Hlog). unfold img_place, img_get_next_batch_folder.
  destruct (next_batch_loop _ _ _ _ _) as [[[folder num] d1]|] eqn:Hloop;
    [|done].
  apply next_batch_loop_spec in Hloop as (-> & Hle & _ & _ & Hframe & _).
  intros [= <-].
  set (st1 := {| dest := d1; current_folder_num := num;
                 processed_files := processed_files st;
                 transfers := transfers st |}).
  split; [|split].
  - rewrite try_transfer_num. simpl. lia.
  - intros k Hk.
    destruct (try_transfer_dest st1 f (path_join dest_base_dir (batch_name num)))
      as [-> | ->]; simpl.
    + rewrite add_entry_entries. destruct (decide _) as [Heq|_].
      * apply batch_folder_inj in Heq. lia.
      * rewrite Hframe; [by apply Hkeep|].
        unfold path_join. rewrite length_app. simpl. lia.
    + rewrite Hframe; [by apply Hkeep|].
      unfold path_join. rewrite length_app. simpl. lia.
  - intros src tgt o.
    destruct (try_transfer_log st1 f (path_join dest_base_dir (batch_name num)))
      as [o' ->].
    intros [Hold|Hnew%list_elem_of_singleton]%elem_of_app; [by eapply Hlog|].
    injection Hnew as -> -> ->. exists num. split; [lia|].
    unfold path_join. by rewrite <- app_assoc.
Qed.

Lemma setdefault_append_head {A : Type} k (x : A) c y l rest :
  ∃ l' rest',
    PyDict.setdefault_append k x ((c, y :: l) :: rest) = (c, y :: l') :: rest'.
Proof.
  unfold PyDict.setdefault_append. simpl.
  destruct (String.eqb k c) eqn:Hk; simpl; rewrite ?Hk; [by eexists _, _|].
  destruct (PyDict.get k rest); simpl; rewrite ?Hk; by eexists _, _.
Qed.

Lemma files_by_category_head f files :
  ∃ category fs rest,
    files_by_category (f :: files) = (category, f :: fs) :: rest.
Proof.
  unfold files_by_category. simpl.
  change (PyDict.setdefault_append (Doc.get_file_category f) f [])
    with [(Doc.get_file_category f, [f])].
  generalize (Doc.get_file_category f) (@nil Path)
    (@nil (string * list Path)).
  induction files as [|z files IH]; intros c l rest; simpl; [by eexists _, _, _|].
  destruct (setdefault_append_head (Doc.get_file_category z) z c f l rest)
    as (l' & rest' & ->).
  apply IH.
Qed.
End Placing.

(** X13.  With a limit that is not positive neither sorter ever finds a
    folder with room: placing a file does not return, whatever the number
    of steps allowed, and organizing a list that is not empty does not
    either. *)
Theorem nonpositive_limit_never_places {E : Env} (dest_base_dir : Path)
    (max_files_per_folder : Z) (fuel : nat) (f : Path) (files : list Path)
    (st : Sorter) :
  (max_files_per_folder <= 0)%Z ->
  doc_organize_files dest_base_dir max_files_per_folder fuel (f :: files) st
  = None
  ∧ img_organize_files dest_base_dir max_files_per_folder fuel (f :: files) st
    = None.
Proof.
  intros Hmax. split.
  - unfold doc_organize_files.
    destruct (files_by_category_head f files) as (category & fs & rest & ->).
    simpl. unfold doc_place at 1, doc_get_next_batch_folder.
    by rewrite next_batch_loop_no_room.
  - unfold img_organize_files. simpl.
    unfold img_place at 1, img_get_next_batch_folder.
    by rewrite next_batch_loop_no_room.
Qed.

Lemma nonpositive_limit_never_places_witness :
  let E := toy_env [] in
  (0 <= 0)%Z
  ∧ doc_organize_files ["out"] 0 1000 [["src"; "a.txt"]] (sorter_init ∅) = None
  ∧ img_organize_files ["out"] 0 1000 [["src"; "a.txt"]] (sorter_init ∅) = None.
Proof.
  intros E. assert (Hmax : (0 <= 0)%Z) by lia.
  split; [exact Hmax|].
  exact (nonpositive_limit_never_places ["out"] 0 1000 ["src"; "a.txt"] []
           (sorter_init ∅) Hmax).
Defined.

(** X14.  A sorter that starts with nothing processed records a file as
    processed exactly when a move or copy of it went through without an
    error. *)
Theorem processed_files_are_moved {E : Env} (dest_base_dir : Path)
    (max_files_per_folder : Z) (fuel : nat) (files : list Path) (d : DirMap)
    (st' : Sorter) (p : Path) :
  doc_organize_files dest_base_dir max_files_per_folder fuel files
    (sorter_init d) = Some st'
  ∨ img_organize_files dest_base_dir max_files_per_folder fuel files
      (sorter_init d) = Some st' ->
  p ∈ processed_files st' <-> ∃ tgt, (p, tgt, Done) ∈ transfers st'.
Proof.
  intros [Hrun|Hrun].
  - by apply (doc_organize_files_processed _ _ _ _ _ _ Hrun).
  - by apply (img_organize_files_processed _ _ _ _ _ _ Hrun).
Qed.

Lemma processed_files_are_moved_witness :
  let E := toy_env [] in
  ∃ st', img_organize_files ["out"] 2 3 [["src"; "a.png"]] (sorter_init ∅)
         = Some st'
         ∧ (["src"; "a.png"] ∈ processed_files st'
            <-> ∃ tgt, (["src"; "a.png"], tgt, Done) ∈ transfers st').
Proof.
  intros E.
  assert (Hlog : transfers <$> img_organize_files ["out"] 2 3 [["src"; "a.png"]]
                                 (sorter_init ∅)
                 = Some [(["src"; "a.png"], ["out"; "batch_001"; "a.png"], Done)])
    by (vm_compute; reflexivity).
  apply fmap_Some in Hlog as (st' & Hrun & _).
  exists st'. split; [exact Hrun|].
  exact (processed_files_are_moved ["out"] 2 3 _ ∅ st' ["src"; "a.png"]
           (or_intror Hrun)).
Defined.

(** X15.  Both sorters request exactly one transfer for every file they
    are given: the image sorter in the order of the list, the document
    sorter category by category. *)
Theorem one_transfer_per_file {E : Env} (dest_base_dir : Path)
    (max_files_per_folder : Z) (fuel : nat) (files : list Path) (d : DirMap)
    (st' : Sorter) :
  (doc_organize_files dest_base_dir max_files_per_folder fuel files
     (sorter_init d) = Some st' ->
   map (fun r => fst (fst r)) (transfers st') ≡ₚ files)
  ∧ (img_organize_files dest_base_dir max_files_per_folder fuel files
       (sorter_init d) = Some st' ->
     map (fun r => fst (fst r)) (transfers st') = files).
Proof.
  split.
  - intros Hrun. rewrite (doc_organize_files_sources _ _ _ _ _ _ Hrun).
    apply files_by_category_values.
  - unfold img_organize_files. intros Hrun.
    rewrite (for_each_appends _
               (fun st => map (fun r => fst (fst r)) (transfers st))
               (fun f => [f]) _
               (fun s0 a s0' =>
                  img_place_sources dest_base_dir max_files_per_folder fuel s0 a s0')
               _ _ Hrun).
    simpl. by rewrite flat_map_singleton.
Qed.

Lemma one_transfer_per_file_witness :
  let E := toy_env [] in
  let files := [["src"; "a.png"]; ["src"; "n.txt"]; ["src"; "b.png"]] in
  ∃ st', doc_organize_files ["out"] 2 3 files (sorter_init ∅) = Some st'
         ∧ map (fun r => fst (fst r)) (transfers st') ≡ₚ files.
Proof.
  intros E files.
  assert (Hlog : (fun st => map (fun r => fst (fst r)) (transfers st))
                 <$> doc_organize_files ["out"] 2 3 files (sorter_init ∅)
                 = Some [["src"; "a.png"]; ["src"; "b.png"]; ["src"; "n.txt"]])
    by (vm_compute; reflexivity).
  apply fmap_Some in Hlog as (st' & Hrun & _).
  exists st'. split; [exact Hrun|].
  exact (proj1 (one_transfer_per_file ["out"] 2 3 files ∅ st') Hrun).
Defined.

Lemma img_organize_files_resumed {E : Env} (dest_base_dir : Path)
    (max_files_per_folder : Z) (fuel : nat) (files : list Path) (d : DirMap)
    (st' : Sorter) :
  img_organize_files dest_base_dir max_files_per_folder fuel files
    (sorter_init d) = Some st' ->
  resumed_from dest_base_dir
    (img_first_folder_num dest_base_dir (mkdir_parents d dest_base_dir)) d st'.
Proof.
  unfold img_organize_files. intros Hrun.
  set (first := img_first_folder_num dest_base_dir
                  (mkdir_parents d dest_base_dir)) in *.
  assert (Hres : resumed_from dest_base_dir first
                   (mkdir_parents d dest_base_dir) st').
  { revert Hrun.
    apply for_each_invariant with
      (P := resumed_from dest_base_dir first (mkdir_parents d dest_base_dir)).
    - intros s f s' _. apply img_place_resumed.
    - split; [simpl; subst first; simpl; lia|]. split; [done|].
      intros src tgt o Hin. simpl in Hin. by apply elem_of_nil in Hin. }
  destruct Hres as (Hnum & Hkeep & Hlog).
  split; [exact Hnum|]. split; [|exact Hlog].
  intros k Hk. rewrite (Hkeep k Hk). apply mkdir_parents_entries.
  unfold path_join. rewrite length_app. simpl. lia.
Qed.

(** X16.  The image sorter leaves every batch folder with a number below
    the one it starts with as it found it, and sends every file to a
    folder with that number or a greater one. *)
Theorem image_resume_keeps_earlier {E : Env} (dest_base_dir : Path)
    (max_files_per_folder : Z) (fuel : nat) (files : list Path) (d : DirMap)
    (st' : Sorter) :
  img_organize_files dest_base_dir max_files_per_folder fuel files
    (sorter_init d) = Some st' ->
  let first := img_first_folder_num dest_base_dir (mkdir_parents d dest_base_dir) in
  (∀ k, (k < first)%Z ->
        entries (dest st') (path_join dest_base_dir (batch_name k))
        = entries d (path_join dest_base_dir (batch_name k)))
  ∧ ∀ src tgt o, (src, tgt, o) ∈ transfers st' ->
      ∃ n, (first <= n)%Z ∧ tgt = dest_base_dir ++ [batch_name n; name src].
Proof.
  intros Hrun first.
  destruct (img_organize_files_resumed _ _ _ _ _ _ Hrun) as (_ & Hkeep & Hlog).
  split; [exact Hkeep | exact Hlog].
Qed.

Lemma image_resume_keeps_earlier_witness :
  let E := toy_env [] in
  let d : DirMap := {[ ["out"] := {["batch_001"]};
                       ["out"; "batch_001"] := {["old.png"]} ]} in
  ∃ st', img_organize_files ["out"] 2 3 [["src"; "a.png"]] (sorter_init d)
         = Some st'
         ∧ img_first_folder_num ["out"] (mkdir_parents d ["out"]) = 2%Z
         ∧ entries (dest st') (path_join ["out"] (batch_name 1))
           = entries d (path_join ["out"] (batch_name 1))
         ∧ transfers st'
           = [(["src"; "a.png"], ["out"; "batch_002"; "a.png"], Done)].
Proof.
  intros E d.
  assert (Hlog : transfers <$> img_organize_files ["out"] 2 3 [["src"; "a.png"]]
                                 (sorter_init d)
                 = Some [(["src"; "a.png"], ["out"; "batch_002"; "a.png"], Done)])
    by (vm_compute; reflexivity).
  apply fmap_Some in Hlog as (st' & Hrun & Hlog).
  assert (Hfirst : img_first_folder_num ["out"] (mkdir_parents d ["out"]) = 2%Z)
    by (vm_compute; reflexivity).
  exists st'. split; [exact Hrun|]. split; [exact Hfirst|]. split; [|done].
  apply (proj1 (image_resume_keeps_earlier ["out"] 2 3 _ d st' Hrun)).
  rewrite Hfirst. lia.
Defined.

(** ** Clean-up keeps the other files *)

Section CleanupKeeps.
Context {E : Env}.
Variable source_dir : Path.

Lemma alter_first_keeps top n g ds p :
  (∀ c, p ∈ all_files (path_join top n) c ->
        p ∈ all_files (path_join top n) (g c)) ->
  p ∈ flat_map (fun '(m, c) => all_files (path_join top m) c) ds ->
  p ∈ flat_map (fun '(m, c) => all_files (path_join top m) c)
        (alter_first n g ds).
Proof.
  intros Hg. induction ds as [|[m c] ds IH]; simpl; [done|].
  intros [Hp|Hp]%elem_of_app.
  - destruct (String.eqb_spec n m) as [->|Hne]; simpl; apply elem_of_app; left;
      [by apply Hg | done].
  - destruct (String.eqb_spec n m) as [->|Hne]; simpl; apply elem_of_app; right;
      [done | by apply IH].
Qed.

(** Taking the file [n] out of the directory at [dir] keeps every other
    path. *)
Lemma remove_at_keeps dir n top t p :
  p ≠ top ++ dir ++ [n] ->
  p ∈ all_files top t ->
  p ∈ all_files top
        (update_at dir
           (fun d => Dir (filter (fun f => f ≠ n) (tree_files d))
                       (tree_subdirs d)) t).
Proof.
  revert top t. induction dir as [|m dir IH]; intros top [fs ds] Hne; simpl.
  - intros [Hp|Hp]%elem_of_app; apply elem_of_app; [left | by right].
    apply list_elem_of_fmap in Hp as (f & -> & Hf).
    apply list_elem_of_fmap. exists f. split; [done|].
    apply list_elem_of_filter. split; [|done].
    intros ->. by apply Hne.
  - intros [Hp|Hp]%elem_of_app; apply elem_of_app; [by left | right].
    apply alter_first_keeps; [|done].
    intros c. apply IH. unfold path_join. by rewrite <- app_assoc.
Qed.

Lemma os_remove_keeps t q t' p :
  os_remove source_dir t q = Some t' -> p ≠ q ->
  p ∈ all_files source_dir t -> p ∈ all_files source_dir t'.
Proof.
  unfold os_remove, is_file.
  destruct (strip_prefix source_dir q) as [rel|] eqn:Hrel; [|done].
  apply strip_prefix_Some in Hrel as ->.
  destruct (subtree (removelast rel) t) as [[fs ds]|]; [|done].
  destruct (bool_decide (rel ≠ [])) eqn:Hne; [|done].
  apply bool_decide_eq_true in Hne.
  destruct (_ && _); [|done]. intros [= <-] Hpq.
  apply remove_at_keeps.
  by rewrite <- (app_removelast_last "" Hne).
Qed.

Lemma remove_files_keeps paths t p :
  (p ∉ paths) -> p ∈ all_files source_dir t ->
  p ∈ all_files source_dir (remove_files source_dir paths t).
Proof.
  unfold remove_files. revert t.
  induction paths as [|q paths IH]; intros t Hnot Hp; simpl; [done|].
  apply not_elem_of_cons in Hnot as [Hpq Hnot]. apply IH; [done|].
  destruct (is_file source_dir t q); [|done].
  destruct (os_remove source_dir t q) as [t'|] eqn:Hrm; simpl; [|done].
  by eapply os_remove_keeps.
Qed.

Lemma remove_ds_store_keeps t p :
  name p ≠ ".DS_Store" -> p ∈ all_files source_dir t ->
  p ∈ all_files source_dir (remove_ds_store source_dir t).
Proof.
  intros Hname. unfold remove_ds_store.
  generalize (walk source_dir t). intros dirs. revert t.
  induction dirs as [|dirpath dirs IH]; intros t Hp; simpl; [done|].
  apply IH.
  destruct (is_file source_dir t (path_join dirpath ".DS_Store")); [|done].
  destruct (os_remove source_dir t (path_join dirpath ".DS_Store"))
    as [t'|] eqn:Hrm; simpl; [|done].
  eapply os_remove_keeps; [exact Hrm| |done].
  intros ->. apply Hname. unfold name, path_join. apply last_last.
Qed.
End CleanupKeeps.

(** X17.  Clean-up deletes no file by accident: a file of the source tree
    that is not among the processed files, not listed as a duplicate, and
    not named .DS_Store is still there afterwards, for both sorters. *)
Theorem cleanup_keeps_other_files {E : Env} (source_dir : Path)
    (processed : list Path) (dups : @PyDict.t (list Path)) (t : Tree)
    (p : Path) :
  p ∈ all_files source_dir t ->
  (p ∉ processed) ->
  name p ≠ ".DS_Store" ->
  p ∈ all_files source_dir
        (sweep_tree (img_clean_source_directory source_dir processed t))
  ∧ ((p ∉ Doc.duplicate_files_of dups) ->
     p ∈ all_files source_dir
           (sweep_tree (doc_clean_source_directory source_dir processed dups t))).
Proof.
  intros Hp Hproc Hname. split.
  - unfold img_clean_source_directory. rewrite remove_empty_dirs_all_files.
    by apply remove_ds_store_keeps, remove_files_keeps.
  - intros Hdup. unfold doc_clean_source_directory.
    rewrite remove_empty_dirs_all_files.
    by apply remove_ds_store_keeps, remove_files_keeps, remove_files_keeps.
Qed.

Lemma cleanup_keeps_other_files_witness :
  let E := toy_env [] in
  let t := Dir [".DS_Store"; "moved.txt"]
             [("a", Dir ["kept.txt"; ".DS_Store"] [("b", Dir [] [])])] in
  ["src"; "a"; "kept.txt"] ∈ all_files ["src"] t
  ∧ (["src"; "a"; "kept.txt"] ∉ [["src"; "moved.txt"]])
  ∧ name ["src"; "a"; "kept.txt"] ≠ ".DS_Store"
  ∧ all_files ["src"]
      (sweep_tree (img_clean_source_directory ["src"] [["src"; "moved.txt"]] t))
    = [["src"; "a"; "kept.txt"]]
  ∧ ["src"; "a"; "kept.txt"]
      ∈ all_files ["src"]
          (sweep_tree
             (img_clean_source_directory ["src"] [["src"; "moved.txt"]] t)).
Proof.
  intros E t.
  assert (Hp : ["src"; "a"; "kept.txt"] ∈ all_files ["src"] t).
  { vm_compute. do 2 (apply elem_of_cons; right). apply elem_of_cons. by left. }
  assert (Hproc : ["src"; "a"; "kept.txt"] ∉ [["src"; "moved.txt"]]).
  { intros Hin%list_elem_of_singleton. discriminate Hin. }
  assert (Hname : name ["src"; "a"; "kept.txt"] ≠ ".DS_Store")
    by (vm_compute; discriminate).
  split; [exact Hp|]. split; [exact Hproc|]. split; [exact Hname|].
  split; [vm_compute; reflexivity|].
  exact (proj1 (cleanup_keeps_other_files ["src"] [["src"; "moved.txt"]] [] t
                  ["src"; "a"; "kept.txt"] Hp Hproc Hname)).
Defined.

(** ** Where the image sorter resumes *)

Section ResumeNumber.
Context {E : Env}.
Variable dest_base_dir : Path.

Lemma ltb_le a b : String.ltb a b = true -> String.le a b.
Proof.
  unfold String.ltb, String.le, String.leb.
  by destruct (String.compare a b).
Qed.

Lemma ltb_not_le a b : String.ltb a b = true -> ¬ String.le b a.
Proof.
  unfold String.ltb, String.le, String.leb.
  rewrite (String.compare_antisym a b).
  destruct (String.compare b a); simpl; try done. intros _ H. exact H.
Qed.

Lemma not_ltb_le a b : String.ltb a b = false -> String.le b a.
Proof.
  unfold String.ltb, String.le, String.leb.
  rewrite (String.compare_antisym a b).
  by destruct (String.compare b a).
Qed.

Lemma ltb_trans a b c :
  String.ltb a b = true -> String.ltb b c = true -> String.ltb a c = true.
Proof.
  intros Hab Hbc. destruct (String.ltb a c) eqn:Hac; [done|].
  apply not_ltb_le in Hac. apply ltb_le in Hab.
  apply ltb_not_le in Hbc. destruct Hbc. by etrans.
Qed.

Lemma batch_name_next k :
  (0 <= k < 999)%Z ->
  String.ltb (batch_name k) (batch_name (k + 1)) = true.
Proof.
  intros Hk.
  assert (Hall : forallb (fun n =>
                   String.ltb (batch_name (Z.of_nat n))
                     (batch_name (Z.of_nat n + 1))) (seq 0 999) = true)
    by (vm_compute; reflexivity).
  rewrite forallb_forall in Hall.
  specialize (Hall (Z.to_nat k)). rewrite Z2Nat.id in Hall by lia.
  apply Hall, in_seq. lia.
Qed.

Lemma batch_name_lt a b :
  (0 <= a)%Z -> (a < b)%Z -> (b <= 999)%Z ->
  String.ltb (batch_name a) (batch_name b) = true.
Proof.
  intros Ha Hab Hb.
  replace b with (a + 1 + Z.of_nat (Z.to_nat (b - a - 1)))%Z by lia.
  assert (Hn : (a + 1 + Z.of_nat (Z.to_nat (b - a - 1)) <= 999)%Z) by lia.
  revert Hn. generalize (Z.to_nat (b - a - 1)). intros n.
  induction n as [|n IH]; intros Hn.
  - rewrite Z.add_0_r. apply batch_name_next. lia.
  - eapply ltb_trans; [apply IH; lia|].
    replace (a + 1 + Z.of_nat (S n))%Z with (a + 1 + Z.of_nat n + 1)%Z by lia.
    apply batch_name_next. lia.
Qed.

(** On the numbers a three-digit field holds, the order of the folder
    names is the order of the numbers. *)
Lemma batch_name_ltb a b :
  (0 <= a <= 999)%Z -> (0 <= b <= 999)%Z ->
  String.ltb (batch_name a) (batch_name b) = (a <? b)%Z.
Proof.
  intros Ha Hb. destruct (Z.ltb_spec a b) as [Hlt|Hge].
  - apply batch_name_lt; lia.
  - destruct (String.ltb (batch_name a) (batch_name b)) eqn:Hab; [|done].
    destruct (ltb_not_le _ _ Hab).
    destruct (decide (a = b)) as [->|Hne]; [done|].
    apply ltb_le, batch_name_lt; lia.
Qed.

Lemma split_batch_name k :
  (0 <= k <= 999)%Z ->
  split_underscore (batch_name k) "" = ["batch"; format_03d k].
Proof.
  intros Hk.
  assert (Hall : forallb (fun n =>
                   bool_decide (split_underscore (batch_name (Z.of_nat n)) ""
                                = ["batch"; format_03d (Z.of_nat n)]))
                   (seq 0 1000) = true)
    by (vm_compute; reflexivity).
  rewrite forallb_forall in Hall.
  specialize (Hall (Z.to_nat k)). rewrite Z2Nat.id in Hall by lia.
  eapply bool_decide_eq_true_1, Hall, in_seq. lia.
Qed.

Lemma prefix_append s t : String.prefix s (s +:+ t) = true.
Proof.
  induction s as [|c s IH]; [by destruct t|].
  change (String c s +:+ t) with (String c (s +:+ t)). simpl.
  by destruct (ascii_dec c c).
Qed.

Lemma batch_name_prefix k : String.prefix "batch_" (batch_name k) = true.
Proof. apply prefix_append. Qed.

(** The greatest name of a list: it is in the list and none is greater. *)
Lemma max_name_spec names :
  names ≠ [] ->
  ∃ best, max_name names = Some best ∧ best ∈ names
          ∧ ∀ x, x ∈ names -> String.le x best.
Proof.
  destruct names as [|n rest]; [done|]. intros _. simpl.
  eexists. split; [done|].
  assert (Hgen : ∀ rest best0 (seen : list string),
            best0 ∈ seen -> (∀ x, x ∈ seen -> String.le x best0) ->
            let best := fold_left (fun best x =>
                                     if String.ltb best x then x else best)
                          rest best0 in
            best ∈ seen ++ rest ∧ ∀ x, x ∈ seen ++ rest -> String.le x best).
  { clear. induction rest as [|y rest IH]; intros best0 seen Hin Hmax; simpl.
    - by rewrite app_nil_r.
    - replace (seen ++ y :: rest) with ((seen ++ [y]) ++ rest)
        by (by rewrite <- app_assoc).
      apply IH.
      + destruct (String.ltb best0 y); apply elem_of_app; [right|left; done].
        by apply list_elem_of_singleton.
      + intros x [Hx|Hx%list_elem_of_singleton]%elem_of_app; [|subst x].
        * destruct (String.ltb best0 y) eqn:Hlt; [|by apply Hmax].
          etrans; [by apply Hmax | by apply ltb_le].
        * destruct (String.ltb best0 y) eqn:Hlt; [done|].
          by apply not_ltb_le. }
  apply (Hgen rest n [n]).
  - by apply list_elem_of_singleton.
  - intros x Hx%list_elem_of_singleton. by subst x.
Qed.

Lemma img_first_folder_num_max (d : DirMap) (m : Z) :
  (∀ n, n ∈ entries d dest_base_dir -> String.prefix "batch_" n = true ->
        ∃ k, (0 <= k <= 999)%Z ∧ n = batch_name k) ->
  (0 <= m <= 999)%Z ->
  batch_name m ∈ entries d dest_base_dir ->
  (∀ k, batch_name k ∈ entries d dest_base_dir -> (k <= m)%Z) ->
  py_int (format_03d m) = Some m ->
  img_first_folder_num dest_base_dir d = (m + 1)%Z.
Proof.
  intros Hnames Hm Hin Hmax Hint. unfold img_first_folder_num.
  set (existing := filter _ _).
  assert (Hex : ∀ n, n ∈ existing <->
                  n ∈ entries d dest_base_dir ∧ String.prefix "batch_" n = true).
  { intros n. subst existing. rewrite list_elem_of_filter, elem_of_elements.
    tauto. }
  assert (Hm_in : batch_name m ∈ existing)
    by (apply Hex; split; [done | apply batch_name_prefix]).
  destruct (max_name_spec existing) as (best & -> & Hbest & Hge).
  { intros Heq. rewrite Heq in Hm_in. by apply elem_of_nil in Hm_in. }
  apply Hex in Hbest as [Hbest Hpre].
  destruct (Hnames best Hbest Hpre) as (k & Hk & ->).
  assert (k = m) as ->.
  { specialize (Hmax k Hbest). specialize (Hge _ Hm_in).
    destruct (decide (k = m)) as [|Hne]; [done|].
    destruct (ltb_not_le (batch_name k) (batch_name m)); [|done].
    apply batch_name_lt; lia. }
  by rewrite split_batch_name, Hint.
Qed.
End ResumeNumber.

(** X18.  When the destination holds batch folders numbered up to [m],
    all within three digits, the image sorter starts a new folder
    [m + 1]: no file goes into an existing batch folder, whether it is
    full or not. *)
Theorem image_resume_starts_new_folder {E : Env} (dest_base_dir : Path)
    (max_files_per_folder : Z) (fuel : nat) (files : list Path) (d : DirMap)
    (m : Z) (st' : Sorter) :
  (∀ n, n ∈ entries d dest_base_dir -> String.prefix "batch_" n = true ->
        ∃ k, (0 <= k <= 999)%Z ∧ n = batch_name k) ->
  (0 <= m <= 999)%Z ->
  batch_name m ∈ entries d dest_base_dir ->
  (∀ k, batch_name k ∈ entries d dest_base_dir -> (k <= m)%Z) ->
  py_int (format_03d m) = Some m ->
  img_organize_files dest_base_dir max_files_per_folder fuel files
    (sorter_init d) = Some st' ->
  img_first_folder_num dest_base_dir (mkdir_parents d dest_base_dir) = (m + 1)%Z
  ∧ (∀ k, (k <= m)%Z ->
          entries (dest st') (path_join dest_base_dir (batch_name k))
          = entries d (path_join dest_base_dir (batch_name k)))
  ∧ ∀ src tgt o, (src, tgt, o) ∈ transfers st' ->
      ∃ n, (m < n)%Z ∧ tgt = dest_base_dir ++ [batch_name n; name src].
Proof.
  intros Hnames Hm Hin Hmax Hint Hrun.
  assert (Hfirst : img_first_folder_num dest_base_dir
                     (mkdir_parents d dest_base_dir) = (m + 1)%Z).
  { apply img_first_folder_num_max; rewrite ?mkdir_parents_entries; done. }
  destruct (img_organize_files_resumed _ _ _ _ _ _ Hrun) as (_ & Hkeep & Hlog).
  rewrite Hfirst in Hkeep, Hlog. split; [exact Hfirst|]. split.
  - intros k Hk. apply Hkeep. lia.
  - intros src tgt o Hl. destruct (Hlog _ _ _ Hl) as (n & Hn & ->).
    exists n. split; [lia | done].
Qed.

Lemma image_resume_starts_new_folder_witness :
  let E := toy_env [] in
  let d : DirMap := {[ ["out"] := {["batch_001"]};
                       ["out"; "batch_001"] := {["old.png"]} ]} in
  ∃ st', img_organize_files ["out"] 2 3 [["src"; "a.png"]] (sorter_init d)
         = Some st'
         ∧ transfers st'
           = [(["src"; "a.png"], ["out"; "batch_002"; "a.png"], Done)]
         ∧ ∀ src tgt o, (src, tgt, o) ∈ transfers st' ->
             ∃ n, (1 < n)%Z ∧ tgt = ["out"] ++ [batch_name n; name src].
Proof.
  intros E d.
  assert (Hlog : transfers <$> img_organize_files ["out"] 2 3 [["src"; "a.png"]]
                                 (sorter_init d)
                 = Some [(["src"; "a.png"], ["out"; "batch_002"; "a.png"], Done)])
    by (vm_compute; reflexivity).
  apply fmap_Some in Hlog as (st' & Hrun & Hlog).
  assert (Hent : entries d ["out"] = {["batch_001"]}).
  { apply set_eq. intros n. rewrite <- elem_of_elements.
    replace (elements (entries d ["out"])) with ["batch_001"]
      by (vm_compute; reflexivity).
    by rewrite list_elem_of_singleton, elem_of_singleton. }
  assert (Hnames : ∀ n, n ∈ entries d ["out"] ->
            String.prefix "batch_" n = true ->
            ∃ k, (0 <= k <= 999)%Z ∧ n = batch_name k).
  { rewrite Hent. intros n Hn%elem_of_singleton _. exists 1%Z.
    split; [lia | exact Hn]. }
  assert (Hm : (0 <= 1 <= 999)%Z) by lia.
  assert (Hin : batch_name 1 ∈ entries d ["out"]).
  { rewrite Hent. apply elem_of_singleton. reflexivity. }
  assert (Hmax : ∀ k, batch_name k ∈ entries d ["out"] -> (k <= 1)%Z).
  { rewrite Hent. intros k Hk%elem_of_singleton.
    apply (batch_name_inj k 1) in Hk. lia. }
  assert (Hint : py_int (format_03d 1) = Some 1%Z) by (vm_compute; reflexivity).
  exists st'. split; [exact Hrun|]. split; [done|].
  exact (proj2 (proj2 (image_resume_starts_new_folder ["out"] 2 3 _ d 1 st'
                         Hnames Hm Hin Hmax Hint Hrun))).
Defined.

(** ** Collecting the files *)

Section Collecting.
Context {E : Env}.

Lemma Tree_nested_ind (P : Tree -> Prop) :
  (∀ fs ds, Forall (fun nc => P (snd nc)) ds -> P (Dir fs ds)) -> ∀ t, P t.
Proof.
  intros H. fix IH 1. intros [fs ds]. apply H.
  induction ds as [|[n c] ds IHds]; constructor; [apply IH | exact IHds].
Qed.

Lemma name_path_join top n : name (path_join top n) = n.
Proof. unfold name, path_join. apply last_last. Qed.

Lemma rglob_ending_name ext t :
  ∀ top p, p ∈ rglob_ending ext top t -> ends_with ext (name p) = true.
Proof.
  induction t as [fs ds IH] using Tree_nested_ind. intros top p. simpl.
  intros [Hp|Hp]%elem_of_app.
  - apply list_elem_of_fmap in Hp as (n & -> & Hn).
    apply list_elem_of_filter in Hn as [Hn _]. by rewrite name_path_join.
  - apply list_elem_of_In, in_flat_map in Hp as ([n c] & Hnc & Hp).
    apply list_elem_of_In in Hnc, Hp.
    rewrite Forall_forall in IH. by apply (IH _ Hnc (path_join top n)).
Qed.

(** A name that ends with an extension: the last dot of the name is the
    dot of the extension. *)
Lemma ends_with_rfind rest s :
  rfind_dot rest = None ->
  ends_with (String "." rest) s = true ->
  String.length (String "." rest) <= String.length s
  ∧ rfind_dot s = Some (String.length s - String.length (String "." rest))
  ∧ substring (String.length s - String.length (String "." rest))
      (String.length (String "." rest)) s = String "." rest.
Proof.
  intros Hrest. remember (String "." rest) as e eqn:He.
  induction s as [|c s IH]; cbn [ends_with].
  - rewrite orb_false_r. intros Heq%String.eqb_eq. subst e. discriminate Heq.
  - intros [Heq%String.eqb_eq | Hs]%orb_true_iff.
    + rewrite Heq. split; [done|]. rewrite Nat.sub_diag. split.
      * subst e. simpl. by rewrite Hrest.
      * subst e. simpl. f_equal. clear. induction rest; simpl; by f_equal.
    + destruct (IH Hs) as (Hlen & Hfind & Hsub). split; [simpl; lia|].
      cbn [rfind_dot String.length]. rewrite Hfind.
      replace (S (String.length s) - String.length e)
        with (S (String.length s - String.length e)) by lia.
      split; [done|]. simpl. destruct (String.length e) eqn:Hl; [|exact Hsub].
      subst e. discriminate Hl.
Qed.

Lemma ends_with_suffix rest p :
  rfind_dot rest = None ->
  ends_with (String "." rest) (name p) = true ->
  suffix p = "" ∨ suffix p = String "." rest.
Proof.
  intros Hrest Hend.
  destruct (ends_with_rfind rest (name p) Hrest Hend) as (Hlen & Hfind & Hsub).
  unfold suffix. rewrite Hfind.
  destruct (_ && _); [right|by left].
  replace (String.length (name p)
           - (String.length (name p) - String.length (String "." rest)))
    with (String.length (String "." rest)) by lia.
  exact Hsub.
Qed.

(** What a pattern of the document sorter can be: an extension of the
    mapping or its upper-case form.  Each is a dot followed by ASCII
    characters other than a dot, and none is [.pdf] in lower case. *)
Lemma doc_patterns ext :
  ext ∈ PyDict.keys Doc.category_mapping ->
  ∀ pat, pat = ext ∨ pat = ascii_upper ext ->
    ∃ rest, pat = String "." rest ∧ rfind_dot rest = None
            ∧ is_ascii_text pat = true ∧ ascii_lower pat ≠ ".pdf".
Proof.
  intros Hext pat Hpat.
  assert (Hall : forallb (fun pat =>
                   match pat with
                   | String "." rest =>
                       match rfind_dot rest with Some _ => false | None => true end
                       && is_ascii_text pat
                       && negb (String.eqb (ascii_lower pat) ".pdf")
                   | _ => false
                   end)
                   (PyDict.keys Doc.category_mapping
                    ++ map ascii_upper (PyDict.keys Doc.category_mapping))
                 = true) by (vm_compute; reflexivity).
  rewrite forallb_forall in Hall. specialize (Hall pat).
  destruct pat as [|c rest].
  - exfalso. apply Bool.diff_false_true, Hall, in_app_iff.
    destruct Hpat as [->| ->]; [left | right].
    + by apply list_elem_of_In.
    + apply in_map_iff. exists ext. split; [done | by apply list_elem_of_In].
  - assert (Hin : In (String c rest)
                    (PyDict.keys Doc.category_mapping
                     ++ map ascii_upper (PyDict.keys Doc.category_mapping))).
    { apply in_app_iff. destruct Hpat as [->| ->]; [left | right].
      - by apply list_elem_of_In.
      - apply in_map_iff. exists ext. split; [done | by apply list_elem_of_In]. }
    specialize (Hall Hin).
    destruct (Ascii.eqb_spec c ".") as [->|Hc].
    + apply andb_true_iff in Hall as [Hall Hpdf].
      apply andb_true_iff in Hall as [Hdot Hascii].
      exists rest. split; [done|]. split; [by destruct (rfind_dot rest)|].
      split; [done|]. apply negb_true_iff in Hpdf. by apply String.eqb_neq.
    + exfalso. revert Hall. clear -Hc.
      destruct c as [[] [] [] [] [] [] [] []]; try done.
Qed.

Lemma doc_get_all_files_pattern extensions source_dir t p :
  p ∈ doc_get_all_files extensions source_dir t ->
  ∃ ext pat, ext ∈ extensions ∧ (pat = ext ∨ pat = ascii_upper ext)
             ∧ ends_with pat (name p) = true.
Proof.
  unfold doc_get_all_files.
  intros (ext & Hext & Hp)%list_elem_of_In%in_flat_map.
  apply list_elem_of_In in Hext, Hp.
  apply elem_of_app in Hp as [Hp|Hp]; apply rglob_ending_name in Hp; eauto 6.
Qed.

Lemma doc_collected_not_pdf extensions source_dir t p :
  (∀ s, is_ascii_text s = true -> str_lower s = ascii_lower s) ->
  (∀ e, e ∈ extensions -> e ∈ PyDict.keys Doc.category_mapping) ->
  p ∈ doc_get_all_files extensions source_dir t ->
  str_lower (suffix p) ≠ ".pdf".
Proof.
  intros Hlower Hexts Hp.
  destruct (doc_get_all_files_pattern _ _ _ _ Hp) as (ext & pat & Hext & Hpat & Hend).
  destruct (doc_patterns ext (Hexts _ Hext) pat Hpat)
    as (rest & -> & Hrest & Hascii & Hpdf).
  destruct (ends_with_suffix rest p Hrest Hend) as [-> | ->].
  - by rewrite (Hlower "").
  - by rewrite (Hlower _ Hascii).
Qed.

Lemma category_mapping_no_pdf ext v :
  PyDict.get ext Doc.category_mapping = Some v -> v ≠ "pdfs" ∧ v ≠ "ebooks".
Proof.
  intros Hget.
  assert (Hall : forallb (fun v => negb (String.eqb v "pdfs")
                                   && negb (String.eqb v "ebooks"))
                   (PyDict.values Doc.category_mapping) = true)
    by (vm_compute; reflexivity).
  rewrite forallb_forall in Hall. specialize (Hall v).
  apply get_elem_of in Hget.
  assert (Hin : In v (PyDict.values Doc.category_mapping)).
  { apply in_map_iff. exists (ext, v). split; [done | by apply list_elem_of_In]. }
  apply Hall, andb_true_iff in Hin as [H1%negb_true_iff H2%negb_true_iff].
  split; by apply String.eqb_neq.
Qed.

Lemma doc_unique_in_files files p :
  p ∈ Doc.unique_files_of files -> p ∈ files.
Proof.
  unfold Doc.unique_files_of.
  assert (Hgen : ∀ files (seen : list Path) acc,
            (∀ x, x ∈ fst acc -> x ∈ seen) ->
            ∀ x, x ∈ fst (fold_left Doc.unique_step files acc) ->
                 x ∈ seen ++ files).
  { clear. induction files as [|z files IH]; intros seen acc Hacc x; simpl.
    - rewrite app_nil_r. apply Hacc.
    - replace (seen ++ z :: files) with ((seen ++ [z]) ++ files)
        by (by rewrite <- app_assoc).
      apply IH. intros y. unfold Doc.unique_step. destruct acc as [u ph].
      rewrite (DocFacts.doc_compute_file_hash_eta z).
      destruct (snd (Doc.compute_file_hash z)) as [hz|];
        [destruct (bool_decide _)|]; simpl.
      + intros [Hy|Hy%elem_of_singleton]%elem_of_union; apply elem_of_app;
          [left; by apply Hacc | right; by apply list_elem_of_singleton].
      + intros Hy. apply elem_of_app. left. by apply Hacc.
      + intros Hy. apply elem_of_app. left. by apply Hacc. }
  apply (Hgen files [] (∅, ∅)). intros x Hx. simpl in Hx.
  by apply not_elem_of_empty in Hx.
Qed.

Lemma doc_listed_in_files files x :
  x ∈ Doc.duplicate_files_of (Doc.find_duplicates files) -> x ∈ files.
Proof.
  unfold Doc.duplicate_files_of, Doc.find_duplicates, Doc.dup_run.
  intros (h & l & Hl & Hx)%elem_of_concat_values. revert h l Hl Hx.
  assert (Hgen : ∀ files (seen : list Path) st,
            (∀ h l y, (h, l) ∈ Doc.duplicates st -> y ∈ l -> y ∈ seen) ->
            ∀ h l y, (h, l) ∈ Doc.duplicates (fold_left Doc.dup_step files st) ->
                     y ∈ l -> y ∈ seen ++ files).
  { clear. induction files as [|z files IH]; intros seen st Hst h l y; simpl.
    - rewrite app_nil_r. apply Hst.
    - replace (seen ++ z :: files) with ((seen ++ [z]) ++ files)
        by (by rewrite <- app_assoc).
      apply IH. clear h l y. intros h l y. unfold Doc.dup_step.
      rewrite (DocFacts.doc_compute_file_hash_eta z).
      destruct (snd (Doc.compute_file_hash z)) as [hz|];
        [destruct (PyDict.mem _ _)|]; simpl.
      + intros Hl Hy.
        destruct (elem_of_setdefault_append _ _ _ _ _ _ Hl Hy)
          as [[-> _]|(l0 & Hl0 & Hy0)]; apply elem_of_app;
          [right; by apply list_elem_of_singleton | left; by eapply Hst].
      + intros Hl Hy. apply elem_of_app. left. by eapply Hst.
      + intros Hl Hy. apply elem_of_app. left. by eapply Hst. }
  intros h l Hl Hx. refine (Hgen files [] Doc.dup_init _ h l x Hl Hx).
  intros h' l' y Hl'. simpl in Hl'. by apply elem_of_nil in Hl'.
Qed.
End Collecting.

(** X19.  The document sorter collects no PDF file: [.pdf] is not among
    the extensions it searches for, so no collected path has that suffix
    and none is filed under pdfs or ebooks. *)
Theorem documents_collect_no_pdf {E : Env} (extensions : list string)
    (source_dir : Path) (t : Tree) (p : Path) :
  (∀ s, is_ascii_text s = true -> str_lower s = ascii_lower s) ->
  (∀ e, e ∈ extensions -> e ∈ PyDict.keys Doc.category_mapping) ->
  p ∈ doc_get_all_files extensions source_dir t ->
  str_lower (suffix p) ≠ ".pdf"
  ∧ Doc.get_file_category p ≠ "pdfs"
  ∧ Doc.get_file_category p ≠ "ebooks".
Proof.
  intros Hlower Hexts Hp.
  pose proof (doc_collected_not_pdf _ _ _ _ Hlower Hexts Hp) as Hpdf.
  split; [exact Hpdf|]. unfold Doc.get_file_category.
  destruct (String.eqb_spec (str_lower (suffix p)) ".pdf") as [Heq|_]; [done|].
  destruct (bool_decide _).
  - by destruct (Doc.is_bookmark_file p).
  - destruct (PyDict.get _ _) as [v|] eqn:Hget; simpl; [|done].
    by apply category_mapping_no_pdf in Hget.
Qed.

Lemma documents_collect_no_pdf_witness :
  let E := toy_env [] in
  let t := Dir ["a.txt"; "b.pdf"; "C.TXT"; "d.Txt"] [("sub", Dir ["e.md"] [])] in
  let extensions := PyDict.keys Doc.category_mapping in
  (∀ x, x ∈ doc_get_all_files extensions ["src"] t
        <-> x ∈ [["src"; "a.txt"]; ["src"; "C.TXT"]; ["src"; "sub"; "e.md"]])
  ∧ Doc.get_file_category ["src"; "a.txt"] ≠ "pdfs".
Proof.
  intros E t extensions.
  assert (Hlower : ∀ s, is_ascii_text s = true -> str_lower s = ascii_lower s)
    by (intros s _; reflexivity).
  assert (Hexts : ∀ e, e ∈ extensions -> e ∈ PyDict.keys Doc.category_mapping)
    by (intros e He; exact He).
  assert (Hall : doc_get_all_files extensions ["src"] t
                 = [["src"; "a.txt"]; ["src"; "C.TXT"]; ["src"; "sub"; "e.md"]])
    by (vm_compute; reflexivity).
  assert (Hp : ["src"; "a.txt"] ∈ doc_get_all_files extensions ["src"] t).
  { rewrite Hall. apply elem_of_cons. by left. }
  split; [by rewrite Hall|].
  exact (proj1 (proj2 (documents_collect_no_pdf extensions ["src"] t
                         ["src"; "a.txt"] Hlower Hexts Hp))).
Defined.

(** X20.  A run of the document sorter leaves the PDF files of the source
    tree where they are: it collects none, so it moves none, lists none as
    a duplicate, and clean-up removes none. *)
Theorem documents_leave_pdfs {E : Env} (extensions : list string)
    (source_dir dest_base_dir : Path) (max_files_per_folder : Z) (fuel : nat)
    (t t' : Tree) (d : DirMap) (files processed : list Path) (st' : Sorter)
    (p : Path) :
  (∀ s, is_ascii_text s = true -> str_lower s = ascii_lower s) ->
  (∀ e, e ∈ extensions -> e ∈ PyDict.keys Doc.category_mapping) ->
  let collected := doc_get_all_files extensions source_dir t in
  (∀ f, f ∈ files -> f ∈ Doc.unique_files_of collected) ->
  doc_organize_files dest_base_dir max_files_per_folder fuel files
    (sorter_init d) = Some st' ->
  (∀ f, f ∈ processed -> f ∈ processed_files st') ->
  p ∈ all_files source_dir t' ->
  str_lower (suffix p) = ".pdf" ->
  (∀ src tgt o, (src, tgt, o) ∈ transfers st' -> src ≠ p)
  ∧ p ∈ all_files source_dir
          (sweep_tree
             (doc_clean_source_directory source_dir processed
                (Doc.find_duplicates collected) t')).
Proof.
  intros Hlower Hexts collected Hfiles Hrun Hproc Hp Hpdf.
  assert (Hcol : p ∉ collected).
  { intros Hin. by apply (doc_collected_not_pdf _ _ _ _ Hlower Hexts) in Hin. }
  assert (Hsrc : ∀ src tgt o, (src, tgt, o) ∈ transfers st' -> src ≠ p).
  { intros src tgt o Hin ->. apply Hcol, doc_unique_in_files, Hfiles.
    rewrite <- (files_by_category_values files).
    rewrite <- (doc_organize_files_sources _ _ _ _ _ _ Hrun).
    apply list_elem_of_fmap. by exists (p, tgt, o). }
  split; [exact Hsrc|].
  unfold doc_clean_source_directory. rewrite remove_empty_dirs_all_files.
  apply remove_ds_store_keeps.
  { intros Hname. unfold suffix in Hpdf. rewrite Hname in Hpdf.
    simpl in Hpdf. by rewrite (Hlower "") in Hpdf. }
  apply remove_files_keeps.
  { intros Hin. by apply Hcol, doc_listed_in_files. }
  apply remove_files_keeps; [|done].
  intros Hin%Hproc.
  apply (doc_organize_files_processed _ _ _ _ _ _ Hrun) in Hin as [tgt Hin].
  by apply (Hsrc _ _ _ Hin).
Qed.

Lemma documents_leave_pdfs_witness :
  let E := toy_env [(["src"; "a.txt"], "hello"); (["src"; "b.pdf"], "%12")] in
  let t := Dir ["a.txt"; "b.pdf"] [] in
  let extensions := PyDict.keys Doc.category_mapping in
  ∃ st', doc_organize_files ["out"] 2 3 [["src"; "a.txt"]] (sorter_init ∅)
         = Some st'
         ∧ all_files ["src"]
             (sweep_tree
                (doc_clean_source_directory ["src"] [["src"; "a.txt"]]
                   (Doc.find_duplicates (doc_get_all_files extensions ["src"] t))
                   t))
           = [["src"; "b.pdf"]]
         ∧ ["src"; "b.pdf"]
             ∈ all_files ["src"]
                 (sweep_tree
                    (doc_clean_source_directory ["src"] [["src"; "a.txt"]]
                       (Doc.find_duplicates
                          (doc_get_all_files extensions ["src"] t))
                       t)).
Proof.
  intros E t extensions.
  assert (Hlower : ∀ s, is_ascii_text s = true -> str_lower s = ascii_lower s)
    by (intros s _; reflexivity).
  assert (Hexts : ∀ e, e ∈ extensions -> e ∈ PyDict.keys Doc.category_mapping)
    by (intros e He; exact He).
  assert (Hproc0 : (fun st => elements (processed_files st))
                   <$> doc_organize_files ["out"] 2 3 [["src"; "a.txt"]]
                         (sorter_init ∅)
                   = Some [["src"; "a.txt"]]) by (vm_compute; reflexivity).
  apply fmap_Some in Hproc0 as (st' & Hrun & Hproc0).
  assert (Huniq : elements
                    (Doc.unique_files_of (doc_get_all_files extensions ["src"] t))
                  = [["src"; "a.txt"]]) by (vm_compute; reflexivity).
  assert (Hfiles : ∀ f, f ∈ [["src"; "a.txt"]] ->
            f ∈ Doc.unique_files_of (doc_get_all_files extensions ["src"] t)).
  { intros f Hf. apply elem_of_elements. by rewrite Huniq. }
  assert (Hproc : ∀ f, f ∈ [["src"; "a.txt"]] -> f ∈ processed_files st').
  { intros f Hf. apply elem_of_elements. by rewrite <- Hproc0. }
  assert (Hp : ["src"; "b.pdf"] ∈ all_files ["src"] t).
  { vm_compute. apply elem_of_cons. right. apply elem_of_cons. by left. }
  assert (Hpdf : str_lower (suffix ["src"; "b.pdf"]) = ".pdf")
    by (vm_compute; reflexivity).
  exists st'. split; [exact Hrun|]. split; [vm_compute; reflexivity|].
  exact (proj2 (documents_leave_pdfs extensions ["src"] ["out"] 2 3 t t ∅
                  [["src"; "a.txt"]] [["src"; "a.txt"]] st' ["src"; "b.pdf"]
                  Hlower Hexts Hfiles Hrun Hproc Hp Hpdf)).
Defined.

(** ** Files of the same name *)

Section SameName.
Context {E : Env}.
Variable dest_base_dir : Path.
Variable max_files : Z.
Variable nm : string.
Hypothesis Hmax : (1 < max_files)%Z.

Lemma size_within_singleton (X : gset string) : X ⊆ {[nm]} -> size X <= 1.
Proof.
  intros Hsub. apply subseteq_size in Hsub. by rewrite size_singleton in Hsub.
Qed.

(** Below a directory whose folders hold no other name than [nm] the
    allocator stays at the number it is asked for. *)
Lemma next_batch_loop_stays fuel base n d folder n' d' :
  (∀ p, length base < length p -> entries d p ⊆ {[nm]}) ->
  next_batch_loop fuel base max_files n d = Some (folder, n', d') ->
  n' = n ∧ folder = path_join base (batch_name n)
  ∧ ∀ p, length base < length p -> entries d' p = entries d p.
Proof.
  intros Hone (-> & Hle & _ & _ & Hframe & Hfull)%next_batch_loop_spec.
  assert (n' = n) as ->.
  { destruct (decide (n' = n)) as [|Hne]; [done|]. exfalso.
    assert (Hn : (n <= n < n')%Z) by lia.
    specialize (Hfull n Hn). unfold full in Hfull.
    assert (Hlen : length base < length (path_join base (batch_name n)))
      by (unfold path_join; rewrite length_app; simpl; lia).
    rewrite (Hframe _ Hlen) in Hfull.
    pose proof (size_within_singleton _ (Hone _ Hlen)). lia. }
  done.
Qed.

Lemma try_transfer_one_name depth st f folder :
  name f = nm ->
  (∀ p, depth < length p -> entries (dest st) p ⊆ {[nm]}) ->
  ∀ p, depth < length p ->
       entries (dest (try_transfer st f folder)) p ⊆ {[nm]}.
Proof.
  intros Hname Hone p Hp.
  destruct (try_transfer_dest st f folder) as [-> | ->]; [|by apply Hone].
  rewrite add_entry_entries, Hname.
  destruct (decide _); [|by apply Hone].
  apply union_least; [by apply Hone | done].
Qed.

Lemma img_place_one_name fuel st f st' :
  name f = nm ->
  one_name dest_base_dir nm (length dest_base_dir) (fun _ => []) st ->
  img_place dest_base_dir max_files fuel st f = Some st' ->
  one_name dest_base_dir nm (length dest_base_dir) (fun _ => []) st'.
Proof.
  intros Hname (Hnum & Hone & Hlog). unfold img_place, img_get_next_batch_folder.
  destruct (next_batch_loop _ _ _ _ _) as [[[folder num] d1]|] eqn:Hloop;
    [|done].
  apply (next_batch_loop_stays _ _ _ _ _ _ _ Hone) in Hloop
    as (-> & -> & Hframe).
  intros [= <-].
  set (st1 := {| dest := d1; current_folder_num := current_folder_num st;
                 processed_files := processed_files st;
                 transfers := transfers st |}).
  split; [by rewrite try_transfer_num|]. split.
  - apply try_transfer_one_name; [done|]. intros p Hp. simpl.
    rewrite (Hframe p Hp). by apply Hone.
  - intros src tgt o.
    destruct (try_transfer_log st1 f
                (path_join dest_base_dir (batch_name (current_folder_num st))))
      as [o' ->].
    intros [Hold|Hnew%list_elem_of_singleton]%elem_of_app; [by eapply Hlog|].
    injection Hnew as -> -> ->. rewrite Hname, Hnum.
    unfold path_join. simpl. by rewrite <- app_assoc.
Qed.

Lemma doc_place_one_name fuel category st f st' :
  name f = nm -> Doc.get_file_category f = category ->
  one_name dest_base_dir nm (length dest_base_dir + 1)
    (fun src => [Doc.get_file_category src]) st ->
  doc_place dest_base_dir max_files fuel category st f = Some st' ->
  one_name dest_base_dir nm (length dest_base_dir + 1)
    (fun src => [Doc.get_file_category src]) st'.
Proof.
  intros Hname Hcat (Hnum & Hone & Hlog).
  unfold doc_place, doc_get_next_batch_folder.
  assert (Hlen : length (path_join dest_base_dir category)
                 = length dest_base_dir + 1)
    by (unfold path_join; rewrite length_app; simpl; lia).
  assert (Hone0 : ∀ p, length (path_join dest_base_dir category) < length p ->
            entries (mkdir_parents (dest st) (path_join dest_base_dir category)) p
            ⊆ {[nm]}).
  { intros p Hp. rewrite mkdir_parents_entries by lia. apply Hone. lia. }
  destruct (next_batch_loop _ _ _ _ _) as [[[folder num] d1]|] eqn:Hloop;
    [|done].
  apply (next_batch_loop_stays _ _ _ _ _ _ _ Hone0) in Hloop
    as (-> & -> & Hframe).
  intros [= <-].
  set (st1 := {| dest := d1; current_folder_num := current_folder_num st;
                 processed_files := processed_files st;
                 transfers := transfers st |}).
  split; [by rewrite try_transfer_num|]. split.
  - apply try_transfer_one_name; [done|]. intros p Hp. simpl.
    rewrite Hframe by lia. apply Hone0. lia.
  - intros src tgt o.
    destruct (try_transfer_log st1 f
                (path_join (path_join dest_base_dir category)
                   (batch_name (current_folder_num st)))) as [o' ->].
    intros [Hold|Hnew%list_elem_of_singleton]%elem_of_app; [by eapply Hlog|].
    injection Hnew as -> -> ->. rewrite Hname, Hnum, Hcat.
    unfold path_join. simpl. by rewrite <- !app_assoc.
Qed.

Lemma img_first_folder_num_fresh :
  img_first_folder_num dest_base_dir (mkdir_parents ∅ dest_base_dir) = 1%Z.
Proof.
  unfold img_first_folder_num.
  rewrite mkdir_parents_entries by done.
  unfold entries. rewrite lookup_empty. simpl. by rewrite elements_empty.
Qed.

Lemma img_organize_files_one_name fuel files st' :
  (∀ f, f ∈ files -> name f = nm) ->
  img_organize_files dest_base_dir max_files fuel files (sorter_init ∅)
  = Some st' ->
  one_name dest_base_dir nm (length dest_base_dir) (fun _ => []) st'.
Proof.
  intros Hnames. unfold img_organize_files.
  apply for_each_invariant with
    (P := one_name dest_base_dir nm (length dest_base_dir) (fun _ => [])).
  - intros s f s' Hf Hs. apply img_place_one_name; [by apply Hnames | done].
  - split; [apply img_first_folder_num_fresh|]. split.
    + intros p Hp. simpl. rewrite mkdir_parents_entries by lia.
      unfold entries. by rewrite lookup_empty.
    + intros src tgt o Hin. simpl in Hin. by apply elem_of_nil in Hin.
Qed.

Lemma doc_organize_files_one_name fuel files st' :
  (∀ f, f ∈ files -> name f = nm) ->
  doc_organize_files dest_base_dir max_files fuel files (sorter_init ∅)
  = Some st' ->
  one_name dest_base_dir nm (length dest_base_dir + 1)
    (fun src => [Doc.get_file_category src]) st'.
Proof.
  intros Hnames. unfold doc_organize_files.
  apply for_each_invariant with
    (P := one_name dest_base_dir nm (length dest_base_dir + 1)
            (fun src => [Doc.get_file_category src])).
  - intros s [category fs] s' Hitem Hs. unfold doc_organize_category.
    apply for_each_invariant with
      (P := one_name dest_base_dir nm (length dest_base_dir + 1)
              (fun src => [Doc.get_file_category src])).
    + intros s0 f s0' Hf Hs0. apply doc_place_one_name; [|by eapply files_by_category_spec|done].
      apply Hnames. rewrite <- (files_by_category_values files).
      apply list_elem_of_In, in_concat. exists fs. split; [|by apply list_elem_of_In].
      apply in_map_iff. exists (category, fs). split; [done | by apply list_elem_of_In].
    + destruct Hs as (_ & Hone & Hlog). done.
  - split; [done|]. split.
    + intros p Hp. simpl. rewrite mkdir_parents_entries by lia.
      unfold entries. by rewrite lookup_empty.
    + intros src tgt o Hin. simpl in Hin. by apply elem_of_nil in Hin.
Qed.
End SameName.

(** X21.  Neither sorter renames a file to avoid a clash.  Given files
    that all have the same name and a fresh destination, with room for
    more than one file in a folder, every transfer of the image sorter has
    one and the same target, [<dest>/batch_001/<name>], the transfers of
    the document sorter have the target [<dest>/<category>/batch_001/<name>],
    and no batch folder ends up holding more than that one name. *)
Theorem same_name_same_target {E : Env} (dest_base_dir : Path)
    (max_files_per_folder : Z) (fuel : nat) (files : list Path) (nm : string)
    (st' : Sorter) :
  (1 < max_files_per_folder)%Z ->
  (∀ f, f ∈ files -> name f = nm) ->
  (img_organize_files dest_base_dir max_files_per_folder fuel files
     (sorter_init ∅) = Some st' ->
   (∀ src tgt o, (src, tgt, o) ∈ transfers st' ->
      tgt = dest_base_dir ++ [batch_name 1; nm])
   ∧ ∀ n, size (entries (dest st') (path_join dest_base_dir (batch_name n)))
          <= 1)
  ∧ (doc_organize_files dest_base_dir max_files_per_folder fuel files
       (sorter_init ∅) = Some st' ->
     (∀ src tgt o, (src, tgt, o) ∈ transfers st' ->
        tgt = dest_base_dir ++ [Doc.get_file_category src; batch_name 1; nm])
     ∧ ∀ category n,
         size (entries (dest st')
                 (path_join (path_join dest_base_dir category) (batch_name n)))
         <= 1).
Proof.
  intros Hmax Hnames. split; intros Hrun.
  - destruct (img_organize_files_one_name _ _ _ Hmax _ _ _ Hnames Hrun)
      as (_ & Hone & Hlog).
    split; [exact Hlog|]. intros n. apply (size_within_singleton nm), Hone.
    unfold path_join. rewrite length_app. simpl. lia.
  - destruct (doc_organize_files_one_name _ _ _ Hmax _ _ _ Hnames Hrun)
      as (_ & Hone & Hlog).
    split; [exact Hlog|]. intros category n.
    apply (size_within_singleton nm), Hone.
    unfold path_join. rewrite !length_app. simpl. lia.
Qed.

Lemma same_name_same_target_witness :
  let E := toy_env [] in
  let files := [["src"; "x"; "a.png"]; ["src"; "y"; "a.png"]] in
  ∃ st', img_organize_files ["out"] 2 3 files (sorter_init ∅) = Some st'
         ∧ transfers st'
           = [(["src"; "x"; "a.png"], ["out"; "batch_001"; "a.png"], Done);
              (["src"; "y"; "a.png"], ["out"; "batch_001"; "a.png"], Done)]
         ∧ ∀ src tgt o, (src, tgt, o) ∈ transfers st' ->
             tgt = ["out"] ++ [batch_name 1; "a.png"].
Proof.
  intros E files.
  assert (Hmax : (1 < 2)%Z) by lia.
  assert (Hnames : ∀ f, f ∈ files -> name f = "a.png").
  { intros f Hf. apply elem_of_cons in Hf as [->|Hf]; [reflexivity|].
    apply list_elem_of_singleton in Hf as ->. reflexivity. }
  assert (Hlog : transfers <$> img_organize_files ["out"] 2 3 files
                                 (sorter_init ∅)
                 = Some [(["src"; "x"; "a.png"], ["out"; "batch_001"; "a.png"],
                          Done);
                         (["src"; "y"; "a.png"], ["out"; "batch_001"; "a.png"],
                          Done)])
    by (vm_compute; reflexivity).
  apply fmap_Some in Hlog as (st' & Hrun & Hlog).
  exists st'. split; [exact Hrun|]. split; [done|].
  exact (proj1 (proj1 (same_name_same_target ["out"] 2 3 files "a.png" st'
                         Hmax Hnames) Hrun)).
Defined.

(** ** The category mapping *)

Section CategoryLiteral.
Context {E : Env}.

(** Building a dictionary from a literal: the last entry of a key gives
    its value. *)
Lemma get_literal_last {V} (before after : list (string * V)) k v d0 :
  (k ∉ map fst after) ->
  PyDict.get k
    (fold_left (fun d '(k, v) => PyDict.set k v d)
       (before ++ (k, v) :: after) d0)
  = Some v.
Proof.
  intros Hafter. rewrite fold_left_app. simpl.
  generalize (fold_left (fun d '(k0, v0) => PyDict.set k0 v0 d) before d0).
  intros d1.
  assert (Hgen : ∀ d, PyDict.get k d = Some v ->
            PyDict.get k (fold_left (fun d '(k0, v0) => PyDict.set k0 v0 d)
                            after d) = Some v).
  { clear d0 d1. induction after as [|[k' v'] after IH]; intros d Hd; simpl;
      [done|].
    apply not_elem_of_cons in Hafter as [Hne Hafter]. simpl in Hne.
    apply IH; [done|]. by rewrite PyDictFacts.get_set_ne. }
  apply Hgen, PyDictFacts.get_set_eq.
Qed.

Lemma get_literal_none {V} (literal : list (string * V)) k d0 :
  (k ∉ map fst literal) -> PyDict.get k d0 = None ->
  PyDict.get k (fold_left (fun d '(k, v) => PyDict.set k v d) literal d0)
  = None.
Proof.
  revert d0. induction literal as [|[k' v'] literal IH]; intros d0 Hk Hd; simpl;
    [done|].
  apply not_elem_of_cons in Hk as [Hne Hk]. simpl in Hne.
  apply IH; [done|]. by rewrite PyDictFacts.get_set_ne.
Qed.
End CategoryLiteral.

(** X22.  For a file that is neither a PDF nor a web file the category
    is the one the last entry of its extension in the mapping gives:
    where the literal names an extension twice, as it does [.rtf], the
    later entry wins.  An extension the literal does not name gives
    [other]. *)
Theorem category_last_entry_wins {E : Env} (p : Path)
    (before after : list (string * string)) (v : string) :
  str_lower (suffix p) ≠ ".pdf" ->
  (str_lower (suffix p) ∉ [".html"; ".htm"; ".url"; ".webloc"]) ->
  (Doc.category_literal = before ++ (str_lower (suffix p), v) :: after ->
   (str_lower (suffix p) ∉ map fst after) ->
   Doc.get_file_category p = v)
  ∧ ((str_lower (suffix p) ∉ map fst Doc.category_literal) ->
     Doc.get_file_category p = "other").
Proof.
  intros Hpdf Hweb. unfold Doc.get_file_category.
  destruct (String.eqb_spec (str_lower (suffix p)) ".pdf") as [|_]; [done|].
  rewrite bool_decide_eq_false_2 by done.
  unfold Doc.category_mapping. split.
  - intros -> Hafter. by rewrite get_literal_last.
  - intros Hnone. by rewrite get_literal_none.
Qed.

Lemma category_last_entry_wins_witness :
  let E := toy_env [] in
  let p := ["src"; "Letter.RTF"] in
  (".rtf", "documents") ∈ Doc.category_literal
  ∧ Doc.get_file_category p = "notes".
Proof.
  intros E p.
  assert (Hpdf : str_lower (suffix p) ≠ ".pdf") by (vm_compute; discriminate).
  assert (Hweb : str_lower (suffix p) ∉ [".html"; ".htm"; ".url"; ".webloc"]).
  { apply (bool_decide_unpack _). vm_compute. exact I. }
  assert (Hlit : Doc.category_literal
                 = firstn 16 Doc.category_literal
                   ++ (str_lower (suffix p), "notes")
                      :: skipn 17 Doc.category_literal)
    by (vm_compute; reflexivity).
  assert (Hafter : str_lower (suffix p)
                   ∉ map fst (skipn 17 Doc.category_literal)).
  { apply (bool_decide_unpack _). vm_compute. exact I. }
  split.
  - apply (bool_decide_unpack _). vm_compute. exact I.
  - exact (proj1 (category_last_entry_wins p (firstn 16 Doc.category_literal)
                    (skipn 17 Doc.category_literal) "notes" Hpdf Hweb)
             Hlit Hafter).
Defined.

(** ** Large files in the image sorter *)

Lemma large_file_sample (n : nat) (b1 b2 : byte) :
  length (large_file n b1) = length (large_file n b2)
  ∧ n * 2 < length (large_file n b1)
  ∧ firstn n (large_file n b1) = firstn n (large_file n b2)
  ∧ skipn (length (large_file n b1) - n) (large_file n b1)
    = skipn (length (large_file n b2) - n) (large_file n b2).
Proof.
  assert (Hsize : ∀ b, length (large_file n b) = n + 1 + n).
  { intros b. unfold large_file. by rewrite !length_app, !repeat_length. }
  rewrite !Hsize. split; [done|]. split; [lia|]. unfold large_file. split.
  - rewrite <- !app_assoc.
    by rewrite !take_app_length' by (by rewrite repeat_length).
  - by rewrite !drop_app_length'
      by (rewrite length_app, repeat_length; simpl; lia).
Qed.

Lemma large_file_inj (n : nat) (b1 b2 : byte) :
  large_file n b1 = large_file n b2 -> b1 = b2.
Proof.
  unfold large_file. intros Heq%app_inv_tail%app_inv_head. congruence.
Qed.

(** X23.  The image sorter compares large files that are not images by a
    sample: two such files of the same size, larger than two chunks, with
    the same first and the same last chunk have the same signature, and
    the second is listed as a duplicate of the first, whatever lies
    between the chunks. *)
Theorem large_files_compared_by_sample {E : Env} (p q : Path)
    (cp cq : list byte) (t : Z) :
  Image.is_image p = false -> Image.is_image q = false ->
  fs p = Some cp -> fs q = Some cq ->
  length cp = length cq ->
  Image.chunk_size * 2 < length cp ->
  firstn Image.chunk_size cp = firstn Image.chunk_size cq ->
  skipn (length cp - Image.chunk_size) cp
  = skipn (length cq - Image.chunk_size) cq ->
  snd (Image.compute_file_hash p) = snd (Image.compute_file_hash q)
  ∧ Image.find_duplicates [p; q] t
    = [(md5_hexdigest (Image.sampled_content cp), [q])].
Proof.
  intros Hp Hq Hcp Hcq Hlen Hbig Hfirst Hlast.
  assert (Hsample : Image.sampled_content cq = Image.sampled_content cp).
  { unfold Image.sampled_content. rewrite <- Hlast, <- Hfirst, <- Hlen.
    by rewrite (proj2 (Nat.ltb_lt _ _) Hbig). }
  assert (Hhp : Image.compute_file_hash p
                = (p, Some (md5_hexdigest (Image.sampled_content cp)))).
  { unfold Image.compute_file_hash. by rewrite Hp, Hcp. }
  assert (Hhq : Image.compute_file_hash q
                = (q, Some (md5_hexdigest (Image.sampled_content cp)))).
  { unfold Image.compute_file_hash. by rewrite Hq, Hcq, Hsample. }
  split; [by rewrite Hhp, Hhq|].
  unfold Image.find_duplicates, Image.dup_run. cbn [fold_left].
  unfold Image.dup_step at 2. rewrite Hhp, Hp. cbn [Image.dup_init
    Image.hash_dict Image.duplicates PyDict.mem PyDict.get PyDict.set].
  unfold Image.dup_step. rewrite Hhq, Hq.
  cbn [Image.hash_dict Image.duplicates PyDict.mem PyDict.get].
  unfold PyDict.mem, PyDict.get. rewrite String.eqb_refl. reflexivity.
Qed.

Lemma large_files_compared_by_sample_witness :
  let p := ["src"; "a.mp4"] in
  let q := ["src"; "b.mp4"] in
  let cp := large_file Image.chunk_size x01 in
  let cq := large_file Image.chunk_size x02 in
  let E := toy_env_bytes [(p, cp); (q, cq)] in
  cp ≠ cq ∧ snd (Image.compute_file_hash p) = snd (Image.compute_file_hash q).
Proof.
  intros p q cp cq E.
  assert (Hp : Image.is_image p = false) by (vm_compute; reflexivity).
  assert (Hq : Image.is_image q = false) by (vm_compute; reflexivity).
  assert (Hcp : fs p = Some cp) by reflexivity.
  assert (Hcq : fs q = Some cq) by reflexivity.
  destruct (large_file_sample Image.chunk_size x01 x02)
    as (Hlen & Hbig & Hfirst & Hlast).
  split.
  - intros Heq%large_file_inj. discriminate Heq.
  - exact (proj1 (large_files_compared_by_sample p q cp cq 0
                    Hp Hq Hcp Hcq Hlen Hbig Hfirst Hlast)).
Defined.
